(** * Multigenerational LRU helpers of include/linux/mm_inline.h

    A shallow embedding of the CONFIG_LRU_GEN half of mm_inline.h:
    the page->flags codec (generation counter, usage counter, tier flags),
    the sliding window of generations, the size accounting and the
    addition / deletion / usage-increment operations, followed by the
    properties established about them.

    Conventions.
    - [unsigned long] is 64 bits wide; values are kept in [Z] and every
      operation that can leave the range is wrapped by [to_ulong].
    - [int] results obtained from unsigned arithmetic go through [to_int].
    - [VM_BUG_ON] is modelled as in a CONFIG_DEBUG_VM build: a failed
      assertion stops the function with [Bug], tagged by the assertion.
    - The cmpxchg() retry loops are modelled by their single successful
      iteration: the word read is the word replaced.  Locking
      (lockdep_assert_held, rcu) is not modelled.
    - Constants that live in other headers (mmzone.h, page-flags.h,
      page-flags-layout.h) are fields of the record [config]; the
      relations between them that those headers guarantee are collected in
      [config_ok]. *)

From Stdlib Require Import ZArith List Bool Lia.
From coqutil Require Import Z.bitblast.
Import ListNotations.
Local Open Scope Z_scope.

(** ** Machine integers *)

Definition to_ulong (z : Z) : Z := z mod 2 ^ 64.
Definition to_uint (z : Z) : Z := z mod 2 ^ 32.
Definition to_int (z : Z) : Z := (z + 2 ^ 31) mod 2 ^ 32 - 2 ^ 31.

(** [BIT(nr)] is [1UL << nr]. *)
Definition BIT (nr : Z) : Z := to_ulong (Z.shiftl 1 nr).

(** [~x] on an unsigned long. *)
Definition not_ulong (x : Z) : Z := Z.lxor x (Z.ones 64).

(** [(BIT(width) - 1) << pgoff], the mask of a counter kept in page->flags. *)
Definition field_mask (width pgoff : Z) : Z :=
  to_ulong (Z.shiftl (to_ulong (BIT width - 1)) pgoff).

(** ** Constants taken from other headers *)

Record config : Type := Config {
  MAX_NR_GENS : Z;
  LRU_GEN_WIDTH : Z;
  LRU_GEN_PGOFF : Z;
  LRU_USAGE_WIDTH : Z;
  LRU_USAGE_PGOFF : Z;
  ZONES_WIDTH : Z;
  ZONES_PGSHIFT : Z;
  PG_referenced : Z;
  PG_dirty : Z;
  PG_active : Z;
  PG_workingset : Z;
  PG_writeback : Z;
  PG_reclaim : Z;
  PG_swapbacked : Z;
  PG_unevictable : Z;
  PG_swapcache : Z;
  LRU_ACTIVE : Z;
  LRU_FILE : Z
}.

(** The page flag numbers used by this file, in one list. *)
Definition pg_bits (K : config) : list Z :=
  [PG_referenced K; PG_dirty K; PG_active K; PG_workingset K; PG_writeback K;
   PG_reclaim K; PG_swapbacked K; PG_unevictable K; PG_swapcache K].

Fixpoint distinctb (l : list Z) : bool :=
  match l with
  | [] => true
  | x :: r => negb (existsb (Z.eqb x) r) && distinctb r
  end.

(** What the layout headers guarantee: the page flags sit in the low bits
    and are pairwise distinct, the usage counter sits below the generation
    counter, the zone number above it, everything fits in the word, a
    generation number plus one fits in its field and in an [int]. *)
Definition config_ok (K : config) : bool :=
  (1 <=? MAX_NR_GENS K) && (MAX_NR_GENS K <? 2 ^ LRU_GEN_WIDTH K) &&
  (0 <=? LRU_GEN_WIDTH K) && (LRU_GEN_WIDTH K <=? 31) &&
  (0 <=? LRU_USAGE_WIDTH K) && (0 <=? ZONES_WIDTH K) &&
  (0 <=? LRU_USAGE_PGOFF K) &&
  (LRU_USAGE_PGOFF K + LRU_USAGE_WIDTH K <=? LRU_GEN_PGOFF K) &&
  (LRU_GEN_PGOFF K + LRU_GEN_WIDTH K <=? ZONES_PGSHIFT K) &&
  (ZONES_PGSHIFT K + ZONES_WIDTH K <=? 64) &&
  forallb (fun b => (0 <=? b) && (b <? LRU_USAGE_PGOFF K)) (pg_bits K) &&
  distinctb (pg_bits K).

Section Codec.
Variable K : config.

(** mmzone.h: [((BIT(LRU_GEN_WIDTH) - 1) << LRU_GEN_PGOFF)] and likewise for
    the usage counter; the tier flags are the referenced and the workingset
    bit. *)
Definition LRU_GEN_MASK : Z := field_mask (LRU_GEN_WIDTH K) (LRU_GEN_PGOFF K).
Definition LRU_USAGE_MASK : Z := field_mask (LRU_USAGE_WIDTH K) (LRU_USAGE_PGOFF K).
Definition LRU_TIER_FLAGS : Z :=
  Z.lor (BIT (PG_referenced K)) (BIT (PG_workingset K)).
Definition ZONES_MASK : Z := to_ulong (BIT (ZONES_WIDTH K) - 1).

(** ** Pages *)

Record page : Type := Page {
  flags : Z;        (* page->flags *)
  compound_nr : Z   (* what thp_nr_pages() reports *)
}.

Definition test_bit (nr : Z) (f : Z) : bool := Z.testbit f nr.

Definition PageReferenced (p : page) := test_bit (PG_referenced K) (flags p).
Definition PageDirty (p : page) := test_bit (PG_dirty K) (flags p).
Definition PageActive (p : page) := test_bit (PG_active K) (flags p).
Definition PageWorkingset (p : page) := test_bit (PG_workingset K) (flags p).
Definition PageWriteback (p : page) := test_bit (PG_writeback K) (flags p).
Definition PageReclaim (p : page) := test_bit (PG_reclaim K) (flags p).
Definition PageSwapBacked (p : page) := test_bit (PG_swapbacked K) (flags p).
Definition PageUnevictable (p : page) := test_bit (PG_unevictable K) (flags p).
(** page-flags.h: [PageSwapBacked(page) && test_bit(PG_swapcache, ...)]. *)
Definition PageSwapCache (p : page) :=
  PageSwapBacked p && test_bit (PG_swapcache K) (flags p).

Definition page_zonenum (p : page) : Z :=
  Z.land (Z.shiftr (flags p) (ZONES_PGSHIFT K)) ZONES_MASK.
Definition thp_nr_pages (p : page) : Z := compound_nr p.

(** [page_is_file_lru]: [!PageSwapBacked(page)], an [int]. *)
Definition page_is_file_lru (p : page) : Z :=
  if PageSwapBacked p then 0 else 1.

(** ** Sequence numbers, generations, tiers *)

Definition lru_gen_from_seq (seq : Z) : Z := to_int (seq mod MAX_NR_GENS K).

End Codec.

(** [ilog2] and [order_base_2] are the macros of include/linux/log2.h, a
    header outside the files embedded here.  They are written down as that
    header documents them: [ilog2] is the base-2 logarithm rounded down,
    [order_base_2] the rounded-up base-2 order of its argument,
    [n > 1 ? ilog2(n - 1) + 1 : 0], so ob2(0) = 0, ob2(1) = 0, ob2(2) = 1,
    ob2(3) = 2, ob2(4) = 2, ob2(5) = 3.  The argument is an
    [unsigned long]. *)
Definition ilog2 (n : Z) : Z := Z.log2 n.
Definition order_base_2 (n : Z) : Z :=
  let n := to_ulong n in
  if 1 <? n then ilog2 (n - 1) + 1 else 0.

(** [lru_tier_from_usage]: [usage] is an [int]; [usage + 1] is computed in
    [int] and converted to the macro's [unsigned long]. *)
Definition lru_tier_from_usage (usage : Z) : Z :=
  to_int (order_base_2 (to_int (usage + 1))).

(** ** Assertions *)

Inductive bug : Type :=
| BUG_max_seq_zero         (* lru_gen_is_active: VM_BUG_ON(!max_seq) *)
| BUG_gen_too_large        (* lru_gen_is_active: VM_BUG_ON(gen >= MAX_NR_GENS) *)
| BUG_old_gen_range        (* lru_gen_update_size, first assertion *)
| BUG_new_gen_range        (* lru_gen_update_size, second assertion *)
| BUG_both_untracked       (* lru_gen_update_size: old_gen == -1 && new_gen == -1 *)
| BUG_active_to_inactive   (* lru_gen_update_size, last assertion *)
| BUG_already_tracked      (* lru_gen_addition: old_flags & LRU_GEN_MASK *)
| BUG_deleting_active      (* lru_gen_deletion: PageActive(page) *)
| BUG_deleting_unevictable (* lru_gen_deletion: PageUnevictable(page) *).

Inductive result (A : Type) : Type :=
| Ok (a : A)
| Bug (b : bug).
Arguments Ok {A} a.
Arguments Bug {A} b.

Definition bind {A B : Type} (c : result A) (k : A -> result B) : result B :=
  match c with
  | Ok a => k a
  | Bug b => Bug b
  end.

Notation "x <- c ;; k" := (bind c (fun x => k))
  (at level 61, c at next level, right associativity).
Notation "c ;;; k" := (bind c (fun _ => k))
  (at level 61, right associativity).

Definition VM_BUG_ON (cond : bool) (b : bug) : result unit :=
  if cond then Bug b else Ok tt.

(** ** The lruvec and the memory it points into *)

Definition page_id : Type := nat.

(** [struct lrugen]: the arrays are total functions of their indices. *)
Record lrugen : Type := Lrugen {
  max_seq : Z;
  min_seq : Z -> Z;                       (* [ANON_AND_FILE] *)
  sizes   : Z -> Z -> Z -> Z;             (* [gen][file][zone] *)
  lists   : Z -> Z -> Z -> list page_id;  (* [gen][file][zone], head first *)
  enabled : Z -> bool                     (* [ANON_AND_FILE] *)
}.

(** The state the inline functions act on: the pages, the lruvec's
    [evictable] member and the calls made to [update_lru_size], oldest
    first, each as (lru, zid, nr_pages). *)
Record state : Type := State {
  mem : page_id -> page;
  evictable : lrugen;
  lru_size_log : list (Z * Z * Z)
}.

Definition upd3 {A : Type} (f : Z -> Z -> Z -> A) (g t z : Z) (v : A)
  : Z -> Z -> Z -> A :=
  fun g' t' z' => if (g' =? g) && (t' =? t) && (z' =? z) then v else f g' t' z'.

Definition set_flags (st : state) (p : page_id) (w : Z) : state :=
  State (fun q => if Nat.eqb q p then Page w (compound_nr (mem st p)) else mem st q)
        (evictable st) (lru_size_log st).

Definition set_size (st : state) (g t z v : Z) : state :=
  let l := evictable st in
  State (mem st)
        (Lrugen (max_seq l) (min_seq l) (upd3 (sizes l) g t z v) (lists l) (enabled l))
        (lru_size_log st).

Definition set_list (st : state) (g t z : Z) (v : list page_id) : state :=
  let l := evictable st in
  State (mem st)
        (Lrugen (max_seq l) (min_seq l) (sizes l) (upd3 (lists l) g t z v) (enabled l))
        (lru_size_log st).

(** [list_add] links the node right after the head, [list_add_tail] right
    before it. *)
Definition list_add (p : page_id) (st : state) (g t z : Z) : state :=
  set_list st g t z (p :: lists (evictable st) g t z).
Definition list_add_tail (p : page_id) (st : state) (g t z : Z) : state :=
  set_list st g t z (lists (evictable st) g t z ++ [p]).

(** [list_del] unlinks the node from whichever list it is linked in. *)
Definition unlink (p : page_id) (l : list page_id) : list page_id :=
  filter (fun q => negb (Nat.eqb q p)) l.
Definition list_del (p : page_id) (st : state) : state :=
  let l := evictable st in
  State (mem st)
        (Lrugen (max_seq l) (min_seq l) (sizes l)
                (fun g t z => unlink p (lists l g t z)) (enabled l))
        (lru_size_log st).

(** [update_lru_size] only forwards to the vmstat and memcg counters. *)
Definition update_lru_size (st : state) (lru zid nr_pages : Z) : state :=
  State (mem st) (evictable st) (lru_size_log st ++ [(lru, zid, nr_pages)]).

Section Ops.
Variable K : config.

(** ** lru_gen_is_active

    [MAX_NR_GENS] is an [unsigned int] in mmzone.h, so the [int] [gen] is
    compared with it as an unsigned number. *)
Definition lru_gen_is_active (st : state) (gen : Z) : result bool :=
  let max_seq := max_seq (evictable st) in
  VM_BUG_ON (max_seq =? 0) BUG_max_seq_zero ;;;
  VM_BUG_ON (MAX_NR_GENS K <=? to_uint gen) BUG_gen_too_large ;;;
  Ok ((gen =? lru_gen_from_seq K max_seq) ||
      (gen =? lru_gen_from_seq K (to_ulong (max_seq - 1)))).

(** ** lru_gen_update_size

    The [&&] of the last two conditions evaluates its right operand only
    when the left one allows it, which matters for the assertions inside
    lru_gen_is_active. *)
Definition lru_gen_update_size (p : page_id) (st : state) (old_gen new_gen : Z)
  : result state :=
  let file := page_is_file_lru K (mem st p) in
  let zone := page_zonenum K (mem st p) in
  let delta := thp_nr_pages (mem st p) in
  let lru := LRU_FILE K * file in
  VM_BUG_ON (negb (old_gen =? -1) && (MAX_NR_GENS K <=? to_uint old_gen))
            BUG_old_gen_range ;;;
  VM_BUG_ON (negb (new_gen =? -1) && (MAX_NR_GENS K <=? to_uint new_gen))
            BUG_new_gen_range ;;;
  VM_BUG_ON ((old_gen =? -1) && (new_gen =? -1)) BUG_both_untracked ;;;
  let st :=
    if 0 <=? old_gen
    then set_size st old_gen file zone
           (to_ulong (sizes (evictable st) old_gen file zone - delta))
    else st in
  let st :=
    if 0 <=? new_gen
    then set_size st new_gen file zone
           (to_ulong (sizes (evictable st) new_gen file zone + delta))
    else st in
  if old_gen <? 0 then
    a <- lru_gen_is_active st new_gen ;;
    let lru := if a then lru + LRU_ACTIVE K else lru in
    Ok (update_lru_size st lru zone delta)
  else if new_gen <? 0 then
    a <- lru_gen_is_active st old_gen ;;
    let lru := if a then lru + LRU_ACTIVE K else lru in
    Ok (update_lru_size st lru zone (to_int (- delta)))
  else
    old_active <- lru_gen_is_active st old_gen ;;
    crossing <- (if old_active then Ok false else lru_gen_is_active st new_gen) ;;
    let st :=
      if crossing
      then update_lru_size (update_lru_size st lru zone (to_int (- delta)))
                           (lru + LRU_ACTIVE K) zone delta
      else st in
    old_active <- lru_gen_is_active st old_gen ;;
    regress <- (if old_active
                then new_active <- lru_gen_is_active st new_gen ;;
                     Ok (negb new_active)
                else Ok false) ;;
    VM_BUG_ON regress BUG_active_to_inactive ;;;
    Ok st.

(** ** lru_gen_addition *)

(** The generation a page is added to (the if / else-if / else chain). *)
Definition addition_gen (st : state) (pg : page) : Z :=
  let file := page_is_file_lru K pg in
  let lrugen := evictable st in
  if PageActive K pg then
    lru_gen_from_seq K (max_seq lrugen)
  else if ((file =? 0) && negb (PageSwapCache K pg)) ||
          (PageReclaim K pg && (PageDirty K pg || PageWriteback K pg)) ||
          (negb (PageReferenced K pg) && PageWorkingset K pg) then
    lru_gen_from_seq K (to_ulong (min_seq lrugen file + 1))
  else
    lru_gen_from_seq K (min_seq lrugen file).

(** The word computed inside the cmpxchg loop. *)
Definition addition_new_flags (gen old_flags : Z) : Z :=
  let new_flags :=
    Z.lor (Z.land old_flags
                  (not_ulong (Z.lor (LRU_GEN_MASK K) (BIT (PG_active K)))))
          (to_ulong (Z.shiftl (to_ulong (gen + 1)) (LRU_GEN_PGOFF K))) in
  if Z.land old_flags (BIT (PG_referenced K)) =? 0
  then Z.land new_flags (not_ulong (Z.lor (LRU_USAGE_MASK K) (LRU_TIER_FLAGS K)))
  else new_flags.

Definition lru_gen_addition (p : page_id) (st : state) (front : bool)
  : result (bool * state) :=
  let pg := mem st p in
  let file := page_is_file_lru K pg in
  let zone := page_zonenum K pg in
  if PageUnevictable K pg || negb (enabled (evictable st) file) then
    Ok (false, st)
  else
    let gen := addition_gen st pg in
    let old_flags := flags pg in
    VM_BUG_ON (negb (Z.land old_flags (LRU_GEN_MASK K) =? 0)) BUG_already_tracked ;;;
    let st := set_flags st p (addition_new_flags gen old_flags) in
    st <- lru_gen_update_size p st (-1) gen ;;
    Ok (true, if front then list_add p st gen file zone
              else list_add_tail p st gen file zone).

(** ** lru_gen_deletion *)

Definition flags_gen (w : Z) : Z :=
  to_int (to_ulong (Z.shiftr (Z.land w (LRU_GEN_MASK K)) (LRU_GEN_PGOFF K) - 1)).

Definition deletion_new_flags (active : bool) (old_flags : Z) : Z :=
  let new_flags := Z.land old_flags (not_ulong (LRU_GEN_MASK K)) in
  if active then Z.lor new_flags (BIT (PG_active K)) else new_flags.

Definition lru_gen_deletion (p : page_id) (st : state) : result (bool * state) :=
  let pg := mem st p in
  let old_flags := flags pg in
  if Z.land old_flags (LRU_GEN_MASK K) =? 0 then
    Ok (false, st)
  else
    VM_BUG_ON (PageActive K pg) BUG_deleting_active ;;;
    VM_BUG_ON (PageUnevictable K pg) BUG_deleting_unevictable ;;;
    let gen := flags_gen old_flags in
    active <- lru_gen_is_active st gen ;;
    let st := set_flags st p (deletion_new_flags active old_flags) in
    st <- lru_gen_update_size p st gen (-1) ;;
    Ok (true, list_del p st).

(** ** page_lru_gen, page_tier_usage *)

Definition page_lru_gen (pg : page) : Z := flags_gen (flags pg).

Definition usage_field (w : Z) : Z :=
  Z.shiftr (Z.land w (LRU_USAGE_MASK K)) (LRU_USAGE_PGOFF K).

Definition page_tier_usage (pg : page) : Z :=
  let flags := flags pg in
  to_int (if negb (Z.land flags (BIT (PG_workingset K)) =? 0)
          then to_ulong (usage_field flags + 1)
          else 0).

(** ** page_inc_usage *)

Definition inc_usage_new_flags (old_flags : Z) : Z :=
  if Z.land old_flags (BIT (PG_workingset K)) =? 0 then
    Z.lor old_flags (BIT (PG_workingset K))
  else
    Z.lor (Z.land old_flags (not_ulong (LRU_USAGE_MASK K)))
          (Z.min (LRU_USAGE_MASK K)
                 (to_ulong (Z.land old_flags (LRU_USAGE_MASK K)
                            + BIT (LRU_USAGE_PGOFF K)))).

(** [lru_gen_enabled()] reads a static key; it is an argument here. *)
Definition page_inc_usage (lru_gen_enabled : bool) (p : page_id) (st : state)
  : bool * state :=
  if negb lru_gen_enabled then
    (PageActive K (mem st p), st)
  else
    let old_flags := flags (mem st p) in
    let new_flags := inc_usage_new_flags old_flags in
    if old_flags =? new_flags then (true, st)
    else (true, set_flags st p new_flags).

End Ops.

(** ** A sample configuration

    An x86-64 style layout: seven generations in a three-bit counter, a
    two-bit usage counter right below it, the zone number above. *)
Definition sample_config : config :=
  {| MAX_NR_GENS := 7;
     LRU_GEN_WIDTH := 3; LRU_GEN_PGOFF := 53;
     LRU_USAGE_WIDTH := 2; LRU_USAGE_PGOFF := 51;
     ZONES_WIDTH := 2; ZONES_PGSHIFT := 56;
     PG_referenced := 1; PG_dirty := 3; PG_active := 5; PG_workingset := 6;
     PG_writeback := 15; PG_reclaim := 18; PG_swapbacked := 19;
     PG_unevictable := 20; PG_swapcache := 10;
     LRU_ACTIVE := 1; LRU_FILE := 2 |}.

Definition sample_lrugen : lrugen :=
  {| max_seq := 5; min_seq := fun _ => 3;
     sizes := fun _ _ _ => 0; lists := fun _ _ _ => [];
     enabled := fun _ => true |}.

Definition sample_state (w : Z) : state :=
  {| mem := fun _ => Page w 1; evictable := sample_lrugen; lru_size_log := [] |}.

(** An anonymous page outside the swap cache, not yet on any list. *)
Definition sample_anon_state : state :=
  sample_state (BIT (PG_swapbacked sample_config)).

(** A file page of generation 5, the youngest one of [sample_lrugen]. *)
Definition sample_tracked_state : state :=
  sample_state (Z.shiftl (5 + 1) (LRU_GEN_PGOFF sample_config)).

(** An unevictable file page. *)
Definition sample_unevictable_state : state :=
  sample_state (BIT (PG_unevictable sample_config)).

(** ** Summaries used in the statements below

    The value lru_gen_is_active returns when its assertions hold, and the
    states lru_gen_addition and lru_gen_deletion leave behind on their
    successful paths (flags written, size updated, update_lru_size called,
    list changed, in the order of the code). *)

Definition active_window (K : config) (st : state) (gen : Z) : bool :=
  (gen =? lru_gen_from_seq K (max_seq (evictable st))) ||
  (gen =? lru_gen_from_seq K (to_ulong (max_seq (evictable st) - 1))).

Definition added_state (K : config) (p : page_id) (st : state) (front : bool) : state :=
  let pg := mem st p in
  let file := page_is_file_lru K pg in
  let zone := page_zonenum K pg in
  let gen := addition_gen K st pg in
  let st := set_flags st p (addition_new_flags K gen (flags pg)) in
  let st := set_size st gen file zone
              (to_ulong (sizes (evictable st) gen file zone + compound_nr pg)) in
  let st := update_lru_size st
              (if active_window K st gen then LRU_FILE K * file + LRU_ACTIVE K
               else LRU_FILE K * file) zone (compound_nr pg) in
  if front then list_add p st gen file zone else list_add_tail p st gen file zone.

Definition deleted_state (K : config) (p : page_id) (st : state) : state :=
  let pg := mem st p in
  let file := page_is_file_lru K pg in
  let zone := page_zonenum K pg in
  let gen := flags_gen K (flags pg) in
  let active := active_window K st gen in
  let st := set_flags st p (deletion_new_flags K active (flags pg)) in
  let st := set_size st gen file zone
              (to_ulong (sizes (evictable st) gen file zone - compound_nr pg)) in
  let st := update_lru_size st
              (if active then LRU_FILE K * file + LRU_ACTIVE K
               else LRU_FILE K * file) zone (to_int (- compound_nr pg)) in
  list_del p st.

(** The rule relating the two encodings of activity: a page that carries a
    generation has its active flag clear. *)
Definition generation_excludes_active (K : config) (pg : page) : Prop :=
  page_lru_gen K pg <> -1 -> PageActive K pg = false.

(** ** The other helpers of mm_inline.h

    The classic lru lists, the callers of the multigenerational lru and the
    remaining queries.  They need a few more constants of other headers
    (the bit of the lru flag, the number of generations statistics are kept
    for, three members of [enum lru_list]) and have assertions of their
    own. *)

Record more_config : Type := MoreConfig {
  PG_lru : Z;
  NR_STAT_GENS : Z;
  LRU_INACTIVE_ANON : Z;
  LRU_INACTIVE_FILE : Z;
  LRU_UNEVICTABLE : Z
}.

(** mmzone.h numbers the lists from [LRU_BASE], which is 0, as
    [LRU_BASE + LRU_FILE * file + LRU_ACTIVE * active];
    lru_gen_update_size builds its list numbers the same way. *)
Definition lru_lists_ok (K : config) (E : more_config) : bool :=
  (LRU_INACTIVE_ANON E =? 0) && (LRU_INACTIVE_FILE E =? LRU_FILE K).

(** The lru flag is one more page flag: it sits below the counters and is
    none of the flags above. *)
Definition pg_lru_ok (K : config) (E : more_config) : bool :=
  (0 <=? PG_lru E) && (PG_lru E <? LRU_USAGE_PGOFF K) &&
  negb (existsb (Z.eqb (PG_lru E)) (pg_bits K)).

Inductive more_bug : Type :=
| BUG_in (b : bug)               (* an assertion of the functions above *)
| BUG_page_not_lru               (* __clear_page_lru_flags: !PageLRU(page) *)
| BUG_active_and_unevictable     (* page_lru *)
| BUG_tail_page                  (* page_is_active: PageTail(page) *)
| BUG_tracked_unevictable        (* page_is_active: PageUnevictable(page) *)
| BUG_tracked_active             (* page_is_active: PageActive(page) *).

Inductive outcome (A : Type) : Type :=
| Done (a : A)
| Stop (b : more_bug).
Arguments Done {A} a.
Arguments Stop {A} b.

Definition and_then {A B : Type} (c : outcome A) (k : A -> outcome B) : outcome B :=
  match c with
  | Done a => k a
  | Stop b => Stop b
  end.

Notation "x <~ c ;; k" := (and_then c (fun x => k))
  (at level 61, c at next level, right associativity).
Notation "c ;;~ k" := (and_then c (fun _ => k))
  (at level 61, right associativity).

Definition VM_BUG_ON_PAGE (cond : bool) (b : more_bug) : outcome unit :=
  if cond then Stop b else Done tt.

Definition lift {A : Type} (r : result A) : outcome A :=
  match r with
  | Ok a => Done a
  | Bug b => Stop (BUG_in b)
  end.

(** [struct lruvec]: the state above together with the classic lists
    [lruvec->lists[lru]], head first. *)
Record lruvec : Type := Lruvec {
  lruvec_state : state;
  lruvec_lists : Z -> list page_id
}.

Definition upd1 {A : Type} (f : Z -> A) (k : Z) (v : A) : Z -> A :=
  fun k' => if k' =? k then v else f k'.

(** [__clear_bit(nr, &page->flags)]. *)
Definition clear_flag (nr : Z) (p : page_id) (st : state) : state :=
  set_flags st p (Z.land (flags (mem st p)) (not_ulong (BIT nr))).

Section MoreOps.
Variable K : config.
Variable E : more_config.

(** [PageTail] reads page->compound_head, and the lruvec of a page is
    found through its memcg; both are outside this file. *)
Variable PageTail : page_id -> bool.
Variable mem_cgroup_lruvec : page_id -> lrugen.

Definition PageLRU (pg : page) : bool := test_bit (PG_lru E) (flags pg).

(** [int sid_from_seq_or_gen(int seq_or_gen)]: [NR_STAT_GENS] is an
    [unsigned int], so the remainder is taken on unsigned numbers. *)
Definition sid_from_seq_or_gen (seq_or_gen : Z) : Z :=
  to_int (to_uint seq_or_gen mod NR_STAT_GENS E).

Definition __clear_page_lru_flags (p : page_id) (st : state) : outcome state :=
  VM_BUG_ON_PAGE (negb (PageLRU (mem st p))) BUG_page_not_lru ;;~
  let st := clear_flag (PG_lru E) p st in
  if PageActive K (mem st p) && PageUnevictable K (mem st p) then
    Done st
  else
    let st := clear_flag (PG_active K) p st in
    Done (clear_flag (PG_unevictable K) p st).

Definition page_lru (pg : page) : outcome Z :=
  VM_BUG_ON_PAGE (PageActive K pg && PageUnevictable K pg)
                 BUG_active_and_unevictable ;;~
  if PageUnevictable K pg then Done (LRU_UNEVICTABLE E)
  else
    let lru := if negb (page_is_file_lru K pg =? 0)
               then LRU_INACTIVE_FILE E else LRU_INACTIVE_ANON E in
    Done (if PageActive K pg then lru + LRU_ACTIVE K else lru).

(** [page_is_active(page, lruvec)]; [lruvec] may be NULL. *)
Definition page_is_active (p : page_id) (st : state) (lruvec : option lrugen)
  : outcome bool :=
  let pg := mem st p in
  let gen := page_lru_gen K pg in
  VM_BUG_ON_PAGE (PageTail p) BUG_tail_page ;;~
  if gen <? 0 then Done (PageActive K pg)
  else
    match lruvec with
    | Some l =>
        VM_BUG_ON_PAGE (PageUnevictable K pg) BUG_tracked_unevictable ;;~
        VM_BUG_ON_PAGE (PageActive K pg) BUG_tracked_active ;;~
        lift (lru_gen_is_active K (State (mem st) l (lru_size_log st)) gen)
    | None =>
        let l := mem_cgroup_lruvec p in
        lift (lru_gen_is_active K (State (mem st) l (lru_size_log st)) gen)
    end.

(** ** add_page_to_lru_list, add_page_to_lru_list_tail *)

Definition add_page_to_lru_list (p : page_id) (v : lruvec) : outcome lruvec :=
  lru <~ page_lru (mem (lruvec_state v) p) ;;
  r <~ lift (lru_gen_addition K p (lruvec_state v) true) ;;
  let st := snd r in
  if fst r then Done (Lruvec st (lruvec_lists v))
  else
    let st := update_lru_size st lru (page_zonenum K (mem st p))
                              (thp_nr_pages (mem st p)) in
    Done (Lruvec st (upd1 (lruvec_lists v) lru (p :: lruvec_lists v lru))).

Definition add_page_to_lru_list_tail (p : page_id) (v : lruvec) : outcome lruvec :=
  lru <~ page_lru (mem (lruvec_state v) p) ;;
  r <~ lift (lru_gen_addition K p (lruvec_state v) false) ;;
  let st := snd r in
  if fst r then Done (Lruvec st (lruvec_lists v))
  else
    let st := update_lru_size st lru (page_zonenum K (mem st p))
                              (thp_nr_pages (mem st p)) in
    Done (Lruvec st (upd1 (lruvec_lists v) lru (lruvec_lists v lru ++ [p]))).

(** ** del_page_from_lru_list

    [list_del] unlinks the node from whichever list holds it.  The part of
    it that concerns the classic lists is applied here also when the
    [list_del] is the one inside lru_gen_deletion. *)
Definition del_page_from_lru_list (p : page_id) (v : lruvec) : outcome lruvec :=
  r <~ lift (lru_gen_deletion K p (lruvec_state v)) ;;
  let st := snd r in
  let classic := fun lru => unlink p (lruvec_lists v lru) in
  if fst r then Done (Lruvec st classic)
  else
    let st := list_del p st in
    lru <~ page_lru (mem st p) ;;
    Done (Lruvec (update_lru_size st lru (page_zonenum K (mem st p))
                                  (to_int (- thp_nr_pages (mem st p))))
                 classic).

End MoreOps.

(** ** lru_gen_activation

    [struct vm_area_struct] as far as this function reads it: the flags
    word, and whether the mapping is a DAX one, which vma_is_dax finds out
    from the file of the vma. *)
Record vm_area_struct : Type := Vma {
  vm_flags : Z;
  vma_is_dax : bool
}.

Section Activation.
Variable K : config.

(** [VM_LOCKED] and [VM_SPECIAL] are masks of mm.h.  [activate_page] is a
    function of mm/swap.c: what it does to the page and to the lists is up
    to that file, so it is an argument here, free to change the lruvec or
    to stop in an assertion of its own. *)
Variable VM_LOCKED : Z.
Variable VM_SPECIAL : Z.
Variable activate_page : page_id -> lruvec -> outcome lruvec.

Definition lru_gen_activation (lru_gen_enabled : bool) (p : page_id)
           (vma : vm_area_struct) (v : lruvec) : outcome lruvec :=
  if negb lru_gen_enabled then Done v
  else
    let pg := mem (lruvec_state v) p in
    if PageActive K pg || PageUnevictable K pg || vma_is_dax vma ||
       negb (Z.land (vm_flags vma) (Z.lor VM_LOCKED VM_SPECIAL) =? 0)
    then Done v
    else activate_page p v.

End Activation.

(** The rule of [generation_excludes_active], for all pages. *)
Definition excludes_active (K : config) (st : state) : Prop :=
  forall q, generation_excludes_active K (mem st q).

(** The lruvec the two adding callers leave behind once page_lru has
    named the classic list [lru]: the page went to the multigenerational
    lru, or else to that classic list, charged to it. *)
Definition added_lruvec (K : config) (front : bool) (p : page_id) (v : lruvec)
           (lru : Z) : lruvec :=
  let st := lruvec_state v in
  let pg := mem st p in
  if PageUnevictable K pg || negb (enabled (evictable st) (page_is_file_lru K pg))
  then Lruvec (update_lru_size st lru (page_zonenum K pg) (thp_nr_pages pg))
              (upd1 (lruvec_lists v) lru
                    (if front then p :: lruvec_lists v lru
                     else lruvec_lists v lru ++ [p]))
  else Lruvec (added_state K p st front) (lruvec_lists v).

(** ** Sizes, lists and page flags, taken together

    The number of base pages linked in a list, and the agreement the
    multigenerational lru relies on: every page on a list carries the
    generation, type and zone of that list, no list holds a page twice,
    every size is the page count of its list (as an unsigned long), and
    every page that carries a generation is on the list its flags name. *)
Definition nr_pages_on (st : state) (l : list page_id) : Z :=
  fold_right (fun q acc => thp_nr_pages (mem st q) + acc) 0 l.

Record lrugen_consistent (K : config) (st : state) : Prop := {
  listed_pages_match :
    forall g t z q, In q (lists (evictable st) g t z) ->
      0 <= g /\ page_lru_gen K (mem st q) = g /\
      page_is_file_lru K (mem st q) = t /\ page_zonenum K (mem st q) = z;
  lists_hold_once :
    forall g t z, NoDup (lists (evictable st) g t z);
  sizes_count_pages :
    forall g t z, sizes (evictable st) g t z =
                  to_ulong (nr_pages_on st (lists (evictable st) g t z));
  tracked_pages_listed :
    forall q, 0 <= page_lru_gen K (mem st q) ->
      In q (lists (evictable st) (page_lru_gen K (mem st q))
                  (page_is_file_lru K (mem st q)) (page_zonenum K (mem st q)))
}.

(** The remaining constants, for the sample configuration. *)
Definition sample_more_config : more_config :=
  {| PG_lru := 4; NR_STAT_GENS := 7;
     LRU_INACTIVE_ANON := 0; LRU_INACTIVE_FILE := 2; LRU_UNEVICTABLE := 4 |}.

Definition sample_lruvec (w : Z) : lruvec :=
  {| lruvec_state := sample_state w; lruvec_lists := fun _ => [] |}.

(** A file page of generation 5 that has the lru flag. *)
Definition sample_lru_page : lruvec :=
  sample_lruvec (Z.shiftl (5 + 1) (LRU_GEN_PGOFF sample_config)
                 + BIT (PG_lru sample_more_config)).

(** [SetPageActive]. *)
Definition set_flag (nr : Z) (p : page_id) (st : state) : state :=
  set_flags st p (Z.lor (flags (mem st p)) (BIT nr)).

(** An activator for the examples, after the pattern of mm/swap.c: a page
    that has the lru flag and is neither active nor unevictable is taken
    off its list, marked active and put back; any other page is left
    alone.  The masks are those of mm.h on x86-64. *)
Definition sample_activate_page (K : config) (E : more_config) (p : page_id)
           (v : lruvec) : outcome lruvec :=
  let pg := mem (lruvec_state v) p in
  if PageLRU E pg && negb (PageActive K pg) && negb (PageUnevictable K pg) then
    v <~ del_page_from_lru_list K E p v ;;
    add_page_to_lru_list K E p
      (Lruvec (set_flag (PG_active K) p (lruvec_state v)) (lruvec_lists v))
  else Done v.

Definition sample_VM_LOCKED : Z := 8192.
Definition sample_VM_SPECIAL : Z := 16384 + 262144 + 1024 + 268435456.

(** ** Tactics for the layout facts *)

(** The order facts of [config_ok], as hypotheses. *)
Ltac config_facts H :=
  let F := fresh "Hcfg" in
  let D := fresh "Hdistinct" in
  pose proof H as F;
  unfold config_ok in F;
  apply andb_true_iff in F; destruct F as [F D]; clear D;
  cbn [pg_bits forallb] in F;
  repeat rewrite ?andb_true_iff in F;
  repeat rewrite ?Z.leb_le, ?Z.ltb_lt in F;
  decompose [and] F; clear F.

(** The flag numbers are pairwise distinct. *)
Ltac config_distinct H :=
  let F := fresh "Hcfg" in
  let D := fresh "Hdistinct" in
  pose proof H as F;
  unfold config_ok in F;
  apply andb_true_iff in F; destruct F as [F D]; clear F;
  cbn [pg_bits distinctb existsb] in D;
  repeat rewrite ?andb_true_iff, ?orb_false_iff, ?negb_true_iff in D;
  repeat rewrite ?Z.eqb_neq in D;
  decompose [and] D; clear D;
  solve [assumption | apply not_eq_sym; assumption].

(** * Properties *)

(** ** Machine integers and masks, bit by bit *)

Lemma to_ulong_land (z : Z) : to_ulong z = Z.land z (Z.ones 64).
Proof. unfold to_ulong. now rewrite Z.land_ones by lia. Qed.

Lemma to_ulong_small (z : Z) : 0 <= z < 2 ^ 64 -> to_ulong z = z.
Proof. intros H. unfold to_ulong. now apply Z.mod_small. Qed.

Lemma to_ulong_range (z : Z) : 0 <= to_ulong z < 2 ^ 64.
Proof. unfold to_ulong. apply Z.mod_pos_bound. lia. Qed.

Lemma to_int_small (z : Z) : - 2 ^ 31 <= z < 2 ^ 31 -> to_int z = z.
Proof. intros H. unfold to_int. rewrite Z.mod_small; lia. Qed.

Lemma to_uint_small (z : Z) : 0 <= z < 2 ^ 32 -> to_uint z = z.
Proof. intros H. unfold to_uint. now apply Z.mod_small. Qed.

Lemma testbit_to_ulong (z i : Z) :
  Z.testbit (to_ulong z) i = Z.testbit z i && (i <? 64).
Proof.
  rewrite to_ulong_land, Z.land_spec.
  destruct (Z.ltb_spec i 0) as [Hn | Hp].
  - rewrite !Z.testbit_neg_r by lia. reflexivity.
  - rewrite Z.testbit_ones_nonneg by lia. reflexivity.
Qed.

Lemma BIT_pow2 (n : Z) : 0 <= n < 64 -> BIT n = 2 ^ n.
Proof.
  intros H. unfold BIT. rewrite Z.shiftl_1_l. apply to_ulong_small.
  split; [lia | apply Z.pow_lt_mono_r; lia].
Qed.

Lemma testbit_BIT (n i : Z) : 0 <= n < 64 -> Z.testbit (BIT n) i = (i =? n).
Proof.
  intros H. rewrite BIT_pow2 by assumption.
  rewrite Z.pow2_bits_eqb by lia. apply Z.eqb_sym.
Qed.

Lemma land_BIT_zero (w n : Z) :
  0 <= n < 64 -> (Z.land w (BIT n) =? 0) = negb (Z.testbit w n).
Proof.
  intros H. destruct (Z.testbit w n) eqn:E; cbn.
  - apply Z.eqb_neq. intros Hz.
    assert (Hb : Z.testbit (Z.land w (BIT n)) n = false)
      by (rewrite Hz; apply Z.testbit_0_l).
    rewrite Z.land_spec, testbit_BIT, E, Z.eqb_refl in Hb by assumption.
    discriminate.
  - apply Z.eqb_eq. apply Z.bits_inj'. intros i Hi.
    rewrite Z.land_spec, testbit_BIT, Z.testbit_0_l by assumption.
    destruct (Z.eqb_spec i n) as [-> | Hne]; [now rewrite E | apply andb_false_r].
Qed.

Lemma testbit_not_ulong (x i : Z) :
  0 <= i -> Z.testbit (not_ulong x) i = xorb (Z.testbit x i) (i <? 64).
Proof.
  intros H. unfold not_ulong.
  now rewrite Z.lxor_spec, Z.testbit_ones_nonneg by lia.
Qed.

Lemma field_mask_shiftl (w off : Z) :
  0 <= w < 64 -> 0 <= off -> off + w <= 64 ->
  field_mask w off = Z.shiftl (Z.ones w) off.
Proof.
  intros Hw Ho Hs. unfold field_mask.
  rewrite BIT_pow2 by lia.
  assert (Hones : 2 ^ w - 1 = Z.ones w) by (rewrite Z.ones_equiv; lia).
  rewrite Hones.
  assert (Hr : 0 <= Z.ones w < 2 ^ 64).
  { rewrite Z.ones_equiv.
    assert (0 < 2 ^ w) by (apply Z.pow_pos_nonneg; lia).
    assert (2 ^ w < 2 ^ 64) by (apply Z.pow_lt_mono_r; lia). lia. }
  rewrite (to_ulong_small (Z.ones w)) by exact Hr.
  rewrite to_ulong_land. Z.bitblast.
Qed.

Lemma testbit_field_mask (w off i : Z) :
  0 <= w < 64 -> 0 <= off -> off + w <= 64 -> 0 <= i ->
  Z.testbit (field_mask w off) i = (off <=? i) && (i <? off + w).
Proof.
  intros Hw Ho Hs Hi. rewrite field_mask_shiftl by assumption.
  rewrite Z.shiftl_spec by assumption.
  destruct (Z.leb_spec off i) as [Hle | Hlt].
  - rewrite Z.testbit_ones_nonneg by lia. cbn.
    destruct (Z.ltb_spec (i - off) w), (Z.ltb_spec i (off + w)); (reflexivity || lia).
  - rewrite Z.testbit_neg_r by lia. reflexivity.
Qed.

(** The value of a counter: the masked word shifted down is the word
    divided by [2 ^ off], modulo [2 ^ w]. *)
Lemma field_value (f w off : Z) :
  0 <= w < 64 -> 0 <= off -> off + w <= 64 ->
  Z.shiftr (Z.land f (field_mask w off)) off = (f / 2 ^ off) mod 2 ^ w.
Proof.
  intros Hw Ho Hs. rewrite field_mask_shiftl by assumption.
  rewrite <- Z.land_ones, <- Z.shiftr_div_pow2 by lia.
  Z.bitblast.
Qed.

Lemma field_value_range (f w off : Z) :
  0 <= w < 64 -> 0 <= off -> off + w <= 64 ->
  0 <= Z.shiftr (Z.land f (field_mask w off)) off < 2 ^ w.
Proof.
  intros Hw Ho Hs. rewrite field_value by assumption.
  apply Z.mod_pos_bound. apply Z.pow_pos_nonneg; lia.
Qed.

(** A counter depends only on the bits under its mask. *)
Lemma field_value_ext (f g w off : Z) :
  0 <= w < 64 -> 0 <= off -> off + w <= 64 ->
  (forall i, off <= i < off + w -> Z.testbit f i = Z.testbit g i) ->
  Z.shiftr (Z.land f (field_mask w off)) off =
  Z.shiftr (Z.land g (field_mask w off)) off.
Proof.
  intros Hw Ho Hs Hbits. apply Z.bits_inj'. intros i Hi.
  rewrite !Z.shiftr_spec, !Z.land_spec, !testbit_field_mask by lia.
  destruct (Z.ltb_spec (i + off) (off + w)) as [Hin | Hout].
  - rewrite (Hbits (i + off)) by lia. reflexivity.
  - now rewrite !andb_false_r.
Qed.

Lemma field_zero_iff (f w off : Z) :
  0 <= w < 64 -> 0 <= off -> off + w <= 64 ->
  Z.land f (field_mask w off) = 0 <->
  Z.shiftr (Z.land f (field_mask w off)) off = 0.
Proof.
  intros Hw Ho Hs. split; intros H.
  - rewrite H. apply Z.shiftr_0_l.
  - apply Z.bits_inj'. intros i Hi. rewrite Z.testbit_0_l.
    rewrite Z.land_spec, testbit_field_mask by assumption.
    destruct (Z.leb_spec off i) as [Hle | Hlt]; [ | now rewrite andb_false_r].
    destruct (Z.ltb_spec i (off + w)) as [Hin | Hout]; [ | now rewrite andb_false_r].
    assert (Hb : Z.testbit (Z.shiftr (Z.land f (field_mask w off)) off) (i - off) = false)
      by (rewrite H; apply Z.testbit_0_l).
    rewrite Z.shiftr_spec, Z.land_spec, testbit_field_mask in Hb by lia.
    replace (i - off + off) with i in Hb by lia.
    destruct (Z.leb_spec off i), (Z.ltb_spec i (off + w)); try lia.
    now rewrite andb_true_r in Hb |- *.
Qed.

Lemma land_field_mask (f w off : Z) :
  0 <= w < 64 -> 0 <= off -> off + w <= 64 ->
  Z.land f (field_mask w off) =
  Z.shiftr (Z.land f (field_mask w off)) off * 2 ^ off.
Proof.
  intros Hw Ho Hs. rewrite <- Z.shiftl_mul_pow2 by assumption.
  apply Z.bits_inj'. intros i Hi.
  rewrite Z.shiftl_spec by assumption.
  destruct (Z.ltb_spec i off) as [Hlt | Hge].
  - rewrite (Z.testbit_neg_r _ (i - off)) by lia.
    rewrite Z.land_spec, testbit_field_mask by assumption.
    destruct (Z.leb_spec off i); [lia | now rewrite andb_false_r].
  - rewrite Z.shiftr_spec by lia. now replace (i - off + off) with i by lia.
Qed.

Lemma field_mask_value (w off : Z) :
  0 <= w < 64 -> 0 <= off -> off + w <= 64 ->
  field_mask w off = (2 ^ w - 1) * 2 ^ off.
Proof.
  intros Hw Ho Hs. rewrite field_mask_shiftl by assumption.
  rewrite Z.shiftl_mul_pow2 by assumption. now rewrite Z.ones_equiv.
Qed.

(** Writing a value into a counter, then reading the counter back. *)
Lemma field_insert_value (f v w off : Z) :
  0 <= w < 64 -> 0 <= off -> off + w <= 64 -> 0 <= v < 2 ^ w ->
  Z.shiftr (Z.land (Z.lor (Z.land f (not_ulong (field_mask w off))) (v * 2 ^ off))
                   (field_mask w off)) off = v.
Proof.
  intros Hw Ho Hs Hv. rewrite field_value by assumption.
  rewrite <- (Z.mod_small v (2 ^ w)) at 2 by assumption.
  rewrite <- !Z.land_ones, <- Z.shiftr_div_pow2, <- Z.shiftl_mul_pow2 by lia.
  apply Z.bits_inj'. intros i Hi.
  rewrite !Z.land_spec, Z.shiftr_spec, Z.lor_spec, Z.land_spec, testbit_not_ulong,
    testbit_field_mask, Z.shiftl_spec, Z.testbit_ones_nonneg by lia.
  replace (i + off - off) with i by lia.
  destruct (Z.ltb_spec i w) as [Hin | Hout]; [ | now rewrite !andb_false_r].
  destruct (Z.leb_spec off (i + off)), (Z.ltb_spec (i + off) (off + w)),
    (Z.ltb_spec (i + off) 64); try lia.
  cbn. now rewrite andb_false_r.
Qed.

Lemma field_insert_frame (f v w off i : Z) :
  0 <= w < 64 -> 0 <= off -> off + w <= 64 -> 0 <= v < 2 ^ w ->
  0 <= i < 64 -> ~ off <= i < off + w ->
  Z.testbit (Z.lor (Z.land f (not_ulong (field_mask w off))) (v * 2 ^ off)) i =
  Z.testbit f i.
Proof.
  intros Hw Ho Hs Hv Hi Hout.
  rewrite <- Z.shiftl_mul_pow2 by lia.
  rewrite Z.lor_spec, Z.land_spec, testbit_not_ulong, testbit_field_mask by lia.
  destruct (Z.ltb_spec i off) as [Hlo | Hhi].
  - rewrite Z.shiftl_spec_low by lia.
    destruct (Z.leb_spec off i), (Z.ltb_spec i 64); try lia. cbn.
    now rewrite orb_false_r, andb_true_r.
  - rewrite Z.shiftl_spec by lia.
    assert (Hz : Z.testbit v (i - off) = false).
    { destruct (Z.eq_dec v 0) as [-> | Hnz]; [apply Z.testbit_0_l | ].
      apply Z.bits_above_log2; [lia | ].
      apply Z.log2_lt_pow2; [lia | ].
      assert (2 ^ w <= 2 ^ (i - off)) by (apply Z.pow_le_mono_r; lia). lia. }
    rewrite Hz.
    destruct (Z.leb_spec off i), (Z.ltb_spec i (off + w)), (Z.ltb_spec i 64); try lia.
    cbn. now rewrite orb_false_r, andb_true_r.
Qed.

(** ** Tiers *)

Lemma order_base_2_log2_up (n : Z) :
  0 <= n < 2 ^ 64 -> order_base_2 n = Z.log2_up n.
Proof.
  intros H. unfold order_base_2, ilog2. rewrite to_ulong_small by assumption.
  unfold Z.log2_up. destruct (Z.ltb_spec 1 n) as [Hgt | Hle].
  - rewrite (proj2 (Z.compare_lt_iff 1 n)) by assumption.
    unfold Z.succ, Z.pred. reflexivity.
  - destruct (Z.compare_spec 1 n); (reflexivity || lia).
Qed.

(** C2, the claim as written fails: on a usage of 2 the code answers 2,
    whereas the floor of log2 (2 + 1) is 1 (and clamping could only lower
    it further). *)
Lemma lru_tier_from_usage_2_is_not_floor :
  lru_tier_from_usage 2 = 2 /\ Z.log2 (2 + 1) = 1 /\ lru_tier_from_usage 2 <> 1.
Proof. repeat split; (reflexivity || discriminate). Qed.

(** C2, amended: for every usage an [int] can hold without overflowing
    [usage + 1], [lru_tier_from_usage] is the base-2 logarithm of
    [usage + 1] rounded up, i.e. the least tier [t] with
    [usage + 1 <= 2 ^ t]; nothing is clamped.  In particular the tier of 0
    is 0 and the tier of 2 is 2. *)
Theorem lru_tier_from_usage_rounds_up (usage : Z) :
  0 <= usage < 2 ^ 31 - 1 ->
  lru_tier_from_usage usage = Z.log2_up (usage + 1) /\
  usage + 1 <= 2 ^ lru_tier_from_usage usage /\
  (forall t, 0 <= t -> usage + 1 <= 2 ^ t -> lru_tier_from_usage usage <= t) /\
  lru_tier_from_usage 0 = 0 /\ lru_tier_from_usage 2 = 2.
Proof.
  intros H.
  assert (Heq : lru_tier_from_usage usage = Z.log2_up (usage + 1)).
  { unfold lru_tier_from_usage. rewrite (to_int_small (usage + 1)) by lia.
    rewrite order_base_2_log2_up by lia.
    apply to_int_small.
    assert (Hb : Z.log2_up (usage + 1) <= Z.log2_up (2 ^ 31))
      by (apply Z.log2_up_le_mono; lia).
    rewrite Z.log2_up_pow2 in Hb by lia.
    pose proof (Z.log2_up_nonneg (usage + 1)). lia. }
  rewrite Heq. repeat split.
  - destruct (Z.eq_dec usage 0) as [-> | Hne]; [cbn; lia | ].
    apply Z.log2_up_spec. lia.
  - intros t Ht Hle.
    apply Z.log2_up_le_pow2; lia.
Qed.

(** ** The layout, unpacked *)

Section Layout.
Variable K : config.
Hypothesis HK : config_ok K = true.

Lemma active_not_referenced : PG_active K <> PG_referenced K.
Proof. config_distinct HK. Qed.
Lemma active_not_workingset : PG_active K <> PG_workingset K.
Proof. config_distinct HK. Qed.
Lemma swapbacked_not_active : PG_swapbacked K <> PG_active K.
Proof. config_distinct HK. Qed.
Lemma swapbacked_not_referenced : PG_swapbacked K <> PG_referenced K.
Proof. config_distinct HK. Qed.
Lemma swapbacked_not_workingset : PG_swapbacked K <> PG_workingset K.
Proof. config_distinct HK. Qed.
Lemma unevictable_not_active : PG_unevictable K <> PG_active K.
Proof. config_distinct HK. Qed.
Lemma unevictable_not_referenced : PG_unevictable K <> PG_referenced K.
Proof. config_distinct HK. Qed.
Lemma unevictable_not_workingset : PG_unevictable K <> PG_workingset K.
Proof. config_distinct HK. Qed.

Lemma gen_width_pos : 1 <= LRU_GEN_WIDTH K.
Proof.
  config_facts HK.
  destruct (Z.eq_dec (LRU_GEN_WIDTH K) 0) as [E | E]; [ | lia].
  rewrite E in *. change (2 ^ 0) with 1 in *. lia.
Qed.

Lemma testbit_gen_mask (i : Z) :
  0 <= i ->
  Z.testbit (LRU_GEN_MASK K) i =
  (LRU_GEN_PGOFF K <=? i) && (i <? LRU_GEN_PGOFF K + LRU_GEN_WIDTH K).
Proof.
  intros Hi. config_facts HK. apply testbit_field_mask; lia.
Qed.

Lemma testbit_usage_mask (i : Z) :
  0 <= i ->
  Z.testbit (LRU_USAGE_MASK K) i =
  (LRU_USAGE_PGOFF K <=? i) && (i <? LRU_USAGE_PGOFF K + LRU_USAGE_WIDTH K).
Proof.
  intros Hi. config_facts HK. pose proof gen_width_pos.
  apply testbit_field_mask; lia.
Qed.

Lemma testbit_tier_flags (i : Z) :
  Z.testbit (LRU_TIER_FLAGS K) i = (i =? PG_referenced K) || (i =? PG_workingset K).
Proof.
  config_facts HK. pose proof gen_width_pos.
  unfold LRU_TIER_FLAGS. rewrite Z.lor_spec, !testbit_BIT by lia. reflexivity.
Qed.

Lemma flags_gen_value (w : Z) :
  flags_gen K w = (w / 2 ^ LRU_GEN_PGOFF K) mod 2 ^ LRU_GEN_WIDTH K - 1.
Proof.
  config_facts HK. unfold flags_gen, LRU_GEN_MASK.
  pose proof (field_value_range w (LRU_GEN_WIDTH K) (LRU_GEN_PGOFF K)) as Hr.
  rewrite <- field_value by lia.
  set (v := Z.shiftr _ _) in *.
  assert (Hv : 0 <= v < 2 ^ LRU_GEN_WIDTH K) by (apply Hr; lia).
  assert (Hp : 2 ^ LRU_GEN_WIDTH K <= 2 ^ 31) by (apply Z.pow_le_mono_r; lia).
  destruct (Z.eq_dec v 0) as [-> | Hnz]; [reflexivity | ].
  rewrite to_ulong_small by lia. apply to_int_small. lia.
Qed.

Lemma flags_gen_range (w : Z) : -1 <= flags_gen K w < 2 ^ LRU_GEN_WIDTH K - 1.
Proof.
  config_facts HK. rewrite flags_gen_value.
  assert (0 < 2 ^ LRU_GEN_WIDTH K) by (apply Z.pow_pos_nonneg; lia).
  pose proof (Z.mod_pos_bound (w / 2 ^ LRU_GEN_PGOFF K) (2 ^ LRU_GEN_WIDTH K)).
  lia.
Qed.

Lemma gen_width_int : 2 ^ LRU_GEN_WIDTH K <= 2 ^ 31.
Proof. config_facts HK. apply Z.pow_le_mono_r; lia. Qed.

(** The page carries no generation exactly when the masked word is zero. *)
Lemma flags_gen_untracked (w : Z) :
  (Z.land w (LRU_GEN_MASK K) =? 0) = (flags_gen K w =? -1).
Proof.
  config_facts HK.
  pose proof (field_zero_iff w (LRU_GEN_WIDTH K) (LRU_GEN_PGOFF K)) as Hz.
  pose proof (field_value w (LRU_GEN_WIDTH K) (LRU_GEN_PGOFF K)) as Hv.
  rewrite flags_gen_value. fold (LRU_GEN_MASK K) in Hz, Hv.
  rewrite <- Hv by lia.
  destruct (Z.eqb_spec (Z.land w (LRU_GEN_MASK K)) 0) as [E | E];
    symmetry; [apply Z.eqb_eq | apply Z.eqb_neq].
  - apply Hz in E; lia.
  - intros E'. apply E, Hz; lia.
Qed.

Lemma flags_gen_ext (f g : Z) :
  (forall i, LRU_GEN_PGOFF K <= i < LRU_GEN_PGOFF K + LRU_GEN_WIDTH K ->
             Z.testbit f i = Z.testbit g i) ->
  flags_gen K f = flags_gen K g.
Proof.
  intros Hbits. config_facts HK. unfold flags_gen, LRU_GEN_MASK.
  rewrite (field_value_ext f g) by (assumption || lia). reflexivity.
Qed.

Lemma usage_field_ext (f g : Z) :
  (forall i, LRU_USAGE_PGOFF K <= i < LRU_USAGE_PGOFF K + LRU_USAGE_WIDTH K ->
             Z.testbit f i = Z.testbit g i) ->
  usage_field K f = usage_field K g.
Proof.
  intros Hbits. config_facts HK. pose proof gen_width_pos.
  unfold usage_field, LRU_USAGE_MASK.
  apply field_value_ext; (assumption || lia).
Qed.

Lemma zones_mask_ones : ZONES_MASK K = Z.ones (ZONES_WIDTH K).
Proof.
  config_facts HK. pose proof gen_width_pos. unfold ZONES_MASK.
  rewrite BIT_pow2 by lia. rewrite Z.ones_equiv.
  assert (0 < 2 ^ ZONES_WIDTH K) by (apply Z.pow_pos_nonneg; lia).
  assert (2 ^ ZONES_WIDTH K < 2 ^ 64) by (apply Z.pow_lt_mono_r; lia).
  apply to_ulong_small. lia.
Qed.

Lemma page_zonenum_ext (p q : page) :
  (forall i, ZONES_PGSHIFT K <= i < ZONES_PGSHIFT K + ZONES_WIDTH K ->
             Z.testbit (flags p) i = Z.testbit (flags q) i) ->
  page_zonenum K p = page_zonenum K q.
Proof.
  intros Hbits. config_facts HK. pose proof gen_width_pos.
  unfold page_zonenum. rewrite zones_mask_ones.
  apply Z.bits_inj'. intros i Hi.
  rewrite !Z.land_spec, !Z.shiftr_spec, Z.testbit_ones_nonneg by lia.
  destruct (Z.ltb_spec i (ZONES_WIDTH K)) as [Hin | Hout].
  - rewrite (Hbits (i + ZONES_PGSHIFT K)) by lia. reflexivity.
  - now rewrite !andb_false_r.
Qed.

(** *** The word written by lru_gen_addition, bit by bit *)

Lemma testbit_addition_new_flags (gen old i : Z) :
  0 <= gen < MAX_NR_GENS K -> 0 <= i < 64 ->
  Z.testbit (addition_new_flags K gen old) i =
  if (LRU_GEN_PGOFF K <=? i) && (i <? LRU_GEN_PGOFF K + LRU_GEN_WIDTH K)
  then Z.testbit (gen + 1) (i - LRU_GEN_PGOFF K)
  else if i =? PG_active K then false
  else if negb (Z.testbit old (PG_referenced K)) &&
          Z.testbit (Z.lor (LRU_USAGE_MASK K) (LRU_TIER_FLAGS K)) i then false
  else Z.testbit old i.
Proof.
  intros Hg Hi. config_facts HK. pose proof gen_width_pos.
  pose proof gen_width_int as Hbig.
  assert (Hin : forall j, LRU_GEN_WIDTH K <= j -> Z.testbit (gen + 1) j = false).
  { intros j Hj. apply Z.bits_above_log2; [lia | ].
    apply Z.log2_lt_pow2; [lia | ].
    assert (2 ^ LRU_GEN_WIDTH K <= 2 ^ j) by (apply Z.pow_le_mono_r; lia). lia. }
  unfold addition_new_flags.
  rewrite land_BIT_zero by lia.
  rewrite (to_ulong_small (gen + 1)) by lia.
  set (r := Z.testbit old (PG_referenced K)).
  set (ut := Z.lor (LRU_USAGE_MASK K) (LRU_TIER_FLAGS K)).
  assert (Hut : Z.testbit ut i = true -> i < LRU_GEN_PGOFF K /\ i <> PG_active K).
  { unfold ut. rewrite Z.lor_spec, testbit_usage_mask, testbit_tier_flags by (assumption || lia).
    pose proof active_not_referenced. pose proof active_not_workingset.
    intros Hb. apply orb_true_iff in Hb. destruct Hb as [Hb | Hb].
    - apply andb_true_iff in Hb. rewrite Z.leb_le, Z.ltb_lt in Hb. lia.
    - apply orb_true_iff in Hb. rewrite !Z.eqb_eq in Hb. lia. }
  destruct (Z.leb_spec (LRU_GEN_PGOFF K) i) as [Hlo | Hlo]; cbn [andb].
  - assert (Hnut : Z.testbit ut i = false).
    { destruct (Z.testbit ut i); [ | reflexivity]. destruct Hut; [reflexivity | lia]. }
    assert (Hna : (i =? PG_active K) = false) by (apply Z.eqb_neq; lia).
    destruct (Z.ltb_spec i (LRU_GEN_PGOFF K + LRU_GEN_WIDTH K)) as [Hhi | Hhi].
    + destruct r; cbn [negb];
        repeat rewrite ?Z.land_spec, ?Z.lor_spec, ?testbit_not_ulong, ?testbit_to_ulong,
          ?testbit_gen_mask, ?testbit_BIT, ?Z.shiftl_spec by (assumption || lia);
        rewrite ?Hnut, ?Hna;
        destruct (Z.leb_spec (LRU_GEN_PGOFF K) i), (Z.ltb_spec i (LRU_GEN_PGOFF K + LRU_GEN_WIDTH K)),
          (Z.ltb_spec i 64); try lia; cbn;
        rewrite ?andb_false_r, ?andb_true_r; reflexivity.
    + rewrite Hna, Hnut, andb_false_r.
      destruct r; cbn [negb];
        repeat rewrite ?Z.land_spec, ?Z.lor_spec, ?testbit_not_ulong, ?testbit_to_ulong,
          ?testbit_gen_mask, ?testbit_BIT, ?Z.shiftl_spec by (assumption || lia);
        rewrite ?Hnut, ?Hna, (Hin (i - LRU_GEN_PGOFF K)) by lia;
        destruct (Z.leb_spec (LRU_GEN_PGOFF K) i), (Z.ltb_spec i (LRU_GEN_PGOFF K + LRU_GEN_WIDTH K)),
          (Z.ltb_spec i 64); try lia; cbn;
        rewrite ?andb_false_r, ?andb_true_r, ?orb_false_r; reflexivity.
  - assert (Hsh : Z.testbit (Z.shiftl (gen + 1) (LRU_GEN_PGOFF K)) i = false)
      by (apply Z.shiftl_spec_low; lia).
    destruct r; cbn [negb andb];
      repeat rewrite ?Z.land_spec, ?Z.lor_spec, ?testbit_not_ulong, ?testbit_to_ulong,
        ?testbit_gen_mask, ?testbit_BIT by (assumption || lia);
      rewrite ?Hsh;
      destruct (Z.leb_spec (LRU_GEN_PGOFF K) i), (Z.ltb_spec i 64); try lia; cbn;
      destruct (Z.eqb_spec i (PG_active K)); cbn;
      rewrite ?andb_false_r, ?andb_true_r, ?orb_false_r; try reflexivity.
    destruct (Z.testbit ut i); cbn; rewrite ?andb_false_r, ?andb_true_r; reflexivity.
Qed.

(** *** The word written by lru_gen_deletion, bit by bit *)

Lemma testbit_deletion_new_flags (active : bool) (old i : Z) :
  0 <= i < 64 ->
  Z.testbit (deletion_new_flags K active old) i =
  if (LRU_GEN_PGOFF K <=? i) && (i <? LRU_GEN_PGOFF K + LRU_GEN_WIDTH K)
  then false
  else if i =? PG_active K then active || Z.testbit old i
  else Z.testbit old i.
Proof.
  intros Hi. config_facts HK. pose proof gen_width_pos.
  unfold deletion_new_flags.
  destruct active;
    repeat rewrite ?Z.land_spec, ?Z.lor_spec, ?testbit_not_ulong, ?testbit_to_ulong,
      ?testbit_gen_mask, ?testbit_BIT by (assumption || lia);
    destruct (Z.leb_spec (LRU_GEN_PGOFF K) i),
             (Z.ltb_spec i (LRU_GEN_PGOFF K + LRU_GEN_WIDTH K)),
             (Z.ltb_spec i 64), (Z.eqb_spec i (PG_active K)); try lia; cbn;
    rewrite ?andb_false_r, ?andb_true_r, ?orb_false_r, ?orb_true_r; reflexivity.
Qed.

(** *** The word written by page_inc_usage *)

Lemma usage_field_range (w : Z) : 0 <= usage_field K w < 2 ^ LRU_USAGE_WIDTH K.
Proof.
  config_facts HK. pose proof gen_width_pos.
  apply field_value_range; lia.
Qed.

(** The second branch of page_inc_usage stores the incremented counter,
    held at the largest value the field can take. *)
Lemma inc_usage_counter (old : Z) :
  Z.min (LRU_USAGE_MASK K)
        (to_ulong (Z.land old (LRU_USAGE_MASK K) + BIT (LRU_USAGE_PGOFF K))) =
  Z.min (2 ^ LRU_USAGE_WIDTH K - 1) (usage_field K old + 1) * 2 ^ LRU_USAGE_PGOFF K.
Proof.
  config_facts HK. pose proof gen_width_pos.
  pose proof (usage_field_range old) as Hu.
  unfold usage_field, LRU_USAGE_MASK in *.
  set (u := Z.shiftr _ _) in *.
  rewrite (land_field_mask old) by lia. fold u.
  rewrite field_mask_value, BIT_pow2 by lia.
  set (W := 2 ^ LRU_USAGE_WIDTH K) in *. set (P := 2 ^ LRU_USAGE_PGOFF K).
  assert (HP : 0 < P) by (apply Z.pow_pos_nonneg; lia).
  assert (HWP : W * P <= 2 ^ 63).
  { unfold W, P. rewrite <- Z.pow_add_r by lia. apply Z.pow_le_mono_r; lia. }
  replace (u * P + P) with ((u + 1) * P) by lia.
  assert (Hle : (u + 1) * P <= W * P) by (apply Z.mul_le_mono_nonneg_r; lia).
  assert (Hnn : 0 <= (u + 1) * P) by (apply Z.mul_nonneg_nonneg; lia).
  rewrite to_ulong_small by lia.
  destruct (Z.le_ge_cases (W - 1) (u + 1)) as [Hsat | Hinc].
  - rewrite (Z.min_l (W - 1) (u + 1)) by lia.
    apply Z.min_l. apply Z.mul_le_mono_nonneg_r; lia.
  - rewrite (Z.min_r (W - 1) (u + 1)) by lia.
    apply Z.min_r. apply Z.mul_le_mono_nonneg_r; lia.
Qed.

(** *** What the three writes leave alone *)

Lemma usage_tier_bits_low (i : Z) :
  0 <= i ->
  Z.testbit (Z.lor (LRU_USAGE_MASK K) (LRU_TIER_FLAGS K)) i = true ->
  i < LRU_GEN_PGOFF K /\
  (LRU_USAGE_PGOFF K <= i \/ i = PG_referenced K \/ i = PG_workingset K).
Proof.
  intros Hi. config_facts HK.
  rewrite Z.lor_spec, testbit_usage_mask, testbit_tier_flags by assumption.
  intros Hb. apply orb_true_iff in Hb. destruct Hb as [Hb | Hb].
  - apply andb_true_iff in Hb. rewrite Z.leb_le, Z.ltb_lt in Hb. lia.
  - apply orb_true_iff in Hb. rewrite !Z.eqb_eq in Hb. lia.
Qed.

Lemma addition_flags_gen (gen old : Z) :
  0 <= gen < MAX_NR_GENS K -> flags_gen K (addition_new_flags K gen old) = gen.
Proof.
  intros Hg. config_facts HK. pose proof gen_width_pos.
  rewrite (flags_gen_ext _ (Z.shiftl (gen + 1) (LRU_GEN_PGOFF K))).
  - rewrite flags_gen_value, Z.shiftl_mul_pow2 by lia.
    rewrite Z.div_mul by (apply Z.pow_nonzero; lia).
    rewrite Z.mod_small by lia. lia.
  - intros i Hi. rewrite testbit_addition_new_flags by lia.
    rewrite Z.shiftl_spec by lia.
    destruct (Z.leb_spec (LRU_GEN_PGOFF K) i),
             (Z.ltb_spec i (LRU_GEN_PGOFF K + LRU_GEN_WIDTH K)); try lia.
    reflexivity.
Qed.

Lemma addition_clears_active (gen old : Z) :
  0 <= gen < MAX_NR_GENS K ->
  Z.testbit (addition_new_flags K gen old) (PG_active K) = false.
Proof.
  intros Hg. config_facts HK. pose proof gen_width_pos.
  rewrite testbit_addition_new_flags by lia.
  destruct (Z.leb_spec (LRU_GEN_PGOFF K) (PG_active K)); [lia | ].
  cbn. now rewrite Z.eqb_refl.
Qed.

Lemma addition_frame (gen old i : Z) :
  0 <= gen < MAX_NR_GENS K -> 0 <= i < 64 ->
  ~ LRU_GEN_PGOFF K <= i < LRU_GEN_PGOFF K + LRU_GEN_WIDTH K ->
  i <> PG_active K ->
  Z.testbit old (PG_referenced K) = true \/
  Z.testbit (Z.lor (LRU_USAGE_MASK K) (LRU_TIER_FLAGS K)) i = false ->
  Z.testbit (addition_new_flags K gen old) i = Z.testbit old i.
Proof.
  intros Hg Hi Hout Hact Hut.
  rewrite testbit_addition_new_flags by lia.
  destruct (Z.leb_spec (LRU_GEN_PGOFF K) i),
           (Z.ltb_spec i (LRU_GEN_PGOFF K + LRU_GEN_WIDTH K)); try lia; cbn;
    (destruct (Z.eqb_spec i (PG_active K)); [lia | ]);
    destruct Hut as [-> | ->]; cbn; rewrite ?andb_false_r; reflexivity.
Qed.

Lemma addition_keeps_file (gen : Z) (pg : page) :
  0 <= gen < MAX_NR_GENS K ->
  page_is_file_lru K (Page (addition_new_flags K gen (flags pg)) (compound_nr pg)) =
  page_is_file_lru K pg.
Proof.
  intros Hg. config_facts HK. pose proof gen_width_pos.
  pose proof swapbacked_not_active.
  pose proof swapbacked_not_referenced.
  pose proof swapbacked_not_workingset.
  unfold page_is_file_lru, PageSwapBacked, test_bit. cbn [flags].
  rewrite addition_frame; try (assumption || lia). right.
  destruct (Z.testbit _ (PG_swapbacked K)) eqn:E; [ | reflexivity].
  apply usage_tier_bits_low in E; lia.
Qed.

Lemma addition_keeps_zone (gen : Z) (pg : page) :
  0 <= gen < MAX_NR_GENS K ->
  page_zonenum K (Page (addition_new_flags K gen (flags pg)) (compound_nr pg)) =
  page_zonenum K pg.
Proof.
  intros Hg. config_facts HK. pose proof gen_width_pos.
  apply page_zonenum_ext. intros i Hi. cbn [flags].
  pose proof active_not_referenced.
  apply addition_frame; try (assumption || lia). right.
  destruct (Z.testbit _ i) eqn:E; [ | reflexivity].
  apply usage_tier_bits_low in E; lia.
Qed.

Lemma addition_keeps_unevictable (gen old : Z) :
  0 <= gen < MAX_NR_GENS K ->
  Z.testbit (addition_new_flags K gen old) (PG_unevictable K) =
  Z.testbit old (PG_unevictable K).
Proof.
  intros Hg. config_facts HK. pose proof gen_width_pos.
  pose proof unevictable_not_active.
  pose proof unevictable_not_referenced.
  pose proof unevictable_not_workingset.
  apply addition_frame; try (assumption || lia). right.
  destruct (Z.testbit _ (PG_unevictable K)) eqn:E; [ | reflexivity].
  apply usage_tier_bits_low in E; lia.
Qed.

Lemma deletion_flags_gen (a : bool) (old : Z) :
  flags_gen K (deletion_new_flags K a old) = -1.
Proof.
  config_facts HK. pose proof gen_width_pos.
  rewrite (flags_gen_ext _ 0).
  - rewrite flags_gen_value. rewrite Z.div_0_l, Z.mod_0_l; try lia;
      apply Z.pow_nonzero; lia.
  - intros i Hi. rewrite testbit_deletion_new_flags, Z.testbit_0_l by lia.
    destruct (Z.leb_spec (LRU_GEN_PGOFF K) i),
             (Z.ltb_spec i (LRU_GEN_PGOFF K + LRU_GEN_WIDTH K)); try lia.
    reflexivity.
Qed.

Lemma deletion_sets_active (a : bool) (old : Z) :
  Z.testbit (deletion_new_flags K a old) (PG_active K) =
  a || Z.testbit old (PG_active K).
Proof.
  config_facts HK. pose proof gen_width_pos.
  rewrite testbit_deletion_new_flags by lia.
  destruct (Z.leb_spec (LRU_GEN_PGOFF K) (PG_active K)); [lia | ].
  cbn. now rewrite Z.eqb_refl.
Qed.

Lemma deletion_frame (a : bool) (old i : Z) :
  0 <= i < 64 ->
  ~ LRU_GEN_PGOFF K <= i < LRU_GEN_PGOFF K + LRU_GEN_WIDTH K ->
  i <> PG_active K ->
  Z.testbit (deletion_new_flags K a old) i = Z.testbit old i.
Proof.
  intros Hi Hout Hact. rewrite testbit_deletion_new_flags by lia.
  destruct (Z.leb_spec (LRU_GEN_PGOFF K) i),
           (Z.ltb_spec i (LRU_GEN_PGOFF K + LRU_GEN_WIDTH K)); try lia; cbn;
    (destruct (Z.eqb_spec i (PG_active K)); [lia | reflexivity]).
Qed.

Lemma deletion_keeps_file (a : bool) (pg : page) :
  page_is_file_lru K (Page (deletion_new_flags K a (flags pg)) (compound_nr pg)) =
  page_is_file_lru K pg.
Proof.
  config_facts HK. pose proof gen_width_pos.
  pose proof swapbacked_not_active.
  unfold page_is_file_lru, PageSwapBacked, test_bit. cbn [flags].
  rewrite deletion_frame; (reflexivity || lia).
Qed.

Lemma deletion_keeps_zone (a : bool) (pg : page) :
  page_zonenum K (Page (deletion_new_flags K a (flags pg)) (compound_nr pg)) =
  page_zonenum K pg.
Proof.
  config_facts HK. pose proof gen_width_pos.
  apply page_zonenum_ext. intros i Hi. cbn [flags].
  apply deletion_frame; lia.
Qed.

(** ** The operations, case by case *)

Lemma max_nr_gens_int : 1 <= MAX_NR_GENS K < 2 ^ 31.
Proof. config_facts HK. pose proof gen_width_int. lia. Qed.

Lemma lru_gen_from_seq_mod (seq : Z) :
  lru_gen_from_seq K seq = seq mod MAX_NR_GENS K.
Proof.
  pose proof max_nr_gens_int.
  pose proof (Z.mod_pos_bound seq (MAX_NR_GENS K)).
  unfold lru_gen_from_seq. apply to_int_small. lia.
Qed.

Lemma lru_gen_from_seq_range (seq : Z) :
  0 <= lru_gen_from_seq K seq < MAX_NR_GENS K.
Proof.
  pose proof max_nr_gens_int. rewrite lru_gen_from_seq_mod.
  apply Z.mod_pos_bound. lia.
Qed.

Lemma addition_gen_range (st : state) (pg : page) :
  0 <= addition_gen K st pg < MAX_NR_GENS K.
Proof.
  unfold addition_gen.
  destruct (PageActive K pg); [apply lru_gen_from_seq_range | ].
  destruct (_ || _ || _); apply lru_gen_from_seq_range.
Qed.

Lemma gen_check_passes (gen : Z) :
  0 <= gen < MAX_NR_GENS K -> (MAX_NR_GENS K <=? to_uint gen) = false.
Proof.
  intros Hg. pose proof max_nr_gens_int.
  rewrite to_uint_small by lia. apply Z.leb_gt. lia.
Qed.

Lemma lru_gen_is_active_cases (st : state) (gen : Z) :
  0 <= gen < MAX_NR_GENS K ->
  lru_gen_is_active K st gen =
  if max_seq (evictable st) =? 0 then Bug BUG_max_seq_zero
  else Ok (active_window K st gen).
Proof.
  intros Hg. unfold lru_gen_is_active, VM_BUG_ON, bind.
  destruct (max_seq (evictable st) =? 0); [reflexivity | ].
  now rewrite gen_check_passes by assumption.
Qed.

Lemma update_size_from_untracked (p : page_id) (st : state) (gen : Z) :
  0 <= gen < MAX_NR_GENS K ->
  lru_gen_update_size K p st (-1) gen =
  let pg := mem st p in
  let file := page_is_file_lru K pg in
  let zone := page_zonenum K pg in
  if max_seq (evictable st) =? 0 then Bug BUG_max_seq_zero
  else
    Ok (update_lru_size
          (set_size st gen file zone
             (to_ulong (sizes (evictable st) gen file zone + thp_nr_pages pg)))
          (if active_window K st gen then LRU_FILE K * file + LRU_ACTIVE K
           else LRU_FILE K * file)
          zone (thp_nr_pages pg)).
Proof.
  intros Hg. unfold lru_gen_update_size.
  rewrite (gen_check_passes gen) by assumption.
  assert (Hne : (gen =? -1) = false) by (apply Z.eqb_neq; lia).
  assert (Hnn : (0 <=? gen) = true) by (apply Z.leb_le; lia).
  rewrite Hne, Hnn. cbn -[to_ulong Z.mul Z.add].
  rewrite lru_gen_is_active_cases by assumption. cbn -[to_ulong Z.mul Z.add].
  destruct (max_seq (evictable st) =? 0); reflexivity.
Qed.

Lemma update_size_to_untracked (p : page_id) (st : state) (gen : Z) :
  0 <= gen < MAX_NR_GENS K ->
  lru_gen_update_size K p st gen (-1) =
  let pg := mem st p in
  let file := page_is_file_lru K pg in
  let zone := page_zonenum K pg in
  if max_seq (evictable st) =? 0 then Bug BUG_max_seq_zero
  else
    Ok (update_lru_size
          (set_size st gen file zone
             (to_ulong (sizes (evictable st) gen file zone - thp_nr_pages pg)))
          (if active_window K st gen then LRU_FILE K * file + LRU_ACTIVE K
           else LRU_FILE K * file)
          zone (to_int (- thp_nr_pages pg))).
Proof.
  intros Hg. unfold lru_gen_update_size.
  rewrite (gen_check_passes gen) by assumption.
  assert (Hne : (gen =? -1) = false) by (apply Z.eqb_neq; lia).
  assert (Hnn : (0 <=? gen) = true) by (apply Z.leb_le; lia).
  assert (Hlt : (gen <? 0) = false) by (apply Z.ltb_ge; lia).
  rewrite Hne, Hnn, Hlt. cbn -[to_ulong to_int Z.mul Z.add Z.sub Z.opp].
  rewrite lru_gen_is_active_cases by assumption.
  cbn -[to_ulong to_int Z.mul Z.add Z.sub Z.opp].
  destruct (max_seq (evictable st) =? 0); reflexivity.
Qed.

Lemma mem_set_flags_same (st : state) (p : page_id) (w : Z) :
  mem (set_flags st p w) p = Page w (compound_nr (mem st p)).
Proof. cbn. now rewrite Nat.eqb_refl. Qed.

Lemma mem_set_flags_other (st : state) (p q : page_id) (w : Z) :
  q <> p -> mem (set_flags st p w) q = mem st q.
Proof. intros Hne. cbn. now rewrite (proj2 (Nat.eqb_neq q p)) by assumption. Qed.

(** lru_gen_addition, once the page is accepted. *)
Lemma lru_gen_addition_accepted (p : page_id) (st : state) (front : bool) :
  PageUnevictable K (mem st p)
    || negb (enabled (evictable st) (page_is_file_lru K (mem st p))) = false ->
  lru_gen_addition K p st front =
  if negb (flags_gen K (flags (mem st p)) =? -1) then Bug BUG_already_tracked
  else if max_seq (evictable st) =? 0 then Bug BUG_max_seq_zero
  else Ok (true, added_state K p st front).
Proof.
  intros Hacc. unfold lru_gen_addition. rewrite Hacc.
  rewrite flags_gen_untracked.
  unfold VM_BUG_ON.
  destruct (flags_gen K (flags (mem st p)) =? -1); [ | reflexivity].
  cbn [negb bind].
  pose proof (addition_gen_range st (mem st p)) as Hg.
  rewrite update_size_from_untracked by assumption.
  cbv zeta. rewrite mem_set_flags_same.
  rewrite addition_keeps_file, addition_keeps_zone by assumption.
  cbn [evictable set_flags max_seq].
  destruct (max_seq (evictable st) =? 0); [reflexivity | ].
  cbn [bind]. reflexivity.
Qed.

Lemma lru_gen_addition_rejected (p : page_id) (st : state) (front : bool) :
  PageUnevictable K (mem st p)
    || negb (enabled (evictable st) (page_is_file_lru K (mem st p))) = true ->
  lru_gen_addition K p st front = Ok (false, st).
Proof. intros Hrej. unfold lru_gen_addition. now rewrite Hrej. Qed.

(** lru_gen_deletion on a page that carries a generation. *)
Lemma lru_gen_deletion_tracked (p : page_id) (st : state) :
  flags_gen K (flags (mem st p)) <> -1 ->
  lru_gen_deletion K p st =
  if PageActive K (mem st p) then Bug BUG_deleting_active
  else if PageUnevictable K (mem st p) then Bug BUG_deleting_unevictable
  else if max_seq (evictable st) =? 0 then Bug BUG_max_seq_zero
  else if MAX_NR_GENS K <=? flags_gen K (flags (mem st p)) then Bug BUG_gen_too_large
  else Ok (true, deleted_state K p st).
Proof.
  intros Htr. unfold lru_gen_deletion.
  rewrite flags_gen_untracked.
  rewrite (proj2 (Z.eqb_neq _ _)) by assumption.
  unfold VM_BUG_ON.
  destruct (PageActive K (mem st p)); [reflexivity | ].
  destruct (PageUnevictable K (mem st p)); [reflexivity | ].
  cbn [bind].
  pose proof (flags_gen_range (flags (mem st p))) as Hr.
  pose proof gen_width_int.
  set (gen := flags_gen K (flags (mem st p))) in *.
  destruct (Z.leb_spec (MAX_NR_GENS K) gen) as [Hbig | Hsmall].
  - unfold lru_gen_is_active, VM_BUG_ON.
    destruct (max_seq (evictable st) =? 0); [reflexivity | ]. cbn [bind].
    rewrite to_uint_small by lia.
    rewrite (proj2 (Z.leb_le _ _)) by assumption. reflexivity.
  - assert (Hg : 0 <= gen < MAX_NR_GENS K) by lia.
    rewrite lru_gen_is_active_cases by assumption.
    destruct (max_seq (evictable st) =? 0) eqn:Emax; [reflexivity | ]. cbn [bind].
    rewrite update_size_to_untracked by assumption.
    cbv zeta. rewrite mem_set_flags_same.
    rewrite deletion_keeps_file, deletion_keeps_zone.
    cbn [evictable set_flags max_seq]. rewrite Emax. cbn [bind]. reflexivity.
Qed.

Lemma lru_gen_deletion_untracked (p : page_id) (st : state) :
  flags_gen K (flags (mem st p)) = -1 ->
  lru_gen_deletion K p st = Ok (false, st).
Proof.
  intros Hun. unfold lru_gen_deletion.
  rewrite flags_gen_untracked, Hun. reflexivity.
Qed.

(** *** Components of the states left by addition and deletion *)

Lemma mem_added_state (p : page_id) (st : state) (front : bool) :
  mem (added_state K p st front) =
  mem (set_flags st p (addition_new_flags K (addition_gen K st (mem st p))
                                          (flags (mem st p)))).
Proof. unfold added_state. destruct front; reflexivity. Qed.

Lemma mem_deleted_state (p : page_id) (st : state) :
  mem (deleted_state K p st) =
  mem (set_flags st p
         (deletion_new_flags K (active_window K st (flags_gen K (flags (mem st p))))
                             (flags (mem st p)))).
Proof. reflexivity. Qed.

Lemma upd3_same {A : Type} (f : Z -> Z -> Z -> A) (g t z : Z) (v : A) :
  upd3 f g t z v g t z = v.
Proof. unfold upd3. now rewrite !Z.eqb_refl. Qed.

Lemma lists_added_state (p : page_id) (st : state) (front : bool) :
  lists (evictable (added_state K p st front)) =
  upd3 (lists (evictable st))
       (addition_gen K st (mem st p)) (page_is_file_lru K (mem st p))
       (page_zonenum K (mem st p))
       (if front
        then p :: lists (evictable st) (addition_gen K st (mem st p))
                    (page_is_file_lru K (mem st p)) (page_zonenum K (mem st p))
        else lists (evictable st) (addition_gen K st (mem st p))
               (page_is_file_lru K (mem st p)) (page_zonenum K (mem st p)) ++ [p]).
Proof. unfold added_state. destruct front; reflexivity. Qed.

Lemma sizes_added_state (p : page_id) (st : state) (front : bool) :
  sizes (evictable (added_state K p st front)) =
  upd3 (sizes (evictable st))
       (addition_gen K st (mem st p)) (page_is_file_lru K (mem st p))
       (page_zonenum K (mem st p))
       (to_ulong (sizes (evictable st) (addition_gen K st (mem st p))
                    (page_is_file_lru K (mem st p)) (page_zonenum K (mem st p))
                  + compound_nr (mem st p))).
Proof. unfold added_state. destruct front; reflexivity. Qed.

Lemma max_seq_added_state (p : page_id) (st : state) (front : bool) :
  max_seq (evictable (added_state K p st front)) = max_seq (evictable st).
Proof. unfold added_state. destruct front; reflexivity. Qed.

Lemma page_added (p : page_id) (st : state) (front : bool) :
  mem (added_state K p st front) p =
  Page (addition_new_flags K (addition_gen K st (mem st p)) (flags (mem st p)))
       (compound_nr (mem st p)).
Proof. rewrite mem_added_state. apply mem_set_flags_same. Qed.

Lemma page_deleted (p : page_id) (st : state) :
  mem (deleted_state K p st) p =
  Page (deletion_new_flags K (active_window K st (flags_gen K (flags (mem st p))))
                           (flags (mem st p)))
       (compound_nr (mem st p)).
Proof. rewrite mem_deleted_state. apply mem_set_flags_same. Qed.

(** Inverting a call of lru_gen_addition that returned. *)
Lemma lru_gen_addition_returned (p : page_id) (st : state) (front b : bool)
      (st' : state) :
  lru_gen_addition K p st front = Ok (b, st') ->
  (b = false /\ st' = st /\
   PageUnevictable K (mem st p)
     || negb (enabled (evictable st) (page_is_file_lru K (mem st p))) = true) \/
  (b = true /\ st' = added_state K p st front /\
   PageUnevictable K (mem st p)
     || negb (enabled (evictable st) (page_is_file_lru K (mem st p))) = false /\
   flags_gen K (flags (mem st p)) = -1 /\ max_seq (evictable st) <> 0).
Proof.
  intros Hret.
  destruct (PageUnevictable K (mem st p)
              || negb (enabled (evictable st) (page_is_file_lru K (mem st p))))
    eqn:Erej.
  - rewrite lru_gen_addition_rejected in Hret by assumption.
    inversion Hret; subst. now left.
  - rewrite lru_gen_addition_accepted in Hret by assumption.
    destruct (Z.eqb_spec (flags_gen K (flags (mem st p))) (-1)) as [Egen | Egen];
      cbn [negb] in Hret; [ | discriminate].
    destruct (Z.eqb_spec (max_seq (evictable st)) 0) as [Emax | Emax];
      [discriminate | ].
    inversion Hret; subst. right. repeat split; assumption.
Qed.

(** Inverting a call of lru_gen_deletion that returned. *)
Lemma lru_gen_deletion_returned (p : page_id) (st : state) (b : bool) (st' : state) :
  lru_gen_deletion K p st = Ok (b, st') ->
  (b = false /\ st' = st /\ flags_gen K (flags (mem st p)) = -1) \/
  (b = true /\ st' = deleted_state K p st /\
   0 <= flags_gen K (flags (mem st p)) < MAX_NR_GENS K /\
   PageActive K (mem st p) = false /\ PageUnevictable K (mem st p) = false /\
   max_seq (evictable st) <> 0).
Proof.
  intros Hret.
  destruct (Z.eq_dec (flags_gen K (flags (mem st p))) (-1)) as [Egen | Egen].
  - rewrite lru_gen_deletion_untracked in Hret by assumption.
    inversion Hret; subst. now left.
  - rewrite lru_gen_deletion_tracked in Hret by assumption.
    destruct (PageActive K (mem st p)); [discriminate | ].
    destruct (PageUnevictable K (mem st p)); [discriminate | ].
    destruct (Z.eqb_spec (max_seq (evictable st)) 0) as [Emax | Emax];
      [discriminate | ].
    destruct (Z.leb_spec (MAX_NR_GENS K) (flags_gen K (flags (mem st p))));
      [discriminate | ].
    inversion Hret; subst. right.
    pose proof (flags_gen_range (flags (mem st p))).
    repeat split; (assumption || lia).
Qed.

(** *** lru_gen_is_active, inverted *)

Lemma lru_gen_is_active_returned (st : state) (gen : Z) (b : bool) :
  lru_gen_is_active K st gen = Ok b ->
  max_seq (evictable st) <> 0 /\ (MAX_NR_GENS K <=? to_uint gen) = false /\
  b = active_window K st gen.
Proof.
  unfold lru_gen_is_active, VM_BUG_ON, bind. intros Hret.
  destruct (Z.eqb_spec (max_seq (evictable st)) 0); [discriminate | ].
  destruct (MAX_NR_GENS K <=? to_uint gen); [discriminate | ].
  inversion Hret. repeat split; (assumption || reflexivity).
Qed.

Lemma lru_gen_is_active_frame (st1 st2 : state) (gen : Z) :
  max_seq (evictable st1) = max_seq (evictable st2) ->
  lru_gen_is_active K st1 gen = lru_gen_is_active K st2 gen.
Proof. intros Hm. unfold lru_gen_is_active. now rewrite Hm. Qed.

(** *** page_inc_usage, branch by branch *)

Lemma inc_usage_first_touch (old : Z) :
  Z.testbit old (PG_workingset K) = false ->
  inc_usage_new_flags K old = Z.lor old (BIT (PG_workingset K)).
Proof.
  intros Hws. config_facts HK. pose proof gen_width_pos.
  unfold inc_usage_new_flags. rewrite land_BIT_zero by lia. now rewrite Hws.
Qed.

Lemma inc_usage_next_touch (old : Z) :
  Z.testbit old (PG_workingset K) = true ->
  inc_usage_new_flags K old =
  Z.lor (Z.land old (not_ulong (LRU_USAGE_MASK K)))
        (Z.min (2 ^ LRU_USAGE_WIDTH K - 1) (usage_field K old + 1)
         * 2 ^ LRU_USAGE_PGOFF K).
Proof.
  intros Hws. config_facts HK. pose proof gen_width_pos.
  unfold inc_usage_new_flags. rewrite land_BIT_zero by lia. rewrite Hws.
  cbn [negb]. now rewrite inc_usage_counter.
Qed.

Lemma usage_after_inc (old : Z) :
  usage_field K (inc_usage_new_flags K old) =
  if Z.testbit old (PG_workingset K)
  then Z.min (2 ^ LRU_USAGE_WIDTH K - 1) (usage_field K old + 1)
  else usage_field K old.
Proof.
  config_facts HK. pose proof gen_width_pos.
  pose proof (usage_field_range old) as Hu.
  destruct (Z.testbit old (PG_workingset K)) eqn:Hws.
  - rewrite inc_usage_next_touch by assumption.
    unfold usage_field, LRU_USAGE_MASK in *. apply field_insert_value; lia.
  - rewrite inc_usage_first_touch by assumption.
    apply usage_field_ext. intros i Hi.
    rewrite Z.lor_spec, testbit_BIT by lia.
    destruct (Z.eqb_spec i (PG_workingset K)); [lia | apply orb_false_r].
Qed.

Lemma inc_usage_frame (old i : Z) :
  0 <= i < 64 -> i <> PG_workingset K -> Z.testbit (LRU_USAGE_MASK K) i = false ->
  Z.testbit (inc_usage_new_flags K old) i = Z.testbit old i.
Proof.
  intros Hi Hws Hmask. config_facts HK. pose proof gen_width_pos.
  pose proof (usage_field_range old) as Hu.
  rewrite testbit_usage_mask in Hmask by lia.
  destruct (Z.testbit old (PG_workingset K)) eqn:E.
  - rewrite inc_usage_next_touch by assumption.
    unfold usage_field, LRU_USAGE_MASK in *. apply field_insert_frame; lia.
  - rewrite inc_usage_first_touch by assumption.
    rewrite Z.lor_spec, testbit_BIT by lia.
    destruct (Z.eqb_spec i (PG_workingset K)); [lia | apply orb_false_r].
Qed.

Lemma inc_usage_keeps_workingset (old : Z) :
  Z.testbit (inc_usage_new_flags K old) (PG_workingset K) = true.
Proof.
  config_facts HK. pose proof gen_width_pos.
  pose proof (usage_field_range old) as Hu.
  destruct (Z.testbit old (PG_workingset K)) eqn:E.
  - rewrite inc_usage_next_touch by assumption. rewrite <- E.
    unfold usage_field, LRU_USAGE_MASK in *. apply field_insert_frame; lia.
  - rewrite inc_usage_first_touch by assumption.
    rewrite Z.lor_spec, testbit_BIT, Z.eqb_refl by lia. apply orb_true_r.
Qed.

Lemma inc_usage_keeps_gen (old : Z) :
  flags_gen K (inc_usage_new_flags K old) = flags_gen K old.
Proof.
  config_facts HK. pose proof gen_width_pos.
  apply flags_gen_ext. intros i Hi.
  apply inc_usage_frame; try lia.
  rewrite testbit_usage_mask by lia. lia.
Qed.

Lemma inc_usage_keeps_active (old : Z) :
  Z.testbit (inc_usage_new_flags K old) (PG_active K) = Z.testbit old (PG_active K).
Proof.
  config_facts HK. pose proof gen_width_pos.
  pose proof active_not_workingset.
  apply inc_usage_frame; try lia.
  rewrite testbit_usage_mask by lia. lia.
Qed.

Lemma page_after_inc_usage (p : page_id) (st : state) :
  mem (snd (page_inc_usage K true p st)) p =
  Page (inc_usage_new_flags K (flags (mem st p))) (compound_nr (mem st p)).
Proof.
  unfold page_inc_usage. cbn [negb].
  destruct (Z.eqb_spec (flags (mem st p)) (inc_usage_new_flags K (flags (mem st p))))
    as [E | E]; cbn [snd].
  - rewrite <- E. now destruct (mem st p).
  - apply mem_set_flags_same.
Qed.

Lemma other_page_after_inc_usage (en : bool) (p q : page_id) (st : state) :
  q <> p -> mem (snd (page_inc_usage K en p st)) q = mem st q.
Proof.
  intros Hne. unfold page_inc_usage.
  destruct (negb en); [reflexivity | ].
  destruct (_ =? _); cbn [snd]; [reflexivity | now apply mem_set_flags_other].
Qed.

(** *** Pages other than the one operated on *)

Lemma other_page_added (p q : page_id) (st : state) (front : bool) :
  q <> p -> mem (added_state K p st front) q = mem st q.
Proof. intros Hne. rewrite mem_added_state. now apply mem_set_flags_other. Qed.

Lemma other_page_deleted (p q : page_id) (st : state) :
  q <> p -> mem (deleted_state K p st) q = mem st q.
Proof. intros Hne. rewrite mem_deleted_state. now apply mem_set_flags_other. Qed.

(** *** Lists and counters after an addition and a deletion *)

Lemma unlink_absent (p : page_id) (l : list page_id) :
  ~ In p l -> unlink p l = l.
Proof.
  induction l as [ | q l IH]; intros Hnin; [reflexivity | ].
  cbn. destruct (Nat.eqb_spec q p) as [-> | Hne].
  - exfalso. apply Hnin. now left.
  - cbn. fold (unlink p l). rewrite IH; [reflexivity | ].
    intros Hin. apply Hnin. now right.
Qed.

Lemma unlink_cons_same (p : page_id) (l : list page_id) :
  ~ In p l -> unlink p (p :: l) = l.
Proof. intros Hnin. cbn. rewrite Nat.eqb_refl. cbn. now apply unlink_absent. Qed.

Lemma unlink_snoc_same (p : page_id) (l : list page_id) :
  ~ In p l -> unlink p (l ++ [p]) = l.
Proof.
  intros Hnin. unfold unlink. rewrite filter_app. cbn. rewrite Nat.eqb_refl. cbn.
  rewrite app_nil_r. now apply unlink_absent.
Qed.

Lemma upd3_twice {A : Type} (f : Z -> Z -> Z -> A) (g t z : Z) (v : A)
      (g' t' z' : Z) :
  upd3 (upd3 f g t z v) g t z (f g t z) g' t' z' = f g' t' z'.
Proof.
  unfold upd3. destruct ((g' =? g) && (t' =? t) && (z' =? z)) eqn:E; [ | reflexivity].
  apply andb_true_iff in E. destruct E as [E Ez].
  apply andb_true_iff in E. destruct E as [Eg Et].
  apply Z.eqb_eq in Eg, Et, Ez. now subst.
Qed.

Lemma ulong_add_sub (s n : Z) :
  0 <= s < 2 ^ 64 -> to_ulong (to_ulong (s + n) - n) = s.
Proof.
  intros Hs. unfold to_ulong. rewrite Zminus_mod_idemp_l.
  replace (s + n - n) with s by lia. now apply Z.mod_small.
Qed.

Lemma sizes_deleted_state (p : page_id) (st : state) :
  sizes (evictable (deleted_state K p st)) =
  upd3 (sizes (evictable st))
       (flags_gen K (flags (mem st p))) (page_is_file_lru K (mem st p))
       (page_zonenum K (mem st p))
       (to_ulong (sizes (evictable st) (flags_gen K (flags (mem st p)))
                    (page_is_file_lru K (mem st p)) (page_zonenum K (mem st p))
                  - compound_nr (mem st p))).
Proof. reflexivity. Qed.

Lemma lists_deleted_state (p : page_id) (st : state) (g t z : Z) :
  lists (evictable (deleted_state K p st)) g t z =
  unlink p (lists (evictable st) g t z).
Proof. reflexivity. Qed.

(** ** The claims *)

(** C1. For every page accepted by lru_gen_addition the generation written
    into the page, which is also the list the page is linked into, is:
    [max_seq mod MAX_NR_GENS] if the page was active; otherwise
    [(min_seq[type] + 1) mod MAX_NR_GENS] (the [+ 1] in unsigned long
    arithmetic) if the page is anonymous and not in the swap cache, or is
    under reclaim and dirty or under writeback, or is unreferenced and
    workingset; otherwise [min_seq[type] mod MAX_NR_GENS]. *)
Theorem lru_gen_addition_generation (p : page_id) (st st' : state) (front : bool) :
  lru_gen_addition K p st front = Ok (true, st') ->
  let pg := mem st p in
  let type := page_is_file_lru K pg in
  let g :=
    if PageActive K pg then
      max_seq (evictable st) mod MAX_NR_GENS K
    else if ((type =? 0) && negb (PageSwapCache K pg)) ||
            (PageReclaim K pg && (PageDirty K pg || PageWriteback K pg)) ||
            (negb (PageReferenced K pg) && PageWorkingset K pg) then
      to_ulong (min_seq (evictable st) type + 1) mod MAX_NR_GENS K
    else
      min_seq (evictable st) type mod MAX_NR_GENS K in
  page_lru_gen K (mem st' p) = g /\
  In p (lists (evictable st') g type (page_zonenum K pg)).
Proof.
  intros Hret pg type g.
  apply lru_gen_addition_returned in Hret.
  destruct Hret as [(Hb & _) | (_ & -> & _ & _ & _)]; [discriminate | ].
  assert (Hg : addition_gen K st pg = g).
  { unfold addition_gen, g. fold type.
    rewrite !lru_gen_from_seq_mod. reflexivity. }
  split.
  - unfold page_lru_gen. rewrite page_added. cbn [flags]. fold pg. rewrite Hg.
    apply addition_flags_gen. rewrite <- Hg.
    apply addition_gen_range.
  - rewrite lists_added_state. fold pg type. rewrite Hg, upd3_same.
    destruct front; [now left | apply in_or_app; right; now left].
Qed.

(** C3. No call of lru_gen_update_size made by lru_gen_addition or by
    lru_gen_deletion trips the assertion that the old and the new
    generation are not both -1, nor the assertion against a crossing from
    an active to an inactive generation; and when lru_gen_update_size moves
    a page from an inactive generation to an active one, it calls
    update_lru_size twice: minus the page count on the inactive list, then
    plus the page count on the active list. *)
Theorem lru_gen_update_size_assertions :
  (forall p st front,
      lru_gen_addition K p st front <> Bug BUG_both_untracked /\
      lru_gen_addition K p st front <> Bug BUG_active_to_inactive) /\
  (forall p st,
      lru_gen_deletion K p st <> Bug BUG_both_untracked /\
      lru_gen_deletion K p st <> Bug BUG_active_to_inactive) /\
  (forall p st old_gen new_gen,
      0 <= old_gen -> 0 <= new_gen ->
      lru_gen_is_active K st old_gen = Ok false ->
      lru_gen_is_active K st new_gen = Ok true ->
      exists st',
        lru_gen_update_size K p st old_gen new_gen = Ok st' /\
        lru_size_log st' =
        lru_size_log st ++
          [(LRU_FILE K * page_is_file_lru K (mem st p),
            page_zonenum K (mem st p), to_int (- thp_nr_pages (mem st p)));
           (LRU_FILE K * page_is_file_lru K (mem st p) + LRU_ACTIVE K,
            page_zonenum K (mem st p), thp_nr_pages (mem st p))]).
Proof.
  split; [ | split].
  - intros p st front.
    destruct (PageUnevictable K (mem st p)
                || negb (enabled (evictable st) (page_is_file_lru K (mem st p))))
      eqn:Erej.
    + rewrite lru_gen_addition_rejected by assumption. split; discriminate.
    + rewrite lru_gen_addition_accepted by assumption.
      destruct (negb (flags_gen K (flags (mem st p)) =? -1)); [split; discriminate | ].
      destruct (max_seq (evictable st) =? 0); split; discriminate.
  - intros p st.
    destruct (Z.eq_dec (flags_gen K (flags (mem st p))) (-1)) as [Egen | Egen].
    + rewrite lru_gen_deletion_untracked by assumption. split; discriminate.
    + rewrite lru_gen_deletion_tracked by assumption.
      destruct (PageActive K (mem st p)); [split; discriminate | ].
      destruct (PageUnevictable K (mem st p)); [split; discriminate | ].
      destruct (max_seq (evictable st) =? 0); [split; discriminate | ].
      destruct (MAX_NR_GENS K <=? flags_gen K (flags (mem st p))); split; discriminate.
  - intros p st old_gen new_gen Hold Hnew Hao Han.
    pose proof (lru_gen_is_active_returned _ _ _ Hao) as (Hmax & Hro & _).
    pose proof (lru_gen_is_active_returned _ _ _ Han) as (_ & Hrn & _).
    unfold lru_gen_update_size.
    rewrite Hro, Hrn, !andb_false_r.
    assert (Eo : (old_gen =? -1) = false) by (apply Z.eqb_neq; lia).
    assert (Eo0 : (0 <=? old_gen) = true) by (apply Z.leb_le; lia).
    assert (Eo1 : (old_gen <? 0) = false) by (apply Z.ltb_ge; lia).
    assert (En0 : (0 <=? new_gen) = true) by (apply Z.leb_le; lia).
    assert (En1 : (new_gen <? 0) = false) by (apply Z.ltb_ge; lia).
    rewrite Eo, Eo0, Eo1, En0, En1.
    cbn [VM_BUG_ON bind andb].
    set (st1 := set_size (set_size _ _ _ _ _) _ _ _ _).
    rewrite (lru_gen_is_active_frame st1 st old_gen) by reflexivity.
    rewrite (lru_gen_is_active_frame st1 st new_gen) by reflexivity.
    rewrite Hao. cbn [bind]. rewrite Han. cbn [bind].
    set (st2 := update_lru_size (update_lru_size _ _ _ _) _ _ _).
    rewrite (lru_gen_is_active_frame st2 st old_gen) by reflexivity.
    rewrite Hao. cbn [bind VM_BUG_ON].
    exists st2. split; [reflexivity | ].
    unfold st2, st1. cbn [lru_size_log update_lru_size set_size].
    rewrite <- app_assoc. reflexivity.
Qed.

(** C4, the claim as written fails: with the multigenerational lru
    disabled, page_inc_usage on a referenced, inactive page returns false
    and leaves the page as it was, not active. *)
Lemma page_inc_usage_disabled_marks_nothing :
  let st := sample_state (BIT (PG_referenced sample_config)) in
  page_inc_usage sample_config false 0%nat st = (false, st) /\
  PageActive sample_config
    (mem (snd (page_inc_usage sample_config false 0%nat st)) 0%nat) = false.
Proof. split; reflexivity. Qed.

(** C4, amended: with the multigenerational lru disabled, page_inc_usage
    returns true exactly when the active bit of the page is set, and the
    state it returns is the state it was given: the page is not marked
    active by this function, nor changed in any other way. *)
Theorem page_inc_usage_disabled (p : page_id) (st : state) :
  let ret := fst (page_inc_usage K false p st) in
  let st' := snd (page_inc_usage K false p st) in
  (ret = true <-> Z.testbit (flags (mem st p)) (PG_active K) = true) /\
  st' = st /\
  PageActive K (mem st' p) = PageActive K (mem st p).
Proof.
  intros ret st'. unfold ret, st', page_inc_usage. cbn [negb fst snd].
  split; [ | split].
  - unfold PageActive, test_bit. reflexivity.
  - reflexivity.
  - reflexivity.
Qed.

(** C5. If lru_gen_addition accepts a page that is linked in no list of
    the lruvec, then lru_gen_deletion of that page succeeds right after,
    and it leaves every size counter and every list as they were before
    the addition; page_lru_gen of the page is -1 again.  (The counters are
    unsigned long values.)  The two calls of update_lru_size made on the
    way name the same list and zone, with the page count and its
    negation. *)
Theorem lru_gen_addition_then_deletion (p : page_id) (st st1 : state) (front : bool) :
  (forall g t z, ~ In p (lists (evictable st) g t z)) ->
  (forall g t z, 0 <= sizes (evictable st) g t z < 2 ^ 64) ->
  lru_gen_addition K p st front = Ok (true, st1) ->
  exists st2,
    lru_gen_deletion K p st1 = Ok (true, st2) /\
    (forall g t z, sizes (evictable st2) g t z = sizes (evictable st) g t z) /\
    (forall g t z, lists (evictable st2) g t z = lists (evictable st) g t z) /\
    page_lru_gen K (mem st2 p) = -1 /\
    exists lru,
      lru_size_log st2 =
      lru_size_log st ++
        [(lru, page_zonenum K (mem st p), thp_nr_pages (mem st p));
         (lru, page_zonenum K (mem st p), to_int (- thp_nr_pages (mem st p)))].
Proof.
  intros Hfree Hsizes Hadd.
  apply lru_gen_addition_returned in Hadd.
  destruct Hadd as [(Hb & _) | (_ & -> & Hacc & Hun & Hmax)]; [discriminate | ].
  apply orb_false_iff in Hacc. destruct Hacc as [Hev _].
  pose proof (addition_gen_range st (mem st p)) as Hg.
  set (gen := addition_gen K st (mem st p)) in *.
  set (st1 := added_state K p st front).
  assert (Hpg : mem st1 p = Page (addition_new_flags K gen (flags (mem st p)))
                                 (compound_nr (mem st p)))
    by apply page_added.
  assert (Hgen1 : flags_gen K (flags (mem st1 p)) = gen).
  { rewrite Hpg. cbn [flags]. now apply addition_flags_gen. }
  assert (Hfile1 : page_is_file_lru K (mem st1 p) = page_is_file_lru K (mem st p)).
  { rewrite Hpg. now apply addition_keeps_file. }
  assert (Hzone1 : page_zonenum K (mem st1 p) = page_zonenum K (mem st p)).
  { rewrite Hpg. now apply addition_keeps_zone. }
  assert (Hnr1 : compound_nr (mem st1 p) = compound_nr (mem st p))
    by now rewrite Hpg.
  exists (deleted_state K p st1). split; [ | split; [ | split; [ | split]]].
  - rewrite lru_gen_deletion_tracked by (rewrite Hgen1; lia).
    unfold PageActive, PageUnevictable, test_bit. rewrite Hpg. cbn [flags].
    rewrite addition_clears_active by assumption.
    rewrite addition_keeps_unevictable by assumption.
    unfold PageUnevictable, test_bit in Hev. rewrite Hev.
    unfold st1. rewrite max_seq_added_state.
    rewrite (proj2 (Z.eqb_neq _ _)) by assumption.
    rewrite addition_flags_gen by assumption.
    rewrite (proj2 (Z.leb_gt _ _)) by lia. reflexivity.
  - intros g t z. rewrite sizes_deleted_state, Hgen1, Hfile1, Hzone1, Hnr1.
    unfold st1. rewrite sizes_added_state. fold gen.
    rewrite upd3_same, ulong_add_sub by apply Hsizes.
    apply upd3_twice.
  - intros g t z. rewrite lists_deleted_state.
    unfold st1. rewrite lists_added_state. fold gen. unfold upd3.
    destruct ((g =? gen) && (t =? page_is_file_lru K (mem st p))
              && (z =? page_zonenum K (mem st p))) eqn:E.
    + apply andb_true_iff in E. destruct E as [E Ez].
      apply andb_true_iff in E. destruct E as [Eg Et].
      apply Z.eqb_eq in Eg, Et, Ez. subst g t z.
      destruct front; [apply unlink_cons_same | apply unlink_snoc_same];
        apply Hfree.
    + apply unlink_absent, Hfree.
  - unfold page_lru_gen. rewrite page_deleted. cbn [flags].
    apply deletion_flags_gen.
  - exists (if active_window K st gen
            then LRU_FILE K * page_is_file_lru K (mem st p) + LRU_ACTIVE K
            else LRU_FILE K * page_is_file_lru K (mem st p)).
    unfold deleted_state. cbn [lru_size_log list_del update_lru_size set_size set_flags].
    rewrite Hgen1, Hfile1, Hzone1, Hnr1.
    replace (active_window K st1 gen) with (active_window K st gen)
      by (unfold active_window, st1; now rewrite max_seq_added_state).
    unfold st1, added_state. fold gen.
    destruct front; cbn [lru_size_log list_add list_add_tail set_list update_lru_size
                         set_size set_flags evictable];
      rewrite <- app_assoc; reflexivity.
Qed.

(** C6. lru_gen_deletion returns false exactly when the page carries no
    generation, and then returns the state it was given.  When it returns
    true, the page no longer carries a generation and its active flag is
    set exactly if the generation it carried was [max_seq mod MAX_NR_GENS]
    or [(max_seq - 1) mod MAX_NR_GENS], which is what lru_gen_is_active
    answers for that generation in the state before the call. *)
Theorem lru_gen_deletion_outcome (p : page_id) (st : state) :
  0 <= max_seq (evictable st) < 2 ^ 64 ->
  let gen := page_lru_gen K (mem st p) in
  ((exists st', lru_gen_deletion K p st = Ok (false, st')) <-> gen = -1) /\
  (forall st', lru_gen_deletion K p st = Ok (false, st') -> st' = st) /\
  (forall st',
      lru_gen_deletion K p st = Ok (true, st') ->
      page_lru_gen K (mem st' p) = -1 /\
      lru_gen_is_active K st gen = Ok (PageActive K (mem st' p)) /\
      (PageActive K (mem st' p) = true <->
       gen = max_seq (evictable st) mod MAX_NR_GENS K \/
       gen = (max_seq (evictable st) - 1) mod MAX_NR_GENS K)).
Proof.
  intros Hmax gen. unfold page_lru_gen in gen. split; [split | split].
  - intros [st' Hret]. apply lru_gen_deletion_returned in Hret.
    destruct Hret as [(_ & _ & Hun) | (Hb & _)]; [exact Hun | discriminate].
  - intros Hun. exists st. now apply lru_gen_deletion_untracked.
  - intros st' Hret. apply lru_gen_deletion_returned in Hret.
    destruct Hret as [(_ & Hst & _) | (Hb & _)]; [exact Hst | discriminate].
  - intros st' Hret. apply lru_gen_deletion_returned in Hret.
    destruct Hret as [(Hb & _) | (_ & -> & Hg & Hact & _ & Hm)]; [discriminate | ].
    fold gen in Hg.
    assert (Hnew : PageActive K (mem (deleted_state K p st) p) = active_window K st gen).
    { rewrite page_deleted. unfold PageActive, test_bit. cbn [flags].
      rewrite deletion_sets_active. fold gen.
      unfold PageActive, test_bit in Hact. rewrite Hact. apply orb_false_r. }
    split; [ | split].
    + unfold page_lru_gen. rewrite page_deleted. cbn [flags].
      apply deletion_flags_gen.
    + rewrite lru_gen_is_active_cases by assumption.
      rewrite (proj2 (Z.eqb_neq _ _)) by assumption. now rewrite Hnew.
    + rewrite Hnew. unfold active_window.
      rewrite !lru_gen_from_seq_mod, to_ulong_small by lia.
      rewrite orb_true_iff, !Z.eqb_eq. reflexivity.
Qed.

(** C7. With the multigenerational lru enabled, page_inc_usage always
    returns true; on a page whose workingset bit is clear it sets that bit
    and nothing else; on a page whose workingset bit is set it stores the
    usage counter plus one, held at the largest value the counter field can
    take, and leaves the bits outside the counter alone (bits 0 to 63 of
    the word).  The stored counter never exceeds that largest value. *)
Theorem page_inc_usage_enabled (p : page_id) (st : state) :
  let old_flags := flags (mem st p) in
  let new_flags := flags (mem (snd (page_inc_usage K true p st)) p) in
  let usage_max := 2 ^ LRU_USAGE_WIDTH K - 1 in
  fst (page_inc_usage K true p st) = true /\
  usage_field K new_flags <= usage_max /\
  (PageWorkingset K (mem st p) = false ->
   new_flags = Z.lor old_flags (BIT (PG_workingset K)) /\
   Z.testbit new_flags (PG_workingset K) = true /\
   usage_field K new_flags = usage_field K old_flags) /\
  (PageWorkingset K (mem st p) = true ->
   usage_field K new_flags = Z.min (usage_field K old_flags + 1) usage_max /\
   forall i, 0 <= i < 64 -> Z.testbit (LRU_USAGE_MASK K) i = false ->
             Z.testbit new_flags i = Z.testbit old_flags i).
Proof.
  intros old_flags new_flags usage_max.
  pose proof (usage_field_range new_flags) as Hr.
  assert (Hnew : new_flags = inc_usage_new_flags K old_flags).
  { unfold new_flags. now rewrite page_after_inc_usage. }
  split; [ | split; [ | split]].
  - unfold page_inc_usage. cbn [negb]. now destruct (_ =? _).
  - unfold usage_max. lia.
  - unfold PageWorkingset, test_bit. fold old_flags. intros Hws.
    rewrite Hnew. split; [ | split].
    + now apply inc_usage_first_touch.
    + apply inc_usage_keeps_workingset.
    + rewrite usage_after_inc. now rewrite Hws.
  - unfold PageWorkingset, test_bit. fold old_flags. intros Hws.
    rewrite Hnew. split.
    + rewrite usage_after_inc, Hws. apply Z.min_comm.
    + intros i Hi Hmask.
      destruct (Z.eq_dec i (PG_workingset K)) as [-> | Hne].
      * now rewrite inc_usage_keeps_workingset.
      * now apply inc_usage_frame.
Qed.

(** C8, the claim as written fails: a file page that has the workingset
    flag but not the referenced flag is accepted by lru_gen_addition, and
    the word written has the workingset flag clear.  That flag is no bit of
    the generation counter or of the usage counter and is not the active
    flag, so it is one of the bits the claim calls preserved. *)
Lemma lru_gen_addition_clears_workingset :
  let ws := PG_workingset sample_config in
  let st := sample_state (BIT ws) in
  let st' := added_state sample_config 0%nat st true in
  lru_gen_addition sample_config 0%nat st true = Ok (true, st') /\
  Z.testbit (LRU_GEN_MASK sample_config) ws = false /\
  Z.testbit (LRU_USAGE_MASK sample_config) ws = false /\
  ws <> PG_active sample_config /\
  Z.testbit (flags (mem st 0%nat)) (PG_referenced sample_config) = false /\
  Z.testbit (flags (mem st 0%nat)) ws = true /\
  Z.testbit (flags (mem st' 0%nat)) ws = false.
Proof. cbv zeta. repeat split; try reflexivity. discriminate. Qed.

(** C8, amended: the word lru_gen_addition writes differs from the word it
    read only as follows.  The generation counter holds the chosen
    generation plus one, and the active bit is clear.  Exactly when the
    referenced bit was clear in the word read, the bits of the usage
    counter are zero and the workingset bit is clear too; when it was set,
    the usage counter and the workingset bit are as they were.  Every other
    bit of the word, the referenced bit among them, is unchanged. *)
Theorem lru_gen_addition_write (p : page_id) (st st' : state) (front : bool) :
  lru_gen_addition K p st front = Ok (true, st') ->
  let old_flags := flags (mem st p) in
  let new_flags := flags (mem st' p) in
  let referenced := Z.testbit old_flags (PG_referenced K) in
  flags_gen K new_flags = addition_gen K st (mem st p) /\
  Z.testbit new_flags (PG_active K) = false /\
  (forall i, 0 <= i < 64 -> Z.testbit (LRU_USAGE_MASK K) i = true ->
             Z.testbit new_flags i = referenced && Z.testbit old_flags i) /\
  Z.testbit new_flags (PG_workingset K) =
    referenced && Z.testbit old_flags (PG_workingset K) /\
  (forall i, 0 <= i < 64 ->
             Z.testbit (LRU_GEN_MASK K) i = false -> i <> PG_active K ->
             Z.testbit (LRU_USAGE_MASK K) i = false -> i <> PG_workingset K ->
             Z.testbit new_flags i = Z.testbit old_flags i).
Proof.
  intros Hret old_flags new_flags referenced.
  apply lru_gen_addition_returned in Hret.
  destruct Hret as [(Hb & _) | (_ & -> & _ & _ & _)]; [discriminate | ].
  pose proof (addition_gen_range st (mem st p)) as Hg.
  pose proof active_not_workingset as Haw.
  config_facts HK. pose proof gen_width_pos.
  unfold new_flags. rewrite page_added. cbn [flags]. fold old_flags.
  split; [ | split; [ | split; [ | split]]].
  - now apply addition_flags_gen.
  - now apply addition_clears_active.
  - intros i Hi Hmask.
    rewrite testbit_addition_new_flags by assumption.
    rewrite Z.lor_spec, Hmask. fold referenced.
    rewrite testbit_usage_mask in Hmask by lia.
    apply andb_true_iff in Hmask. rewrite Z.leb_le, Z.ltb_lt in Hmask.
    rewrite (proj2 (Z.leb_gt (LRU_GEN_PGOFF K) i)) by lia.
    cbn [andb orb]. rewrite (proj2 (Z.eqb_neq i (PG_active K))) by lia.
    now destruct referenced.
  - rewrite testbit_addition_new_flags by (assumption || lia).
    rewrite Z.lor_spec, testbit_tier_flags, Z.eqb_refl, !orb_true_r.
    fold referenced.
    rewrite (proj2 (Z.leb_gt (LRU_GEN_PGOFF K) (PG_workingset K))) by lia.
    cbn [andb]. rewrite (proj2 (Z.eqb_neq (PG_workingset K) (PG_active K))) by lia.
    now destruct referenced.
  - intros i Hi Hmask Hact Husage Hws.
    rewrite testbit_gen_mask in Hmask by lia.
    rewrite testbit_addition_new_flags by assumption.
    rewrite Hmask, (proj2 (Z.eqb_neq _ _)) by assumption.
    rewrite Z.lor_spec, Husage, testbit_tier_flags.
    rewrite (proj2 (Z.eqb_neq i (PG_workingset K))) by assumption.
    rewrite orb_false_r. cbn [orb]. fold referenced.
    destruct (Z.eqb_spec i (PG_referenced K)) as [-> | _].
    + fold referenced. now destruct referenced.
    + now rewrite andb_false_r.
Qed.

(** C9. lru_gen_addition returns false exactly when the page is
    unevictable or the multigenerational lru is disabled for its type, and
    then the state it returns is the state it was given: no page flag, no
    size and no list has changed. *)
Theorem lru_gen_addition_refusal (p : page_id) (st : state) (front : bool) :
  let refused :=
    PageUnevictable K (mem st p)
      || negb (enabled (evictable st) (page_is_file_lru K (mem st p))) in
  ((exists st', lru_gen_addition K p st front = Ok (false, st')) <->
   refused = true) /\
  (forall st', lru_gen_addition K p st front = Ok (false, st') -> st' = st).
Proof.
  intros refused. split; [split | ].
  - intros [st' Hret]. apply lru_gen_addition_returned in Hret.
    destruct Hret as [(_ & _ & Hrej) | (Hb & _)]; [exact Hrej | discriminate].
  - intros Hrej. exists st. now apply lru_gen_addition_rejected.
  - intros st' Hret. apply lru_gen_addition_returned in Hret.
    destruct Hret as [(_ & Hst & _) | (Hb & _)]; [exact Hst | discriminate].
Qed.

End Layout.

(** ** The operations on the sample configuration *)

(** The tiers of the first usage levels. *)
Example lru_tier_from_usage_first_levels :
  map lru_tier_from_usage [0; 1; 2; 3; 4; 5; 6; 7; 8] = [0; 1; 2; 2; 3; 3; 3; 3; 4].
Proof. reflexivity. Qed.

(** An active file page goes to the youngest generation, 5 of window 3..5;
    the size of that generation grows by one page and the active file list
    is charged. *)
Example addition_of_an_active_page :
  let st := sample_state (BIT (PG_active sample_config)) in
  let st' := added_state sample_config 0%nat st true in
  lru_gen_addition sample_config 0%nat st true = Ok (true, st') /\
  page_lru_gen sample_config (mem st' 0%nat) = 5 /\
  sizes (evictable st') 5 1 0 = 1 /\
  lists (evictable st') 5 1 0 = [0%nat] /\
  lru_size_log st' = [(3, 0, 1)] /\
  lru_gen_is_active sample_config st' 5 = Ok true.
Proof. repeat split. Qed.

(** Five accesses through a file descriptor: the first sets the workingset
    bit, the next three count up, the fifth finds the counter full. *)
Example five_usage_increments :
  let touched n := Nat.iter n (inc_usage_new_flags sample_config) 0 in
  map (fun n => (Z.testbit (touched n) (PG_workingset sample_config),
                 usage_field sample_config (touched n)))
      [0; 1; 2; 3; 4; 5]%nat =
  [(false, 0); (true, 0); (true, 1); (true, 2); (true, 3); (true, 3)].
Proof. reflexivity. Qed.

(** A second addition of a page that already carries a generation stops in
    the assertion of lru_gen_addition. *)
Example addition_of_a_tracked_page :
  lru_gen_addition sample_config 0%nat sample_tracked_state true
  = Bug BUG_already_tracked.
Proof. reflexivity. Qed.

(** With [max_seq] zero the assertion of lru_gen_is_active fires. *)
Example addition_at_max_seq_zero :
  let st := State (fun _ => Page 0 1)
                  (Lrugen 0 (fun _ => 0) (fun _ _ _ => 0) (fun _ _ _ => [])
                          (fun _ => true)) [] in
  lru_gen_addition sample_config 0%nat st true = Bug BUG_max_seq_zero.
Proof. reflexivity. Qed.

(** ** The statements above, at concrete inputs *)

Lemma lru_tier_from_usage_rounds_up_witness :
  lru_tier_from_usage 5 = Z.log2_up (5 + 1) /\
  5 + 1 <= 2 ^ lru_tier_from_usage 5 /\
  (forall t, 0 <= t -> 5 + 1 <= 2 ^ t -> lru_tier_from_usage 5 <= t) /\
  lru_tier_from_usage 0 = 0 /\ lru_tier_from_usage 2 = 2.
Proof. apply (lru_tier_from_usage_rounds_up 5). lia. Defined.

Lemma lru_gen_addition_generation_witness :
  config_ok sample_config = true /\
  lru_gen_addition sample_config 0%nat sample_anon_state true =
    Ok (true, added_state sample_config 0%nat sample_anon_state true) /\
  page_lru_gen sample_config
    (mem (added_state sample_config 0%nat sample_anon_state true) 0%nat) = 4 /\
  In 0%nat (lists (evictable (added_state sample_config 0%nat sample_anon_state true))
                  4 0 0).
Proof.
  split; [reflexivity | split; [reflexivity | ]].
  exact (lru_gen_addition_generation sample_config eq_refl 0%nat
           sample_anon_state _ true eq_refl).
Defined.

Lemma lru_gen_update_size_assertions_witness :
  config_ok sample_config = true /\
  lru_gen_addition sample_config 0%nat sample_anon_state true
    <> Bug BUG_both_untracked /\
  lru_gen_deletion sample_config 0%nat sample_tracked_state
    <> Bug BUG_active_to_inactive /\
  lru_gen_is_active sample_config sample_tracked_state 3 = Ok false /\
  lru_gen_is_active sample_config sample_tracked_state 5 = Ok true /\
  exists st',
    lru_gen_update_size sample_config 0%nat sample_tracked_state 3 5 = Ok st' /\
    lru_size_log st' = [(2, 0, -1); (3, 0, 1)].
Proof.
  destruct (lru_gen_update_size_assertions sample_config eq_refl)
    as (Hadd & Hdel & Hcross).
  split; [reflexivity | ].
  split; [apply Hadd | ].
  split; [apply Hdel | ].
  split; [reflexivity | ].
  split; [reflexivity | ].
  apply (Hcross 0%nat sample_tracked_state 3 5); (lia || reflexivity).
Defined.

Lemma lru_gen_addition_then_deletion_witness :
  config_ok sample_config = true /\
  lru_gen_addition sample_config 0%nat sample_anon_state true =
    Ok (true, added_state sample_config 0%nat sample_anon_state true) /\
  exists st2,
    lru_gen_deletion sample_config 0%nat
      (added_state sample_config 0%nat sample_anon_state true) = Ok (true, st2) /\
    (forall g t z, sizes (evictable st2) g t z = sizes (evictable sample_anon_state) g t z) /\
    (forall g t z, lists (evictable st2) g t z = lists (evictable sample_anon_state) g t z) /\
    page_lru_gen sample_config (mem st2 0%nat) = -1.
Proof.
  split; [reflexivity | split; [reflexivity | ]].
  destruct (lru_gen_addition_then_deletion sample_config eq_refl 0%nat
              sample_anon_state
              (added_state sample_config 0%nat sample_anon_state true) true)
    as (st2 & Hdel & Hsizes & Hlists & Hgen & _).
  - intros g t z Hin. exact Hin.
  - intros g t z. cbn. lia.
  - reflexivity.
  - exists st2. repeat split; assumption.
Defined.

Lemma lru_gen_deletion_outcome_witness :
  config_ok sample_config = true /\
  0 <= max_seq (evictable sample_tracked_state) < 2 ^ 64 /\
  lru_gen_deletion sample_config 0%nat sample_tracked_state =
    Ok (true, deleted_state sample_config 0%nat sample_tracked_state) /\
  page_lru_gen sample_config
    (mem (deleted_state sample_config 0%nat sample_tracked_state) 0%nat) = -1 /\
  PageActive sample_config
    (mem (deleted_state sample_config 0%nat sample_tracked_state) 0%nat) = true.
Proof.
  assert (Hmax : 0 <= max_seq (evictable sample_tracked_state) < 2 ^ 64)
    by (cbn; lia).
  destruct (lru_gen_deletion_outcome sample_config eq_refl 0%nat
              sample_tracked_state Hmax) as (_ & _ & Hdone).
  destruct (Hdone _ eq_refl) as (Hgen & _ & Hact).
  split; [reflexivity | ].
  split; [exact Hmax | ].
  split; [reflexivity | ].
  split; [exact Hgen | ].
  apply Hact. left. reflexivity.
Defined.

Lemma page_inc_usage_enabled_witness :
  config_ok sample_config = true /\
  fst (page_inc_usage sample_config true 0%nat sample_anon_state) = true /\
  usage_field sample_config
    (flags (mem (snd (page_inc_usage sample_config true 0%nat sample_anon_state)) 0%nat))
  <= 2 ^ LRU_USAGE_WIDTH sample_config - 1.
Proof.
  destruct (page_inc_usage_enabled sample_config eq_refl 0%nat sample_anon_state)
    as (Hret & Hmax & _).
  split; [reflexivity | split; [exact Hret | exact Hmax]].
Defined.

Lemma lru_gen_addition_write_witness :
  let K := sample_config in
  let w := BIT (PG_workingset K) + BIT (PG_dirty K) + BIT (PG_swapbacked K)
           + Z.shiftl 3 (LRU_USAGE_PGOFF K) + Z.shiftl 1 (ZONES_PGSHIFT K) in
  let st := sample_state w in
  let st' := added_state K 0%nat st true in
  let new_flags := flags (mem st' 0%nat) in
  config_ok K = true /\
  lru_gen_addition K 0%nat st true = Ok (true, st') /\
  Z.testbit w (PG_referenced K) = false /\
  flags_gen K new_flags = 4 /\
  Z.testbit new_flags (PG_active K) = false /\
  Z.testbit new_flags (LRU_USAGE_PGOFF K) = false /\
  Z.testbit new_flags (LRU_USAGE_PGOFF K + 1) = false /\
  Z.testbit new_flags (PG_workingset K) = false /\
  Z.testbit new_flags (PG_dirty K) = true /\
  Z.testbit new_flags (PG_swapbacked K) = true /\
  Z.testbit new_flags (ZONES_PGSHIFT K) = true /\
  Z.testbit new_flags 0 = false.
Proof.
  intros K w st st' new_flags.
  destruct (lru_gen_addition_write K eq_refl 0%nat st st' true eq_refl)
    as (Hgen & Hact & Husage & Hws & Hframe).
  split; [reflexivity | ].
  split; [reflexivity | ].
  split; [reflexivity | ].
  split; [exact Hgen | ].
  split; [exact Hact | ].
  split; [exact (Husage (LRU_USAGE_PGOFF K) ltac:(cbn; lia) eq_refl) | ].
  split; [exact (Husage (LRU_USAGE_PGOFF K + 1) ltac:(cbn; lia) eq_refl) | ].
  split; [exact Hws | ].
  split; [apply (Hframe (PG_dirty K)); (cbn; lia) || reflexivity || discriminate | ].
  split; [apply (Hframe (PG_swapbacked K)); (cbn; lia) || reflexivity || discriminate | ].
  split; [apply (Hframe (ZONES_PGSHIFT K)); (cbn; lia) || reflexivity || discriminate | ].
  apply (Hframe 0); (cbn; lia) || reflexivity || discriminate.
Defined.

Lemma lru_gen_addition_refusal_witness :
  config_ok sample_config = true /\
  ((exists st', lru_gen_addition sample_config 0%nat sample_unevictable_state true
                = Ok (false, st')) <->
   PageUnevictable sample_config (mem sample_unevictable_state 0%nat)
     || negb (enabled (evictable sample_unevictable_state)
                (page_is_file_lru sample_config (mem sample_unevictable_state 0%nat)))
   = true) /\
  (forall st', lru_gen_addition sample_config 0%nat sample_unevictable_state true
               = Ok (false, st') -> st' = sample_unevictable_state).
Proof.
  split; [reflexivity | ].
  exact (lru_gen_addition_refusal sample_config eq_refl 0%nat
           sample_unevictable_state true).
Defined.

(** * Further properties of the file *)

(** ** Tiers, beyond the first levels *)

Lemma lru_tier_from_usage_log2_up (usage : Z) :
  0 <= usage < 2 ^ 31 - 1 -> lru_tier_from_usage usage = Z.log2_up (usage + 1).
Proof.
  intros H. unfold lru_tier_from_usage.
  rewrite (to_int_small (usage + 1)) by lia.
  rewrite order_base_2_log2_up by lia.
  apply to_int_small.
  assert (Hb : Z.log2_up (usage + 1) <= Z.log2_up (2 ^ 31))
    by (apply Z.log2_up_le_mono; lia).
  rewrite Z.log2_up_pow2 in Hb by lia.
  pose proof (Z.log2_up_nonneg (usage + 1)). lia.
Qed.

(** X1. lru_tier_from_usage never decreases when the usage grows. *)
Theorem lru_tier_from_usage_monotone (a b : Z) :
  0 <= a -> a <= b -> b < 2 ^ 31 - 1 ->
  lru_tier_from_usage a <= lru_tier_from_usage b.
Proof.
  intros Ha Hab Hb. rewrite !lru_tier_from_usage_log2_up by lia.
  apply Z.log2_up_le_mono. lia.
Qed.

Lemma lru_tier_from_usage_pow2 (w : Z) :
  0 <= w <= 30 -> lru_tier_from_usage (2 ^ w) = w + 1.
Proof.
  intros Hw.
  assert (Hp : 1 <= 2 ^ w <= 2 ^ 30).
  { split; [ | apply Z.pow_le_mono_r; lia].
    assert (0 < 2 ^ w) by (apply Z.pow_pos_nonneg; lia). lia. }
  rewrite lru_tier_from_usage_log2_up by lia.
  apply Z.le_antisymm.
  - apply Z.log2_up_le_pow2; [lia | ].
    rewrite Z.pow_add_r, Z.pow_1_r by lia. lia.
  - destruct (Z.le_gt_cases (w + 1) (Z.log2_up (2 ^ w + 1))) as [Hle | Hgt];
      [exact Hle | exfalso].
    pose proof (Z.log2_up_nonneg (2 ^ w + 1)) as Hnn.
    assert (Hspec : 2 ^ w + 1 <= 2 ^ Z.log2_up (2 ^ w + 1))
      by (apply Z.log2_up_spec; lia).
    assert (Hmono : 2 ^ Z.log2_up (2 ^ w + 1) <= 2 ^ w)
      by (apply Z.pow_le_mono_r; lia).
    lia.
Qed.

Section Usage.
Variable K : config.
Hypothesis HK : config_ok K = true.

Lemma page_tier_usage_value (pg : page) :
  LRU_USAGE_WIDTH K <= 30 ->
  page_tier_usage K pg =
  if PageWorkingset K pg then usage_field K (flags pg) + 1 else 0.
Proof.
  intros Hw. config_facts HK. pose proof (gen_width_pos K HK).
  pose proof (usage_field_range K HK (flags pg)) as Hu.
  assert (Hp : 2 ^ LRU_USAGE_WIDTH K <= 2 ^ 30) by (apply Z.pow_le_mono_r; lia).
  unfold page_tier_usage, PageWorkingset, test_bit.
  rewrite land_BIT_zero, negb_involutive by lia.
  destruct (Z.testbit (flags pg) (PG_workingset K)); [ | reflexivity].
  rewrite to_ulong_small by lia. apply to_int_small. lia.
Qed.

(** X2. The usage read from any page lies between 0 and
    [2 ^ LRU_USAGE_WIDTH], and the tier computed from it is at most
    [LRU_USAGE_WIDTH + 1]: no clamp is needed on the way from the page
    flags to the tier. *)
Theorem page_tier_bounded (pg : page) :
  LRU_USAGE_WIDTH K <= 30 ->
  0 <= page_tier_usage K pg <= 2 ^ LRU_USAGE_WIDTH K /\
  0 <= lru_tier_from_usage (page_tier_usage K pg) <= LRU_USAGE_WIDTH K + 1.
Proof.
  intros Hw. config_facts HK.
  pose proof (usage_field_range K HK (flags pg)) as Hu.
  assert (Hp : 2 ^ LRU_USAGE_WIDTH K <= 2 ^ 30) by (apply Z.pow_le_mono_r; lia).
  assert (Hr : 0 <= page_tier_usage K pg <= 2 ^ LRU_USAGE_WIDTH K).
  { rewrite page_tier_usage_value by assumption.
    destruct (PageWorkingset K pg); lia. }
  split; [exact Hr | ]. split.
  - rewrite lru_tier_from_usage_log2_up by lia. apply Z.log2_up_nonneg.
  - rewrite <- (lru_tier_from_usage_pow2 (LRU_USAGE_WIDTH K)) by lia.
    rewrite !lru_tier_from_usage_log2_up by lia.
    apply Z.log2_up_le_mono. lia.
Qed.

(** X3. With the multigenerational lru enabled, page_inc_usage leaves a
    usage of at least 1 on the page; on a page already in the workingset
    the usage read by page_tier_usage goes up by exactly one, until it
    stays at [2 ^ LRU_USAGE_WIDTH]; the usage never goes down.  (For a
    usage counter of at most 30 bits, so that the usage fits an [int].) *)
Theorem page_inc_usage_raises_usage (p : page_id) (st : state) :
  LRU_USAGE_WIDTH K <= 30 ->
  let before := page_tier_usage K (mem st p) in
  let after := page_tier_usage K (mem (snd (page_inc_usage K true p st)) p) in
  1 <= after /\ before <= after /\
  (PageWorkingset K (mem st p) = true ->
   after = Z.min (before + 1) (2 ^ LRU_USAGE_WIDTH K)).
Proof.
  intros Hw before after.
  pose proof (usage_field_range K HK (flags (mem st p))) as Hu.
  assert (Hafter : after =
                   if PageWorkingset K (mem st p)
                   then Z.min (2 ^ LRU_USAGE_WIDTH K - 1)
                              (usage_field K (flags (mem st p)) + 1) + 1
                   else usage_field K (flags (mem st p)) + 1).
  { unfold after. rewrite page_tier_usage_value by assumption.
    rewrite (page_after_inc_usage K).
    unfold PageWorkingset, test_bit. cbn [flags].
    rewrite (inc_usage_keeps_workingset K HK), (usage_after_inc K HK).
    now destruct (Z.testbit (flags (mem st p)) (PG_workingset K)). }
  assert (Hbefore : before =
                    if PageWorkingset K (mem st p)
                    then usage_field K (flags (mem st p)) + 1 else 0)
    by (unfold before; now apply page_tier_usage_value).
  rewrite Hafter, Hbefore.
  destruct (PageWorkingset K (mem st p)); repeat split; lia.
Qed.

(** X4. lru_gen_addition keeps the usage of a referenced page and resets
    the usage of a page that is not referenced to 0.  (For a usage counter
    of at most 30 bits, so that the usage fits an [int].) *)
Theorem lru_gen_addition_usage (p : page_id) (st st' : state) (front : bool) :
  LRU_USAGE_WIDTH K <= 30 ->
  lru_gen_addition K p st front = Ok (true, st') ->
  page_tier_usage K (mem st' p) =
  if PageReferenced K (mem st p) then page_tier_usage K (mem st p) else 0.
Proof.
  intros Hw Hret. config_facts HK. pose proof (gen_width_pos K HK).
  apply (lru_gen_addition_returned K HK) in Hret.
  destruct Hret as [(Hb & _) | (_ & -> & _ & _ & _)]; [discriminate | ].
  pose proof (addition_gen_range K HK st (mem st p)) as Hg.
  pose proof (active_not_workingset K HK) as Haw.
  rewrite !page_tier_usage_value by assumption.
  rewrite (page_added K). unfold PageWorkingset, PageReferenced, test_bit.
  cbn [flags].
  set (old := flags (mem st p)). set (gen := addition_gen K st (mem st p)) in *.
  destruct (Z.testbit old (PG_referenced K)) eqn:Eref.
  - rewrite (addition_frame K HK gen old (PG_workingset K)); try lia; [ | now left].
    rewrite (usage_field_ext K HK (addition_new_flags K gen old) old); [reflexivity | ].
    intros i Hi. apply (addition_frame K HK); try lia. now left.
  - rewrite (testbit_addition_new_flags K HK) by lia.
    rewrite Eref, Z.lor_spec, (testbit_tier_flags K HK), Z.eqb_refl.
    destruct (Z.leb_spec (LRU_GEN_PGOFF K) (PG_workingset K)); [lia | ].
    destruct (Z.eqb_spec (PG_workingset K) (PG_active K)); [lia | ].
    cbn. now rewrite !orb_true_r.
Qed.

(** X5. The word lru_gen_deletion writes differs from the word it read
    only in the generation counter and the active bit; in particular the
    usage, the list type and the zone of the page are as before, and no
    other page is written. *)
Theorem lru_gen_deletion_write (p : page_id) (st st' : state) :
  lru_gen_deletion K p st = Ok (true, st') ->
  (forall i, 0 <= i < 64 ->
             Z.testbit (LRU_GEN_MASK K) i = false -> i <> PG_active K ->
             Z.testbit (flags (mem st' p)) i = Z.testbit (flags (mem st p)) i) /\
  page_tier_usage K (mem st' p) = page_tier_usage K (mem st p) /\
  page_is_file_lru K (mem st' p) = page_is_file_lru K (mem st p) /\
  page_zonenum K (mem st' p) = page_zonenum K (mem st p) /\
  thp_nr_pages (mem st' p) = thp_nr_pages (mem st p) /\
  (forall q, q <> p -> mem st' q = mem st q).
Proof.
  intros Hret. config_facts HK. pose proof (gen_width_pos K HK).
  apply (lru_gen_deletion_returned K HK) in Hret.
  destruct Hret as [(Hb & _) | (_ & -> & _)]; [discriminate | ].
  pose proof (active_not_workingset K HK) as Haw.
  set (a := active_window K st (flags_gen K (flags (mem st p)))).
  assert (Hframe : forall i, 0 <= i < 64 ->
             Z.testbit (LRU_GEN_MASK K) i = false -> i <> PG_active K ->
             Z.testbit (deletion_new_flags K a (flags (mem st p))) i =
             Z.testbit (flags (mem st p)) i).
  { intros i Hi Hmask Hact.
    rewrite (testbit_gen_mask K HK) in Hmask by lia.
    apply (deletion_frame K HK); (assumption || lia). }
  rewrite (page_deleted K). fold a. cbn [flags thp_nr_pages compound_nr].
  split; [exact Hframe | ].
  split; [ | split; [apply (deletion_keeps_file K HK) | split;
                     [apply (deletion_keeps_zone K HK) | split; [reflexivity | ]]]].
  - unfold page_tier_usage. cbn [flags].
    rewrite !land_BIT_zero by lia.
    rewrite (usage_field_ext K HK _ (flags (mem st p))).
    + rewrite Hframe; [reflexivity | lia | | lia].
      rewrite (testbit_gen_mask K HK) by lia. lia.
    + intros i Hi. apply Hframe; [lia | | lia].
      rewrite (testbit_gen_mask K HK) by lia. lia.
  - intros q Hne. now apply other_page_deleted.
Qed.

End Usage.

(** ** Generations and the window of sequence numbers *)

Lemma mod_eq_close (a b n : Z) :
  0 < n -> 0 <= a - b < n -> a mod n = b mod n -> a = b.
Proof.
  intros Hn Hd Hm.
  pose proof (Z.div_mod a n ltac:(lia)) as Ha.
  pose proof (Z.div_mod b n ltac:(lia)) as Hb.
  assert (Hq : a - b = n * (a / n - b / n)) by lia.
  assert (Hz : a / n - b / n = 0) by nia.
  lia.
Qed.

Section Window.
Variable K : config.
Hypothesis HK : config_ok K = true.

(** X6. sid_from_seq_or_gen returns a valid index into an array of
    [NR_STAT_GENS] entries for every [int] it is given, -1 included.  When
    statistics are kept for one generation only, the index is 0; when they
    are kept for all [MAX_NR_GENS] generations, a sequence number that fits
    an [int] and its generation give the same index, the generation
    itself. *)
Theorem sid_from_seq_or_gen_index (E : more_config) (seq_or_gen : Z) :
  1 <= NR_STAT_GENS E < 2 ^ 31 ->
  0 <= sid_from_seq_or_gen E seq_or_gen < NR_STAT_GENS E /\
  (NR_STAT_GENS E = 1 -> sid_from_seq_or_gen E seq_or_gen = 0) /\
  (NR_STAT_GENS E = MAX_NR_GENS K -> 0 <= seq_or_gen < 2 ^ 31 ->
   sid_from_seq_or_gen E seq_or_gen = lru_gen_from_seq K seq_or_gen /\
   sid_from_seq_or_gen E (lru_gen_from_seq K seq_or_gen) =
   sid_from_seq_or_gen E seq_or_gen).
Proof.
  intros Hn. unfold sid_from_seq_or_gen.
  pose proof (Z.mod_pos_bound (to_uint seq_or_gen) (NR_STAT_GENS E)) as Hr.
  split; [rewrite to_int_small; lia | ]. split.
  - intros H1. rewrite H1, Z.mod_1_r. reflexivity.
  - intros HN Hs. pose proof (max_nr_gens_int K HK) as HNr.
    pose proof (lru_gen_from_seq_range K HK seq_or_gen) as Hg.
    rewrite (lru_gen_from_seq_mod K HK) in *.
    rewrite HN in *.
    rewrite !to_uint_small by lia.
    rewrite Z.mod_mod by lia.
    split; [apply to_int_small; lia | reflexivity].
Qed.

(** X7. While the sequence numbers in use span fewer than [MAX_NR_GENS]
    values, lru_gen_is_active tells the truth about sequence numbers: the
    generation of [seq] is active exactly when [seq] is [max_seq] or
    [max_seq - 1]; two sequence numbers of the window never share a
    generation. *)
Theorem lru_gen_is_active_window (st : state) (seq : Z) :
  0 < max_seq (evictable st) < 2 ^ 64 ->
  0 <= seq ->
  max_seq (evictable st) - MAX_NR_GENS K < seq <= max_seq (evictable st) ->
  lru_gen_is_active K st (lru_gen_from_seq K seq) =
  Ok (max_seq (evictable st) - 1 <=? seq).
Proof.
  intros Hmax Hs Hwin. pose proof (max_nr_gens_int K HK) as HN.
  rewrite (lru_gen_is_active_cases K HK) by apply (lru_gen_from_seq_range K HK).
  rewrite (proj2 (Z.eqb_neq _ _)) by lia.
  f_equal. unfold active_window.
  rewrite to_ulong_small by lia.
  rewrite !(lru_gen_from_seq_mod K HK).
  set (m := max_seq (evictable st)) in *. set (n := MAX_NR_GENS K) in *.
  destruct (Z.leb_spec (m - 1) seq) as [Hyoung | Hold_].
  - apply orb_true_iff.
    destruct (Z.eq_dec seq m) as [-> | Hne].
    + left. apply Z.eqb_refl.
    + right. replace seq with (m - 1) by lia. apply Z.eqb_refl.
  - apply orb_false_iff. split; apply Z.eqb_neq; intros Heq.
    + symmetry in Heq. apply mod_eq_close in Heq; lia.
    + symmetry in Heq. apply mod_eq_close in Heq; lia.
Qed.

(** X8. For a move between two generations, lru_gen_update_size stops in
    its last assertion when the old generation is active and the new one is
    not; when both are active or both inactive, it returns, calls
    update_lru_size not at all and leaves pages and lists alone, and for
    two different generations it takes the page count off the old size and
    adds it to the new one. *)
Theorem lru_gen_update_size_between (p : page_id) (st : state)
        (old_gen new_gen : Z) (old_active new_active : bool) :
  0 <= old_gen -> 0 <= new_gen ->
  lru_gen_is_active K st old_gen = Ok old_active ->
  lru_gen_is_active K st new_gen = Ok new_active ->
  let file := page_is_file_lru K (mem st p) in
  let zone := page_zonenum K (mem st p) in
  let delta := thp_nr_pages (mem st p) in
  (old_active = true -> new_active = false ->
   lru_gen_update_size K p st old_gen new_gen = Bug BUG_active_to_inactive) /\
  (old_active = new_active ->
   exists st',
     lru_gen_update_size K p st old_gen new_gen = Ok st' /\
     lru_size_log st' = lru_size_log st /\
     mem st' = mem st /\
     lists (evictable st') = lists (evictable st) /\
     (old_gen <> new_gen ->
      sizes (evictable st') old_gen file zone =
        to_ulong (sizes (evictable st) old_gen file zone - delta) /\
      sizes (evictable st') new_gen file zone =
        to_ulong (sizes (evictable st) new_gen file zone + delta))).
Proof.
  intros Hold Hnew Hao Han file zone delta.
  pose proof (lru_gen_is_active_returned K _ _ _ Hao) as (Hmax & Hro & _).
  pose proof (lru_gen_is_active_returned K _ _ _ Han) as (_ & Hrn & _).
  assert (Eo : (old_gen =? -1) = false) by (apply Z.eqb_neq; lia).
  assert (Eo0 : (0 <=? old_gen) = true) by (apply Z.leb_le; lia).
  assert (Eo1 : (old_gen <? 0) = false) by (apply Z.ltb_ge; lia).
  assert (En0 : (0 <=? new_gen) = true) by (apply Z.leb_le; lia).
  assert (En1 : (new_gen <? 0) = false) by (apply Z.ltb_ge; lia).
  assert (Hrun : lru_gen_update_size K p st old_gen new_gen =
                 let st1 := set_size st old_gen file zone
                              (to_ulong (sizes (evictable st) old_gen file zone - delta)) in
                 let st2 := set_size st1 new_gen file zone
                              (to_ulong (sizes (evictable st1) new_gen file zone + delta)) in
                 if old_active then
                   if new_active then Ok st2 else Bug BUG_active_to_inactive
                 else if new_active then
                   Ok (update_lru_size
                         (update_lru_size st2 (LRU_FILE K * file) zone (to_int (- delta)))
                         (LRU_FILE K * file + LRU_ACTIVE K) zone delta)
                 else Ok st2).
  { unfold lru_gen_update_size. fold file zone delta.
    rewrite Hro, Hrn, !andb_false_r, Eo, Eo0, Eo1, En0, En1.
    cbn [VM_BUG_ON bind andb]. cbv zeta.
    set (st2 := set_size (set_size _ _ _ _ _) _ _ _ _).
    rewrite (lru_gen_is_active_frame K st2 st old_gen) by reflexivity.
    rewrite (lru_gen_is_active_frame K st2 st new_gen) by reflexivity.
    rewrite Hao. cbn [bind].
    destruct old_active.
    - cbn [bind]. rewrite (lru_gen_is_active_frame K st2 st old_gen) by reflexivity.
      rewrite Hao. cbn [bind].
      rewrite (lru_gen_is_active_frame K st2 st new_gen) by reflexivity.
      rewrite Han. cbn [bind]. now destruct new_active.
    - rewrite Han. cbn [bind]. destruct new_active.
      + set (st3 := update_lru_size (update_lru_size _ _ _ _) _ _ _).
        rewrite (lru_gen_is_active_frame K st3 st old_gen) by reflexivity.
        rewrite Hao. reflexivity.
      + rewrite (lru_gen_is_active_frame K st2 st old_gen) by reflexivity.
        rewrite Hao. reflexivity. }
  rewrite Hrun. cbv zeta. split.
  - intros -> ->. reflexivity.
  - intros <-. eexists. split; [destruct old_active; reflexivity | ].
    split; [reflexivity | split; [reflexivity | split; [reflexivity | ]]].
    intros Hne. cbn [sizes evictable set_size]. split.
    + unfold upd3. rewrite !Z.eqb_refl. cbn [andb].
      rewrite (proj2 (Z.eqb_neq old_gen new_gen)) by assumption. reflexivity.
    + rewrite upd3_same. unfold upd3.
      rewrite (proj2 (Z.eqb_neq new_gen old_gen)) by lia. reflexivity.
Qed.

End Window.

(** ** Activity across the operations *)

Section Activity.
Variable K : config.
Hypothesis HK : config_ok K = true.
Variable PageTail : page_id -> bool.
Variable mem_cgroup_lruvec : page_id -> lrugen.

Lemma inc_usage_keeps_unevictable (old : Z) :
  Z.testbit (inc_usage_new_flags K old) (PG_unevictable K) =
  Z.testbit old (PG_unevictable K).
Proof.
  config_facts HK. pose proof (gen_width_pos K HK).
  pose proof (unevictable_not_workingset K HK).
  apply (inc_usage_frame K HK); try lia.
  rewrite (testbit_usage_mask K HK) by lia. lia.
Qed.

Lemma inc_usage_keeps_swapbacked (old : Z) :
  Z.testbit (inc_usage_new_flags K old) (PG_swapbacked K) =
  Z.testbit old (PG_swapbacked K).
Proof.
  config_facts HK. pose proof (gen_width_pos K HK).
  pose proof (swapbacked_not_workingset K HK).
  apply (inc_usage_frame K HK); try lia.
  rewrite (testbit_usage_mask K HK) by lia. lia.
Qed.

(** page_is_active sees a page only through its generation and two of
    its flags. *)
Lemma page_is_active_ext (p : page_id) (st1 st2 : state) (lruvec : option lrugen) :
  page_lru_gen K (mem st1 p) = page_lru_gen K (mem st2 p) ->
  PageActive K (mem st1 p) = PageActive K (mem st2 p) ->
  PageUnevictable K (mem st1 p) = PageUnevictable K (mem st2 p) ->
  page_is_active K PageTail mem_cgroup_lruvec p st1 lruvec =
  page_is_active K PageTail mem_cgroup_lruvec p st2 lruvec.
Proof.
  intros Hg Ha Hu. unfold page_is_active. rewrite Hg, Ha, Hu.
  destruct lruvec; reflexivity.
Qed.

(** X9. lru_gen_deletion hands the activity of the page over to its
    active flag: what page_is_active answers after a successful deletion,
    whatever lruvec it is given, is what it answered before the deletion
    for the lruvec of the page. *)
Theorem lru_gen_deletion_keeps_activity (p : page_id) (st st' : state)
        (lruvec : option lrugen) :
  lru_gen_deletion K p st = Ok (true, st') ->
  page_is_active K PageTail mem_cgroup_lruvec p st' lruvec =
  page_is_active K PageTail mem_cgroup_lruvec p st (Some (evictable st)).
Proof.
  intros Hret. apply (lru_gen_deletion_returned K HK) in Hret.
  destruct Hret as [(Hb & _) | (_ & -> & Hg & Hact & Hev & Hmax)]; [discriminate | ].
  unfold page_is_active, VM_BUG_ON_PAGE, and_then.
  destruct (PageTail p); [reflexivity | ].
  unfold page_lru_gen at 1. rewrite (page_deleted K). cbn [flags].
  rewrite (deletion_flags_gen K HK). cbn [Z.ltb Z.compare].
  unfold page_lru_gen.
  rewrite (proj2 (Z.ltb_ge _ _)) by lia.
  rewrite Hev, Hact.
  rewrite (lru_gen_is_active_cases K HK) by assumption.
  cbn [evictable max_seq]. rewrite (proj2 (Z.eqb_neq _ _)) by assumption.
  cbn [lift]. f_equal.
  unfold PageActive, test_bit. cbn [flags].
  rewrite (deletion_sets_active K HK).
  unfold PageActive, test_bit in Hact. rewrite Hact, orb_false_r. reflexivity.
Qed.

(** X10. lru_gen_addition never makes an active page inactive: if
    page_is_active answered true before a successful addition, it answers
    true after it for the lruvec the page was added to. *)
Theorem lru_gen_addition_keeps_active (p : page_id) (st st' : state)
        (front : bool) (lruvec : option lrugen) :
  lru_gen_addition K p st front = Ok (true, st') ->
  page_is_active K PageTail mem_cgroup_lruvec p st lruvec = Done true ->
  page_is_active K PageTail mem_cgroup_lruvec p st' (Some (evictable st')) = Done true.
Proof.
  intros Hret Hbefore. apply (lru_gen_addition_returned K HK) in Hret.
  destruct Hret as [(Hb & _) | (_ & -> & Hacc & Hun & Hmax)]; [discriminate | ].
  apply orb_false_iff in Hacc. destruct Hacc as [Hev _].
  pose proof (addition_gen_range K HK st (mem st p)) as Hg.
  unfold page_is_active, VM_BUG_ON_PAGE, and_then in Hbefore |- *.
  destruct (PageTail p); [discriminate | ].
  unfold page_lru_gen in Hbefore. rewrite Hun in Hbefore. cbn in Hbefore.
  assert (Hact : PageActive K (mem st p) = true) by now inversion Hbefore.
  unfold page_lru_gen, PageUnevictable, PageActive, test_bit.
  rewrite (page_added K). cbn [flags].
  rewrite (addition_flags_gen K HK) by assumption.
  rewrite (addition_keeps_unevictable K HK) by assumption.
  rewrite (addition_clears_active K HK) by assumption.
  unfold PageUnevictable, test_bit in Hev. rewrite Hev.
  rewrite (proj2 (Z.ltb_ge _ _)) by lia.
  rewrite (lru_gen_is_active_cases K HK) by assumption.
  cbn [evictable]. rewrite (max_seq_added_state K).
  rewrite (proj2 (Z.eqb_neq _ _)) by assumption.
  cbn [lift]. f_equal. unfold active_window. cbn [evictable].
  rewrite (max_seq_added_state K).
  unfold addition_gen. rewrite Hact. now rewrite Z.eqb_refl.
Qed.

End Activity.

(** ** The classic classification *)

Section Classic.
Variable K : config.
Hypothesis HK : config_ok K = true.
Variable E : more_config.
Variable PageTail : page_id -> bool.
Variable mem_cgroup_lruvec : page_id -> lrugen.

(** page_lru sees a page only through three of its flags. *)
Lemma page_lru_ext (pg1 pg2 : page) :
  PageActive K pg1 = PageActive K pg2 ->
  PageUnevictable K pg1 = PageUnevictable K pg2 ->
  page_is_file_lru K pg1 = page_is_file_lru K pg2 ->
  page_lru K E pg1 = page_lru K E pg2.
Proof. intros Ha Hu Hf. unfold page_lru. now rewrite Ha, Hu, Hf. Qed.

(** X11. page_inc_usage, enabled or not, on any page, changes nothing that
    the lists depend on: page_lru_gen, page_lru and page_is_active of every
    page are as before. *)
Theorem page_inc_usage_keeps_placement (on : bool) (p q : page_id) (st : state)
        (lruvec : option lrugen) :
  let st' := snd (page_inc_usage K on p st) in
  page_lru_gen K (mem st' q) = page_lru_gen K (mem st q) /\
  page_lru K E (mem st' q) = page_lru K E (mem st q) /\
  page_is_active K PageTail mem_cgroup_lruvec q st' lruvec =
  page_is_active K PageTail mem_cgroup_lruvec q st lruvec.
Proof.
  intros st'.
  assert (Hsame : page_lru_gen K (mem st' q) = page_lru_gen K (mem st q) /\
                  PageActive K (mem st' q) = PageActive K (mem st q) /\
                  PageUnevictable K (mem st' q) = PageUnevictable K (mem st q) /\
                  page_is_file_lru K (mem st' q) = page_is_file_lru K (mem st q)).
  { unfold st'. destruct on; [ | repeat split; reflexivity].
    destruct (Nat.eq_dec q p) as [-> | Hne].
    - rewrite (page_after_inc_usage K).
      unfold page_lru_gen, PageActive, PageUnevictable, page_is_file_lru,
        PageSwapBacked, test_bit. cbn [flags].
      rewrite (inc_usage_keeps_gen K HK), (inc_usage_keeps_active K HK),
        (inc_usage_keeps_unevictable K HK), (inc_usage_keeps_swapbacked K HK).
      repeat split; reflexivity.
    - rewrite (other_page_after_inc_usage K) by assumption.
      repeat split; reflexivity. }
  destruct Hsame as (Hg & Ha & Hu & Hf).
  split; [exact Hg | split].
  - now apply page_lru_ext.
  - now apply page_is_active_ext.
Qed.

(** X12. After a successful lru_gen_deletion the classic list page_lru
    names for the page is the list whose size the deletion has just
    lowered: the page can be handed to the classic lists without
    correcting any counter. *)
Theorem lru_gen_deletion_charges_page_lru (p : page_id) (st st' : state) :
  lru_lists_ok K E = true ->
  lru_gen_deletion K p st = Ok (true, st') ->
  exists lru,
    page_lru K E (mem st' p) = Done lru /\
    lru_size_log st' =
    lru_size_log st ++
      [(lru, page_zonenum K (mem st' p), to_int (- thp_nr_pages (mem st' p)))].
Proof.
  intros HE Hret. unfold lru_lists_ok in HE.
  apply andb_true_iff in HE. destruct HE as [Hanon Hfile].
  apply Z.eqb_eq in Hanon, Hfile.
  apply (lru_gen_deletion_returned K HK) in Hret.
  destruct Hret as [(Hb & _) | (_ & -> & Hg & Hact & Hev & Hmax)]; [discriminate | ].
  set (gen := flags_gen K (flags (mem st p))) in *.
  set (a := active_window K st gen).
  assert (Hpg : mem (deleted_state K p st) p =
                Page (deletion_new_flags K a (flags (mem st p)))
                     (compound_nr (mem st p))) by apply page_deleted.
  assert (Hfile' : page_is_file_lru K (mem (deleted_state K p st) p) =
                   page_is_file_lru K (mem st p))
    by (rewrite Hpg; apply (deletion_keeps_file K HK)).
  assert (Hzone' : page_zonenum K (mem (deleted_state K p st) p) =
                   page_zonenum K (mem st p))
    by (rewrite Hpg; apply (deletion_keeps_zone K HK)).
  assert (Hact' : PageActive K (mem (deleted_state K p st) p) = a).
  { rewrite Hpg. unfold PageActive, test_bit. cbn [flags].
    rewrite (deletion_sets_active K HK).
    unfold PageActive, test_bit in Hact. now rewrite Hact, orb_false_r. }
  assert (Hev' : PageUnevictable K (mem (deleted_state K p st) p) = false).
  { rewrite Hpg. unfold PageUnevictable, test_bit. cbn [flags].
    config_facts HK. pose proof (gen_width_pos K HK).
    pose proof (unevictable_not_active K HK).
    rewrite (deletion_frame K HK) by lia. exact Hev. }
  exists (if a then LRU_FILE K * page_is_file_lru K (mem st p) + LRU_ACTIVE K
          else LRU_FILE K * page_is_file_lru K (mem st p)).
  split.
  - unfold page_lru, VM_BUG_ON_PAGE, and_then.
    rewrite Hact', Hev', Hfile', andb_false_r, Hanon, Hfile.
    unfold page_is_file_lru. destruct (PageSwapBacked K (mem st p)); cbn [Z.eqb negb];
      rewrite ?Z.mul_0_r, ?Z.mul_1_r; now destruct a.
  - rewrite Hzone'. rewrite Hpg. cbn [thp_nr_pages compound_nr].
    unfold deleted_state. fold gen a. reflexivity.
Qed.

(** What __clear_page_lru_flags does to a page that has the lru flag. *)
Lemma clear_page_lru_flags_done (p : page_id) (st : state) :
  pg_lru_ok K E = true ->
  PageLRU E (mem st p) = true ->
  exists st',
    __clear_page_lru_flags K E p st = Done st' /\
    PageLRU E (mem st' p) = false /\
    PageActive K (mem st' p) =
      PageActive K (mem st p) && PageUnevictable K (mem st p) /\
    PageUnevictable K (mem st' p) =
      PageActive K (mem st p) && PageUnevictable K (mem st p) /\
    (forall i, 0 <= i < 64 ->
               i <> PG_lru E -> i <> PG_active K -> i <> PG_unevictable K ->
               Z.testbit (flags (mem st' p)) i = Z.testbit (flags (mem st p)) i) /\
    page_lru_gen K (mem st' p) = page_lru_gen K (mem st p) /\
    (forall q, q <> p -> mem st' q = mem st q) /\
    evictable st' = evictable st /\ lru_size_log st' = lru_size_log st.
Proof.
  intros HP Hlru. config_facts HK. pose proof (gen_width_pos K HK).
  pose proof (unevictable_not_active K HK) as Hua.
  unfold pg_lru_ok in HP. cbn [pg_bits existsb] in HP.
  repeat rewrite ?andb_true_iff, ?negb_true_iff, ?orb_false_iff in HP.
  repeat rewrite ?Z.leb_le, ?Z.ltb_lt, ?Z.eqb_neq in HP.
  destruct HP as ((Hl0 & Hl1) & _ & _ & Hla & _ & _ & _ & _ & Hlu & _).
  assert (Hclr : forall nr w i, 0 <= nr < 64 -> 0 <= i < 64 ->
             Z.testbit (Z.land w (not_ulong (BIT nr))) i =
             Z.testbit w i && negb (i =? nr)).
  { intros nr w i Hnr Hi.
    rewrite Z.land_spec, testbit_not_ulong, testbit_BIT by lia.
    destruct (Z.ltb_spec i 64); [ | lia].
    now destruct (i =? nr). }
  unfold __clear_page_lru_flags, VM_BUG_ON_PAGE, and_then, PageLRU, test_bit.
  unfold PageLRU, test_bit in Hlru. rewrite Hlru. cbn [negb].
  set (w := flags (mem st p)) in *.
  set (st1 := clear_flag (PG_lru E) p st).
  assert (Hpg1 : mem st1 p = Page (Z.land w (not_ulong (BIT (PG_lru E))))
                                (compound_nr (mem st p)))
    by apply mem_set_flags_same.
  assert (Ha1 : PageActive K (mem st1 p) = Z.testbit w (PG_active K)).
  { rewrite Hpg1. unfold PageActive, test_bit. cbn [flags]. rewrite Hclr by lia.
    rewrite (proj2 (Z.eqb_neq _ _)) by lia. apply andb_true_r. }
  assert (Hu1 : PageUnevictable K (mem st1 p) = Z.testbit w (PG_unevictable K)).
  { rewrite Hpg1. unfold PageUnevictable, test_bit. cbn [flags]. rewrite Hclr by lia.
    rewrite (proj2 (Z.eqb_neq _ _)) by lia. apply andb_true_r. }
  rewrite Ha1, Hu1. unfold PageActive, PageUnevictable, test_bit. fold w.
  destruct (Z.testbit w (PG_active K) && Z.testbit w (PG_unevictable K)) eqn:Eboth.
  - apply andb_true_iff in Eboth. destruct Eboth as [Ea Eu].
    exists st1. split; [reflexivity | ].
    rewrite Hpg1. cbn [flags].
    rewrite !Hclr by lia. rewrite Z.eqb_refl, Ea, Eu.
    rewrite !(proj2 (Z.eqb_neq _ _)) by lia.
    split; [apply andb_false_r | ]. split; [reflexivity | ]. split; [reflexivity | ].
    split.
    { intros i Hi Hnl _ _. rewrite Hclr by lia.
      rewrite (proj2 (Z.eqb_neq _ _)) by lia. apply andb_true_r. }
    split.
    { unfold page_lru_gen. cbn [flags]. fold w.
      apply (flags_gen_ext K HK). intros i Hi. rewrite Hclr by lia.
      rewrite (proj2 (Z.eqb_neq _ _)) by lia. apply andb_true_r. }
    split; [ | split; reflexivity].
    intros q Hne. now apply mem_set_flags_other.
  - set (st2 := clear_flag (PG_active K) p st1).
    set (st3 := clear_flag (PG_unevictable K) p st2).
    assert (Hpg2 : mem st2 p =
                 Page (Z.land (Z.land w (not_ulong (BIT (PG_lru E))))
                              (not_ulong (BIT (PG_active K))))
                      (compound_nr (mem st p))).
    { unfold st2, clear_flag. rewrite mem_set_flags_same, Hpg1. reflexivity. }
    assert (Hpg3 : mem st3 p =
                 Page (Z.land (Z.land (Z.land w (not_ulong (BIT (PG_lru E))))
                                      (not_ulong (BIT (PG_active K))))
                              (not_ulong (BIT (PG_unevictable K))))
                      (compound_nr (mem st p))).
    { unfold st3, clear_flag. rewrite mem_set_flags_same, Hpg2. reflexivity. }
    exists st3. split; [reflexivity | ].
    rewrite Hpg3. cbn [flags].
    rewrite !Hclr by lia. rewrite !Z.eqb_refl.
    rewrite !(proj2 (Z.eqb_neq _ _)) by lia. cbn [negb].
    rewrite !andb_false_r.
    split; [reflexivity | ]. split; [reflexivity | ]. split; [reflexivity | ].
    split.
    { intros i Hi Hnl Hna Hnu. rewrite !Hclr by lia.
      rewrite !(proj2 (Z.eqb_neq _ _)) by lia. cbn [negb]. now rewrite !andb_true_r. }
    split.
    { unfold page_lru_gen. cbn [flags]. fold w.
      apply (flags_gen_ext K HK). intros i Hi. rewrite !Hclr by lia.
      rewrite !(proj2 (Z.eqb_neq _ _)) by lia. cbn [negb]. now rewrite !andb_true_r. }
    split; [ | split; reflexivity].
    intros q Hne. unfold st3, st2, st1, clear_flag. cbn [mem set_flags].
    now rewrite (proj2 (Nat.eqb_neq q p)) by assumption.
Qed.


(** X13. __clear_page_lru_flags stops in its assertion on a page without
    the lru flag.  On a page with the lru flag it clears that flag; it
    clears the active and the unevictable flag too, unless both are set, in
    which case both stay.  No other bit of the word changes, so a
    generation still in the flags survives, and no other page is written. *)
Theorem clear_page_lru_flags_outcome (p : page_id) (st : state) :
  pg_lru_ok K E = true ->
  (PageLRU E (mem st p) = false ->
   __clear_page_lru_flags K E p st = Stop BUG_page_not_lru) /\
  (PageLRU E (mem st p) = true ->
   exists st',
     __clear_page_lru_flags K E p st = Done st' /\
     PageLRU E (mem st' p) = false /\
     PageActive K (mem st' p) =
       PageActive K (mem st p) && PageUnevictable K (mem st p) /\
     PageUnevictable K (mem st' p) =
       PageActive K (mem st p) && PageUnevictable K (mem st p) /\
     (forall i, 0 <= i < 64 ->
                i <> PG_lru E -> i <> PG_active K -> i <> PG_unevictable K ->
                Z.testbit (flags (mem st' p)) i = Z.testbit (flags (mem st p)) i) /\
     page_lru_gen K (mem st' p) = page_lru_gen K (mem st p) /\
     (forall q, q <> p -> mem st' q = mem st q) /\
     evictable st' = evictable st /\ lru_size_log st' = lru_size_log st).
Proof.
  intros HP. split.
  - intros Hlru. unfold __clear_page_lru_flags, VM_BUG_ON_PAGE, and_then.
    now rewrite Hlru.
  - intros Hlru. now apply clear_page_lru_flags_done.
Qed.

End Classic.

(** ** The callers: add_page_to_lru_list, add_page_to_lru_list_tail,
    del_page_from_lru_list *)

Section Adding.
Variable K : config.
Hypothesis HK : config_ok K = true.
Variable E : more_config.

Lemma lru_size_log_added_state (p : page_id) (st : state) (front : bool) :
  lru_size_log (added_state K p st front) =
  lru_size_log st ++
    [(if active_window K st (addition_gen K st (mem st p))
      then LRU_FILE K * page_is_file_lru K (mem st p) + LRU_ACTIVE K
      else LRU_FILE K * page_is_file_lru K (mem st p),
      page_zonenum K (mem st p), compound_nr (mem st p))].
Proof. unfold added_state. destruct front; reflexivity. Qed.

Lemma add_page_to_lru_list_returned (p : page_id) (v v1 : lruvec) :
  add_page_to_lru_list K E p v = Done v1 ->
  exists lru,
    page_lru K E (mem (lruvec_state v) p) = Done lru /\
    v1 = added_lruvec K true p v lru /\
    (PageUnevictable K (mem (lruvec_state v) p)
       || negb (enabled (evictable (lruvec_state v))
                        (page_is_file_lru K (mem (lruvec_state v) p))) = false ->
     flags_gen K (flags (mem (lruvec_state v) p)) = -1 /\
     max_seq (evictable (lruvec_state v)) <> 0).
Proof.
  intros Hret.
  unfold add_page_to_lru_list, and_then in Hret.
  destruct (page_lru K E (mem (lruvec_state v) p)) as [lru | ]; [ | discriminate].
  exists lru. split; [reflexivity | ].
  unfold added_lruvec.
  destruct (PageUnevictable K (mem (lruvec_state v) p)
              || negb (enabled (evictable (lruvec_state v))
                               (page_is_file_lru K (mem (lruvec_state v) p))))
    eqn:Erej.
  - rewrite lru_gen_addition_rejected in Hret by assumption.
    cbn [lift fst snd] in Hret. inversion Hret. split; [reflexivity | discriminate].
  - rewrite (lru_gen_addition_accepted K HK) in Hret by assumption.
    destruct (Z.eqb_spec (flags_gen K (flags (mem (lruvec_state v) p))) (-1));
      cbn [negb lift] in Hret; [ | discriminate].
    destruct (Z.eqb_spec (max_seq (evictable (lruvec_state v))) 0);
      cbn [lift fst snd] in Hret; [discriminate | ].
    inversion Hret. split; [reflexivity | intros _; split; assumption].
Qed.

Lemma add_page_to_lru_list_tail_returned (p : page_id) (v v1 : lruvec) :
  add_page_to_lru_list_tail K E p v = Done v1 ->
  exists lru,
    page_lru K E (mem (lruvec_state v) p) = Done lru /\
    v1 = added_lruvec K false p v lru /\
    (PageUnevictable K (mem (lruvec_state v) p)
       || negb (enabled (evictable (lruvec_state v))
                        (page_is_file_lru K (mem (lruvec_state v) p))) = false ->
     flags_gen K (flags (mem (lruvec_state v) p)) = -1 /\
     max_seq (evictable (lruvec_state v)) <> 0).
Proof.
  intros Hret.
  unfold add_page_to_lru_list_tail, and_then in Hret.
  destruct (page_lru K E (mem (lruvec_state v) p)) as [lru | ]; [ | discriminate].
  exists lru. split; [reflexivity | ].
  unfold added_lruvec.
  destruct (PageUnevictable K (mem (lruvec_state v) p)
              || negb (enabled (evictable (lruvec_state v))
                               (page_is_file_lru K (mem (lruvec_state v) p))))
    eqn:Erej.
  - rewrite lru_gen_addition_rejected in Hret by assumption.
    cbn [lift fst snd] in Hret. inversion Hret. split; [reflexivity | discriminate].
  - rewrite (lru_gen_addition_accepted K HK) in Hret by assumption.
    destruct (Z.eqb_spec (flags_gen K (flags (mem (lruvec_state v) p))) (-1));
      cbn [negb lift] in Hret; [ | discriminate].
    destruct (Z.eqb_spec (max_seq (evictable (lruvec_state v))) 0);
      cbn [lift fst snd] in Hret; [discriminate | ].
    inversion Hret. split; [reflexivity | intros _; split; assumption].
Qed.

(** The two adding callers run the same checks: they stop in the same
    assertion, or both return, each with the lruvec it leaves behind. *)
Lemma add_page_to_lru_list_both (p : page_id) (v : lruvec) :
  (exists b, add_page_to_lru_list K E p v = Stop b /\
             add_page_to_lru_list_tail K E p v = Stop b) \/
  (exists lru, page_lru K E (mem (lruvec_state v) p) = Done lru /\
               add_page_to_lru_list K E p v = Done (added_lruvec K true p v lru) /\
               add_page_to_lru_list_tail K E p v = Done (added_lruvec K false p v lru)).
Proof.
  unfold add_page_to_lru_list, add_page_to_lru_list_tail, and_then, added_lruvec.
  destruct (page_lru K E (mem (lruvec_state v) p)) as [lru | b];
    [ | left; exists b; split; reflexivity].
  destruct (PageUnevictable K (mem (lruvec_state v) p)
              || negb (enabled (evictable (lruvec_state v))
                               (page_is_file_lru K (mem (lruvec_state v) p))))
    eqn:Erej.
  - rewrite !lru_gen_addition_rejected by assumption.
    right. exists lru. repeat split; reflexivity.
  - rewrite !(lru_gen_addition_accepted K HK) by assumption.
    destruct (negb (flags_gen K (flags (mem (lruvec_state v) p)) =? -1));
      [left; eexists; split; reflexivity | ].
    destruct (max_seq (evictable (lruvec_state v)) =? 0);
      [left; eexists; split; reflexivity | ].
    right. exists lru. repeat split; reflexivity.
Qed.

(** Where the lruvecs left by the two callers differ. *)
Lemma added_lruvec_position (p : page_id) (v : lruvec) (lru : Z) :
  let v1 := added_lruvec K true p v lru in
  let v2 := added_lruvec K false p v lru in
  mem (lruvec_state v2) = mem (lruvec_state v1) /\
  sizes (evictable (lruvec_state v2)) = sizes (evictable (lruvec_state v1)) /\
  lru_size_log (lruvec_state v2) = lru_size_log (lruvec_state v1) /\
  (forall l,
      (lruvec_lists v1 l = lruvec_lists v l /\
       lruvec_lists v2 l = lruvec_lists v l) \/
      (lruvec_lists v1 l = p :: lruvec_lists v l /\
       lruvec_lists v2 l = lruvec_lists v l ++ [p])) /\
  (forall g t z,
      (lists (evictable (lruvec_state v1)) g t z =
         lists (evictable (lruvec_state v)) g t z /\
       lists (evictable (lruvec_state v2)) g t z =
         lists (evictable (lruvec_state v)) g t z) \/
      (lists (evictable (lruvec_state v1)) g t z =
         p :: lists (evictable (lruvec_state v)) g t z /\
       lists (evictable (lruvec_state v2)) g t z =
         lists (evictable (lruvec_state v)) g t z ++ [p])).
Proof.
  cbv zeta. unfold added_lruvec.
  destruct (PageUnevictable K (mem (lruvec_state v) p)
              || negb (enabled (evictable (lruvec_state v))
                               (page_is_file_lru K (mem (lruvec_state v) p)))).
  - cbn [lruvec_state lruvec_lists update_lru_size mem evictable lru_size_log].
    repeat split; try reflexivity.
    + intros l. unfold upd1. destruct (l =? lru) eqn:El.
      * apply Z.eqb_eq in El. subst l. right. split; reflexivity.
      * left. split; reflexivity.
    + intros g t z. left. split; reflexivity.
  - cbn [lruvec_state lruvec_lists].
    rewrite !(mem_added_state K), !(sizes_added_state K),
      !lru_size_log_added_state, !(lists_added_state K).
    repeat split; try reflexivity.
    + intros l. left. split; reflexivity.
    + intros g t z. unfold upd3.
      destruct ((g =? addition_gen K (lruvec_state v) (mem (lruvec_state v) p))
                && (t =? page_is_file_lru K (mem (lruvec_state v) p))
                && (z =? page_zonenum K (mem (lruvec_state v) p))) eqn:Ek.
      * apply andb_true_iff in Ek. destruct Ek as [Ek Ez].
        apply andb_true_iff in Ek. destruct Ek as [Eg Et].
        apply Z.eqb_eq in Eg, Et, Ez. subst g t z. right. split; reflexivity.
      * left. split; reflexivity.
Qed.

(** X14. add_page_to_lru_list and add_page_to_lru_list_tail succeed on
    the same inputs, stop in the same assertion on all others, and differ
    only in where the page is linked: they write the same page flags and
    sizes and make the same call of update_lru_size, and every list is
    either left alone by both or gets the page at its head from the first
    and at its tail from the second. *)
Theorem add_page_to_lru_list_position (p : page_id) (v : lruvec) :
  ((exists v1, add_page_to_lru_list K E p v = Done v1) <->
   (exists v2, add_page_to_lru_list_tail K E p v = Done v2)) /\
  (forall b, add_page_to_lru_list K E p v = Stop b <->
             add_page_to_lru_list_tail K E p v = Stop b) /\
  (forall v1 v2,
      add_page_to_lru_list K E p v = Done v1 ->
      add_page_to_lru_list_tail K E p v = Done v2 ->
      mem (lruvec_state v2) = mem (lruvec_state v1) /\
      sizes (evictable (lruvec_state v2)) = sizes (evictable (lruvec_state v1)) /\
      lru_size_log (lruvec_state v2) = lru_size_log (lruvec_state v1) /\
      (forall lru,
          (lruvec_lists v1 lru = lruvec_lists v lru /\
           lruvec_lists v2 lru = lruvec_lists v lru) \/
          (lruvec_lists v1 lru = p :: lruvec_lists v lru /\
           lruvec_lists v2 lru = lruvec_lists v lru ++ [p])) /\
      (forall g t z,
          (lists (evictable (lruvec_state v1)) g t z =
             lists (evictable (lruvec_state v)) g t z /\
           lists (evictable (lruvec_state v2)) g t z =
             lists (evictable (lruvec_state v)) g t z) \/
          (lists (evictable (lruvec_state v1)) g t z =
             p :: lists (evictable (lruvec_state v)) g t z /\
           lists (evictable (lruvec_state v2)) g t z =
             lists (evictable (lruvec_state v)) g t z ++ [p]))).
Proof.
  destruct (add_page_to_lru_list_both p v)
    as [(b & Hhead & Htail) | (lru & _ & Hhead & Htail)];
    rewrite Hhead, Htail.
  - split; [ | split].
    + split; intros [w Hw]; discriminate.
    + intros b'. reflexivity.
    + intros v1 v2 Hw. discriminate.
  - split; [ | split].
    + split; intros _; eexists; reflexivity.
    + intros b. split; intros Hw; discriminate.
    + intros v1 v2 H1 H2. inversion H1. inversion H2.
      apply added_lruvec_position.
Qed.

End Adding.

Section Removing.
Variable K : config.
Hypothesis HK : config_ok K = true.
Variable E : more_config.

(** lru_gen_deletion right after lru_gen_addition, in terms of the states
    the two leave behind. *)
Lemma lru_gen_deletion_of_added (p : page_id) (st : state) (front : bool) :
  PageUnevictable K (mem st p) = false ->
  max_seq (evictable st) <> 0 ->
  lru_gen_deletion K p (added_state K p st front) =
  Ok (true, deleted_state K p (added_state K p st front)).
Proof.
  intros Hev Hmax.
  pose proof (addition_gen_range K HK st (mem st p)) as Hg.
  rewrite (lru_gen_deletion_tracked K HK);
    rewrite (page_added K); cbn [flags];
    rewrite (addition_flags_gen K HK) by assumption; [ | lia].
  unfold PageActive, PageUnevictable, test_bit. cbn [flags].
  rewrite (addition_clears_active K HK) by assumption.
  rewrite (addition_keeps_unevictable K HK) by assumption.
  unfold PageUnevictable, test_bit in Hev. rewrite Hev.
  rewrite (max_seq_added_state K).
  rewrite (proj2 (Z.eqb_neq _ _)) by assumption.
  rewrite (proj2 (Z.leb_gt _ _)) by lia. reflexivity.
Qed.

Lemma deleted_added_state (p : page_id) (st : state) (front : bool) :
  (forall g t z, ~ In p (lists (evictable st) g t z)) ->
  (forall g t z, 0 <= sizes (evictable st) g t z < 2 ^ 64) ->
  let st2 := deleted_state K p (added_state K p st front) in
  (forall g t z, sizes (evictable st2) g t z = sizes (evictable st) g t z) /\
  (forall g t z, lists (evictable st2) g t z = lists (evictable st) g t z) /\
  page_lru_gen K (mem st2 p) = -1 /\
  exists lru,
    lru_size_log st2 =
    lru_size_log st ++
      [(lru, page_zonenum K (mem st p), thp_nr_pages (mem st p));
       (lru, page_zonenum K (mem st p), to_int (- thp_nr_pages (mem st p)))].
Proof.
  intros Hfree Hsizes st2.
  pose proof (addition_gen_range K HK st (mem st p)) as Hg.
  set (gen := addition_gen K st (mem st p)) in *.
  set (st1 := added_state K p st front) in *.
  assert (Hpg : mem st1 p = Page (addition_new_flags K gen (flags (mem st p)))
                                 (compound_nr (mem st p)))
    by apply page_added.
  assert (Hgen1 : flags_gen K (flags (mem st1 p)) = gen).
  { rewrite Hpg. cbn [flags]. now apply (addition_flags_gen K HK). }
  assert (Hfile1 : page_is_file_lru K (mem st1 p) = page_is_file_lru K (mem st p)).
  { rewrite Hpg. now apply (addition_keeps_file K HK). }
  assert (Hzone1 : page_zonenum K (mem st1 p) = page_zonenum K (mem st p)).
  { rewrite Hpg. now apply (addition_keeps_zone K HK). }
  assert (Hnr1 : compound_nr (mem st1 p) = compound_nr (mem st p))
    by now rewrite Hpg.
  split; [ | split; [ | split]].
  - intros g t z. unfold st2. rewrite (sizes_deleted_state K), Hgen1, Hfile1, Hzone1, Hnr1.
    unfold st1. rewrite (sizes_added_state K). fold gen.
    rewrite upd3_same, ulong_add_sub by apply Hsizes.
    apply upd3_twice.
  - intros g t z. unfold st2. rewrite (lists_deleted_state K).
    unfold st1. rewrite (lists_added_state K). fold gen. unfold upd3.
    destruct ((g =? gen) && (t =? page_is_file_lru K (mem st p))
              && (z =? page_zonenum K (mem st p))) eqn:Ek.
    + apply andb_true_iff in Ek. destruct Ek as [Ek Ez].
      apply andb_true_iff in Ek. destruct Ek as [Eg Et].
      apply Z.eqb_eq in Eg, Et, Ez. subst g t z.
      destruct front; [apply unlink_cons_same | apply unlink_snoc_same];
        apply Hfree.
    + apply unlink_absent, Hfree.
  - unfold st2, page_lru_gen. rewrite (page_deleted K). cbn [flags].
    apply (deletion_flags_gen K HK).
  - exists (if active_window K st gen
            then LRU_FILE K * page_is_file_lru K (mem st p) + LRU_ACTIVE K
            else LRU_FILE K * page_is_file_lru K (mem st p)).
    unfold st2, deleted_state.
    cbn [lru_size_log list_del update_lru_size set_size set_flags].
    rewrite Hgen1, Hfile1, Hzone1, Hnr1.
    replace (active_window K st1 gen) with (active_window K st gen)
      by (unfold active_window, st1; now rewrite (max_seq_added_state K)).
    unfold st1. rewrite (lru_size_log_added_state K p st front). fold gen.
    rewrite <- app_assoc. reflexivity.
Qed.

Lemma unlink_upd1_cons (p : page_id) (f : Z -> list page_id) (k k' : Z) (front : bool) :
  (forall j, ~ In p (f j)) ->
  unlink p (upd1 f k (if front then p :: f k else f k ++ [p]) k') = f k'.
Proof.
  intros Hfree. unfold upd1. destruct (k' =? k) eqn:Ek.
  - apply Z.eqb_eq in Ek. subst k'.
    destruct front; [apply unlink_cons_same | apply unlink_snoc_same]; apply Hfree.
  - apply unlink_absent, Hfree.
Qed.

(** del_page_from_lru_list, once the page and its lruvec are known to be
    as the adding callers left them. *)
Lemma del_page_after_add (front : bool) (p : page_id) (v : lruvec) (lru : Z) :
  page_lru_gen K (mem (lruvec_state v) p) = -1 ->
  (forall k, ~ In p (lruvec_lists v k)) ->
  (forall g t z, ~ In p (lists (evictable (lruvec_state v)) g t z)) ->
  (forall g t z, 0 <= sizes (evictable (lruvec_state v)) g t z < 2 ^ 64) ->
  page_lru K E (mem (lruvec_state v) p) = Done lru ->
  (PageUnevictable K (mem (lruvec_state v) p)
     || negb (enabled (evictable (lruvec_state v))
                      (page_is_file_lru K (mem (lruvec_state v) p))) = false ->
   max_seq (evictable (lruvec_state v)) <> 0) ->
  exists v2 charged,
    del_page_from_lru_list K E p (added_lruvec K front p v lru) = Done v2 /\
    (forall k, lruvec_lists v2 k = lruvec_lists v k) /\
    (forall g t z, lists (evictable (lruvec_state v2)) g t z =
                   lists (evictable (lruvec_state v)) g t z) /\
    (forall g t z, sizes (evictable (lruvec_state v2)) g t z =
                   sizes (evictable (lruvec_state v)) g t z) /\
    page_lru_gen K (mem (lruvec_state v2) p) = -1 /\
    lru_size_log (lruvec_state v2) =
    lru_size_log (lruvec_state v) ++
      [(charged, page_zonenum K (mem (lruvec_state v) p),
        thp_nr_pages (mem (lruvec_state v) p));
       (charged, page_zonenum K (mem (lruvec_state v) p),
        to_int (- thp_nr_pages (mem (lruvec_state v) p)))].
Proof.
  intros Hun Hclassic Hfree Hsizes Hlru Hmax.
  set (st := lruvec_state v) in *.
  unfold added_lruvec. fold st.
  destruct (PageUnevictable K (mem st p)
              || negb (enabled (evictable st) (page_is_file_lru K (mem st p))))
    eqn:Erej.
  - (* the classic lists took the page *)
    unfold del_page_from_lru_list, and_then. cbn [lruvec_state lruvec_lists].
    rewrite (lru_gen_deletion_untracked K HK) by exact Hun.
    cbn [lift fst snd]. cbn [mem list_del update_lru_size]. rewrite Hlru.
    eexists. exists lru. split; [reflexivity | ].
    cbn [lruvec_state lruvec_lists evictable lists sizes lru_size_log mem
         update_lru_size list_del].
    split; [intros k; now apply unlink_upd1_cons | ].
    split; [intros g t z; apply unlink_absent, Hfree | ].
    split; [reflexivity | ].
    split; [exact Hun | ].
    rewrite <- app_assoc. reflexivity.
  - (* the multigenerational lru took the page *)
    apply orb_false_iff in Erej. destruct Erej as [Hev Hen].
    assert (Hm : max_seq (evictable st) <> 0).
    { apply Hmax. reflexivity. }
    unfold del_page_from_lru_list, and_then. cbn [lruvec_state lruvec_lists].
    rewrite lru_gen_deletion_of_added by assumption. cbn [lift fst snd].
    destruct (deleted_added_state p st front Hfree Hsizes)
      as (Hs & Hl & Hg & charged & Hlog).
    eexists. exists charged. split; [reflexivity | ].
    cbn [lruvec_state lruvec_lists].
    split; [intros k; apply unlink_absent, Hclassic | ].
    repeat split; assumption.
Qed.

(** X15. A page that carries no generation and is linked nowhere can be
    added with either caller and then deleted: del_page_from_lru_list
    succeeds, every classic list, every list of the multigenerational lru
    and every size is as before, the page carries no generation, and the
    two calls of update_lru_size made on the way name the same list and
    zone with the page count and its negation. *)
Theorem add_then_del_page (p : page_id) (v v1 : lruvec) :
  page_lru_gen K (mem (lruvec_state v) p) = -1 ->
  (forall k, ~ In p (lruvec_lists v k)) ->
  (forall g t z, ~ In p (lists (evictable (lruvec_state v)) g t z)) ->
  (forall g t z, 0 <= sizes (evictable (lruvec_state v)) g t z < 2 ^ 64) ->
  add_page_to_lru_list K E p v = Done v1 \/
  add_page_to_lru_list_tail K E p v = Done v1 ->
  exists v2 charged,
    del_page_from_lru_list K E p v1 = Done v2 /\
    (forall k, lruvec_lists v2 k = lruvec_lists v k) /\
    (forall g t z, lists (evictable (lruvec_state v2)) g t z =
                   lists (evictable (lruvec_state v)) g t z) /\
    (forall g t z, sizes (evictable (lruvec_state v2)) g t z =
                   sizes (evictable (lruvec_state v)) g t z) /\
    page_lru_gen K (mem (lruvec_state v2) p) = -1 /\
    lru_size_log (lruvec_state v2) =
    lru_size_log (lruvec_state v) ++
      [(charged, page_zonenum K (mem (lruvec_state v) p),
        thp_nr_pages (mem (lruvec_state v) p));
       (charged, page_zonenum K (mem (lruvec_state v) p),
        to_int (- thp_nr_pages (mem (lruvec_state v) p)))].
Proof.
  intros Hun Hclassic Hfree Hsizes [Hadd | Hadd].
  - apply (add_page_to_lru_list_returned K HK) in Hadd.
    destruct Hadd as (lru & Hlru & -> & Hok).
    apply del_page_after_add; try assumption.
    intros Hacc. now destruct (Hok Hacc).
  - apply (add_page_to_lru_list_tail_returned K HK) in Hadd.
    destruct Hadd as (lru & Hlru & -> & Hok).
    apply del_page_after_add; try assumption.
    intros Hacc. now destruct (Hok Hacc).
Qed.

(** Inverting a call of del_page_from_lru_list that returned. *)
Lemma del_page_from_lru_list_returned (p : page_id) (v v1 : lruvec) :
  del_page_from_lru_list K E p v = Done v1 ->
  let st := lruvec_state v in
  (flags_gen K (flags (mem st p)) <> -1 /\
   PageUnevictable K (mem st p) = false /\
   lruvec_state v1 = deleted_state K p st) \/
  (flags_gen K (flags (mem st p)) = -1 /\
   PageActive K (mem st p) && PageUnevictable K (mem st p) = false /\
   mem (lruvec_state v1) = mem st).
Proof.
  intros Hret st. unfold del_page_from_lru_list, and_then in Hret. fold st in Hret.
  destruct (lru_gen_deletion K p st) as [[b st'] | ] eqn:Edel;
    cbn [lift fst snd] in Hret; [ | discriminate].
  apply (lru_gen_deletion_returned K HK) in Edel.
  destruct Edel as [(-> & -> & Hun) | (-> & -> & Hg & _ & Hev & _)].
  - right. cbn [mem list_del] in Hret.
    unfold page_lru, VM_BUG_ON_PAGE, and_then in Hret.
    destruct (PageActive K (mem st p) && PageUnevictable K (mem st p));
      [discriminate | ].
    split; [exact Hun | split; [reflexivity | ]].
    destruct (PageUnevictable K (mem st p)); inversion Hret; reflexivity.
  - left. inversion Hret. cbn [lruvec_state].
    repeat split; (assumption || lia).
Qed.

(** X16. Releasing a page: del_page_from_lru_list followed by
    __clear_page_lru_flags, on a page that has the lru flag, leaves no lru
    state in the page flags, whichever lists held the page: no generation,
    and the lru, active and unevictable flags clear. *)
Theorem del_then_clear_page_lru_flags (p : page_id) (v v1 : lruvec) :
  pg_lru_ok K E = true ->
  PageLRU E (mem (lruvec_state v) p) = true ->
  del_page_from_lru_list K E p v = Done v1 ->
  exists st2,
    __clear_page_lru_flags K E p (lruvec_state v1) = Done st2 /\
    page_lru_gen K (mem st2 p) = -1 /\
    PageLRU E (mem st2 p) = false /\
    PageActive K (mem st2 p) = false /\
    PageUnevictable K (mem st2 p) = false.
Proof.
  intros HP Hlru Hdel.
  apply del_page_from_lru_list_returned in Hdel. cbv zeta in Hdel.
  set (st := lruvec_state v) in *.
  assert (Hpre : PageLRU E (mem (lruvec_state v1) p) = true /\
                 page_lru_gen K (mem (lruvec_state v1) p) = -1 /\
                 PageActive K (mem (lruvec_state v1) p)
                   && PageUnevictable K (mem (lruvec_state v1) p) = false).
  { destruct Hdel as [(Hg & Hev & ->) | (Hg & Hboth & Hmem)].
    - rewrite (page_deleted K).
      unfold PageLRU, PageUnevictable, page_lru_gen, test_bit in *. cbn [flags].
      config_facts HK. pose proof (gen_width_pos K HK).
      pose proof (unevictable_not_active K HK).
      pose proof HP as HP'. unfold pg_lru_ok in HP'. cbn [pg_bits existsb] in HP'.
      repeat rewrite ?andb_true_iff, ?negb_true_iff, ?orb_false_iff in HP'.
      repeat rewrite ?Z.leb_le, ?Z.ltb_lt, ?Z.eqb_neq in HP'.
      destruct HP' as ((Hl0 & Hl1) & _ & _ & Hla & _).
      rewrite !(deletion_frame K HK) by lia.
      rewrite (deletion_flags_gen K HK), Hlru, Hev, andb_false_r.
      repeat split; reflexivity.
    - rewrite Hmem. unfold page_lru_gen. now rewrite Hg. }
  destruct Hpre as (Hlru1 & Hgen1 & Hboth1).
  destruct (clear_page_lru_flags_done K HK E p (lruvec_state v1) HP Hlru1)
    as (st2 & Hrun & Hl & Ha & Hu & _ & Hg & _).
  exists st2. rewrite Hg, Ha, Hu, Hboth1. repeat split; assumption.
Qed.

End Removing.

(** ** Sizes, lists and flags stay in step *)

Lemma nr_pages_on_cons (st : state) (q : page_id) (l : list page_id) :
  nr_pages_on st (q :: l) = thp_nr_pages (mem st q) + nr_pages_on st l.
Proof. reflexivity. Qed.

Lemma nr_pages_on_ext (st1 st2 : state) (l : list page_id) :
  (forall q, thp_nr_pages (mem st1 q) = thp_nr_pages (mem st2 q)) ->
  nr_pages_on st1 l = nr_pages_on st2 l.
Proof.
  intros Hnr. induction l as [ | q l IH]; [reflexivity | ].
  now rewrite !nr_pages_on_cons, Hnr, IH.
Qed.

Lemma nr_pages_on_app (st : state) (l1 l2 : list page_id) :
  nr_pages_on st (l1 ++ l2) = nr_pages_on st l1 + nr_pages_on st l2.
Proof.
  induction l1 as [ | q l IH]; [reflexivity | ].
  rewrite <- app_comm_cons, !nr_pages_on_cons, IH. lia.
Qed.

Lemma nr_pages_on_unlink (st : state) (p : page_id) (l : list page_id) :
  NoDup l -> In p l ->
  nr_pages_on st (unlink p l) = nr_pages_on st l - thp_nr_pages (mem st p).
Proof.
  intros Hnd. induction Hnd as [ | q l Hnin Hnd IH]; intros Hin; [destruct Hin | ].
  assert (Hstep : unlink p (q :: l) =
                  if Nat.eqb q p then unlink p l else q :: unlink p l).
  { unfold unlink. cbn [filter]. now destruct (Nat.eqb q p). }
  rewrite Hstep. destruct (Nat.eqb_spec q p) as [-> | Hne].
  - rewrite unlink_absent by assumption. rewrite nr_pages_on_cons. lia.
  - destruct Hin as [Heq | Hin]; [contradiction | ].
    rewrite !nr_pages_on_cons, IH by assumption. lia.
Qed.

Lemma in_unlink (p q : page_id) (l : list page_id) :
  In q (unlink p l) <-> In q l /\ q <> p.
Proof.
  unfold unlink. rewrite filter_In, negb_true_iff, Nat.eqb_neq. reflexivity.
Qed.

Lemma to_ulong_add_l (a b : Z) : to_ulong (to_ulong a + b) = to_ulong (a + b).
Proof. unfold to_ulong. apply Zplus_mod_idemp_l. Qed.

Lemma to_ulong_sub_l (a b : Z) : to_ulong (to_ulong a - b) = to_ulong (a - b).
Proof. unfold to_ulong. apply Zminus_mod_idemp_l. Qed.

Section Consistency.
Variable K : config.
Hypothesis HK : config_ok K = true.

Lemma nr_added_state (p q : page_id) (st : state) (front : bool) :
  thp_nr_pages (mem (added_state K p st front) q) = thp_nr_pages (mem st q).
Proof.
  destruct (Nat.eq_dec q p) as [-> | Hne].
  - now rewrite (page_added K).
  - now rewrite (other_page_added K) by assumption.
Qed.

Lemma nr_deleted_state (p q : page_id) (st : state) :
  thp_nr_pages (mem (deleted_state K p st) q) = thp_nr_pages (mem st q).
Proof.
  destruct (Nat.eq_dec q p) as [-> | Hne].
  - now rewrite (page_deleted K).
  - now rewrite (other_page_deleted K) by assumption.
Qed.

Lemma added_state_consistent (p : page_id) (st : state) (front : bool) :
  flags_gen K (flags (mem st p)) = -1 ->
  lrugen_consistent K st ->
  lrugen_consistent K (added_state K p st front).
Proof.
  intros Hun [Hmatch Honce Hcount Hlisted].
  pose proof (addition_gen_range K HK st (mem st p)) as Hg.
  set (gen := addition_gen K st (mem st p)) in *.
  set (file := page_is_file_lru K (mem st p)).
  set (zone := page_zonenum K (mem st p)).
  set (st' := added_state K p st front).
  assert (Hfree : forall g t z, ~ In p (lists (evictable st) g t z)).
  { intros g t z Hin. destruct (Hmatch g t z p Hin) as (Hg0 & Hgen & _).
    unfold page_lru_gen in Hgen. lia. }
  assert (Hpg : mem st' p = Page (addition_new_flags K gen (flags (mem st p)))
                                 (compound_nr (mem st p))) by apply page_added.
  assert (Hgen' : page_lru_gen K (mem st' p) = gen).
  { unfold page_lru_gen. rewrite Hpg. cbn [flags]. now apply (addition_flags_gen K HK). }
  assert (Hfile' : page_is_file_lru K (mem st' p) = file).
  { rewrite Hpg. now apply (addition_keeps_file K HK). }
  assert (Hzone' : page_zonenum K (mem st' p) = zone).
  { rewrite Hpg. now apply (addition_keeps_zone K HK). }
  assert (Hother : forall q, q <> p -> mem st' q = mem st q)
    by (intros q Hne; now apply other_page_added).
  assert (Hlists : forall g t z,
             lists (evictable st') g t z =
             if (g =? gen) && (t =? file) && (z =? zone)
             then (if front then p :: lists (evictable st) gen file zone
                   else lists (evictable st) gen file zone ++ [p])
             else lists (evictable st) g t z).
  { intros g t z. unfold st'. rewrite (lists_added_state K). reflexivity. }
  assert (Hslot : forall g t z, (g =? gen) && (t =? file) && (z =? zone) = true ->
                                g = gen /\ t = file /\ z = zone).
  { intros g t z Ek. apply andb_true_iff in Ek. destruct Ek as [Ek Ez].
    apply andb_true_iff in Ek. destruct Ek as [Eg Et].
    apply Z.eqb_eq in Eg, Et, Ez. repeat split; assumption. }
  assert (Hin_new : forall g t z q, In q (lists (evictable st') g t z) ->
                      (q = p /\ g = gen /\ t = file /\ z = zone) \/
                      (q <> p /\ In q (lists (evictable st) g t z))).
  { intros g t z q Hin. rewrite Hlists in Hin.
    destruct ((g =? gen) && (t =? file) && (z =? zone)) eqn:Ek.
    - destruct (Hslot g t z Ek) as (-> & -> & ->).
      assert (Hcases : q = p \/ In q (lists (evictable st) gen file zone)).
      { destruct front.
        - destruct Hin as [<- | Hin]; [now left | now right].
        - apply in_app_or in Hin. destruct Hin as [Hin | [<- | []]];
            [now right | now left]. }
      destruct Hcases as [-> | Hq]; [left; repeat split; reflexivity | right].
      split; [ | exact Hq]. intros ->. exact (Hfree _ _ _ Hq).
    - right. split; [ | exact Hin]. intros ->. exact (Hfree _ _ _ Hin). }
  constructor.
  - intros g t z q Hin. apply Hin_new in Hin.
    destruct Hin as [(-> & -> & -> & ->) | (Hne & Hin)].
    + repeat split; (assumption || lia).
    + rewrite Hother by assumption. now apply Hmatch.
  - intros g t z. rewrite Hlists.
    destruct ((g =? gen) && (t =? file) && (z =? zone)); [ | apply Honce].
    destruct front.
    + constructor; [apply Hfree | apply Honce].
    + apply NoDup_app; [apply Honce | repeat constructor; intros [] | ].
      intros q Hq [<- | []]. exact (Hfree _ _ _ Hq).
  - intros g t z. unfold st' at 1. rewrite (sizes_added_state K).
    fold gen file zone. rewrite Hlists. unfold upd3.
    rewrite (nr_pages_on_ext st' st) by (intros q; apply nr_added_state).
    destruct ((g =? gen) && (t =? file) && (z =? zone)); [ | apply Hcount].
    rewrite Hcount, to_ulong_add_l. f_equal.
    destruct front.
    + rewrite nr_pages_on_cons. unfold thp_nr_pages. lia.
    + rewrite nr_pages_on_app, nr_pages_on_cons. unfold thp_nr_pages.
      change (nr_pages_on st []) with 0. lia.
  - intros q Hq.
    destruct (Nat.eq_dec q p) as [-> | Hne].
    + rewrite Hgen', Hfile', Hzone', Hlists, !Z.eqb_refl. cbn [andb].
      destruct front; [now left | apply in_or_app; right; now left].
    + rewrite Hother in * by assumption.
      specialize (Hlisted q Hq). rewrite Hlists.
      destruct ((_ =? gen) && (_ =? file) && (_ =? zone)) eqn:Ek; [ | exact Hlisted].
      destruct (Hslot _ _ _ Ek) as (Eg & Et & Ez). rewrite Eg, Et, Ez in Hlisted.
      destruct front; [now right | apply in_or_app; now left].
Qed.

Lemma deleted_state_consistent (p : page_id) (st : state) :
  0 <= flags_gen K (flags (mem st p)) ->
  lrugen_consistent K st ->
  lrugen_consistent K (deleted_state K p st).
Proof.
  intros Hg [Hmatch Honce Hcount Hlisted].
  set (gen := flags_gen K (flags (mem st p))) in *.
  set (file := page_is_file_lru K (mem st p)).
  set (zone := page_zonenum K (mem st p)).
  set (st' := deleted_state K p st).
  assert (Hgen' : page_lru_gen K (mem st' p) = -1).
  { unfold page_lru_gen, st'. rewrite (page_deleted K). cbn [flags].
    apply (deletion_flags_gen K HK). }
  assert (Hother : forall q, q <> p -> mem st' q = mem st q)
    by (intros q Hne; now apply other_page_deleted).
  assert (Hhome : In p (lists (evictable st) gen file zone)) by now apply Hlisted.
  assert (Honly : forall g t z, In p (lists (evictable st) g t z) ->
                                g = gen /\ t = file /\ z = zone).
  { intros g t z Hin. destruct (Hmatch g t z p Hin) as (_ & Hgp & Hfp & Hzp).
    repeat split; (symmetry; assumption). }
  constructor.
  - intros g t z q Hin. unfold st' in Hin. rewrite (lists_deleted_state K) in Hin.
    apply in_unlink in Hin. destruct Hin as [Hin Hne].
    rewrite Hother by assumption. now apply Hmatch.
  - intros g t z. unfold st'. rewrite (lists_deleted_state K).
    apply NoDup_filter, Honce.
  - intros g t z. unfold st' at 1. rewrite (sizes_deleted_state K).
    fold gen file zone. unfold st'. rewrite (lists_deleted_state K).
    rewrite (nr_pages_on_ext (deleted_state K p st) st)
      by (intros q; apply nr_deleted_state).
    unfold upd3.
    destruct ((g =? gen) && (t =? file) && (z =? zone)) eqn:Ek.
    + apply andb_true_iff in Ek. destruct Ek as [Ek Ez].
      apply andb_true_iff in Ek. destruct Ek as [Eg Et].
      apply Z.eqb_eq in Eg, Et, Ez. subst g t z.
      rewrite Hcount, to_ulong_sub_l, nr_pages_on_unlink by (apply Honce || assumption).
      reflexivity.
    + rewrite unlink_absent; [apply Hcount | ].
      intros Hin. destruct (Honly _ _ _ Hin) as (-> & -> & ->).
      rewrite !Z.eqb_refl in Ek. discriminate.
  - intros q Hq.
    destruct (Nat.eq_dec q p) as [-> | Hne]; [rewrite Hgen' in Hq; lia | ].
    rewrite Hother in * by assumption.
    unfold st'. rewrite (lists_deleted_state K). apply in_unlink.
    split; [now apply Hlisted | assumption].
Qed.

(** X17. lru_gen_addition, lru_gen_deletion and page_inc_usage keep
    sizes, lists and page flags in step: if before the call every listed
    page carries the generation, type and zone of its list, no list holds a
    page twice, every size is the page count of its list and every page
    with a generation is on its list, then the same holds after any of
    them returns. *)
Theorem lrugen_consistent_preserved :
  (forall p st front b st',
      lrugen_consistent K st ->
      lru_gen_addition K p st front = Ok (b, st') ->
      lrugen_consistent K st') /\
  (forall p st b st',
      lrugen_consistent K st ->
      lru_gen_deletion K p st = Ok (b, st') ->
      lrugen_consistent K st') /\
  (forall on p st,
      lrugen_consistent K st ->
      lrugen_consistent K (snd (page_inc_usage K on p st))).
Proof.
  split; [ | split].
  - intros p st front b st' Hinv Hret.
    apply (lru_gen_addition_returned K HK) in Hret.
    destruct Hret as [(_ & -> & _) | (_ & -> & _ & Hun & _)]; [exact Hinv | ].
    now apply added_state_consistent.
  - intros p st b st' Hinv Hret.
    apply (lru_gen_deletion_returned K HK) in Hret.
    destruct Hret as [(_ & -> & _) | (_ & -> & Hg & _)]; [exact Hinv | ].
    apply deleted_state_consistent; [lia | exact Hinv].
  - intros on p st [Hmatch Honce Hcount Hlisted].
    set (st' := snd (page_inc_usage K on p st)).
    assert (Hsame : forall q,
               page_lru_gen K (mem st' q) = page_lru_gen K (mem st q) /\
               page_is_file_lru K (mem st' q) = page_is_file_lru K (mem st q) /\
               page_zonenum K (mem st' q) = page_zonenum K (mem st q) /\
               thp_nr_pages (mem st' q) = thp_nr_pages (mem st q)).
    { intros q. unfold st'. destruct on; [ | repeat split; reflexivity].
      destruct (Nat.eq_dec q p) as [-> | Hne].
      - rewrite (page_after_inc_usage K).
        unfold page_lru_gen, page_is_file_lru, PageSwapBacked, test_bit.
        cbn [flags thp_nr_pages compound_nr].
        rewrite (inc_usage_keeps_gen K HK), (inc_usage_keeps_swapbacked K HK).
        repeat split; try reflexivity.
        apply (page_zonenum_ext K HK). intros i Hi. cbn [flags].
        config_facts HK. pose proof (gen_width_pos K HK).
        apply (inc_usage_frame K HK); try lia.
        rewrite (testbit_usage_mask K HK) by lia. lia.
      - rewrite (other_page_after_inc_usage K) by assumption.
        repeat split; reflexivity. }
    assert (Hev : evictable st' = evictable st).
    { unfold st', page_inc_usage. destruct (negb on); [reflexivity | ].
      now destruct (_ =? _). }
    constructor; rewrite Hev.
    + intros g t z q Hin. destruct (Hsame q) as (-> & -> & -> & _).
      now apply Hmatch.
    + apply Honce.
    + intros g t z. rewrite (nr_pages_on_ext st' st) by (intros q; apply Hsame).
      apply Hcount.
    + intros q. destruct (Hsame q) as (-> & -> & -> & _). apply Hlisted.
Qed.

End Consistency.

(** ** The further properties, at concrete inputs *)

Lemma lru_tier_from_usage_monotone_witness :
  lru_tier_from_usage 1 <= lru_tier_from_usage 4.
Proof. apply (lru_tier_from_usage_monotone 1 4); lia. Defined.

Lemma page_tier_bounded_witness :
  config_ok sample_config = true /\
  LRU_USAGE_WIDTH sample_config <= 30 /\
  0 <= page_tier_usage sample_config (mem sample_anon_state 0%nat)
    <= 2 ^ LRU_USAGE_WIDTH sample_config /\
  0 <= lru_tier_from_usage (page_tier_usage sample_config (mem sample_anon_state 0%nat))
    <= LRU_USAGE_WIDTH sample_config + 1.
Proof.
  assert (Hw : LRU_USAGE_WIDTH sample_config <= 30) by (cbn; lia).
  split; [reflexivity | split; [exact Hw | ]].
  exact (page_tier_bounded sample_config eq_refl (mem sample_anon_state 0%nat) Hw).
Defined.

Lemma page_inc_usage_raises_usage_witness :
  config_ok sample_config = true /\
  1 <= page_tier_usage sample_config
         (mem (snd (page_inc_usage sample_config true 0%nat sample_anon_state)) 0%nat) /\
  page_tier_usage sample_config (mem sample_anon_state 0%nat)
  <= page_tier_usage sample_config
       (mem (snd (page_inc_usage sample_config true 0%nat sample_anon_state)) 0%nat).
Proof.
  assert (Hw : LRU_USAGE_WIDTH sample_config <= 30) by (cbn; lia).
  destruct (page_inc_usage_raises_usage sample_config eq_refl 0%nat
              sample_anon_state Hw) as (H1 & H2 & _).
  split; [reflexivity | split; [exact H1 | exact H2]].
Defined.

Lemma lru_gen_addition_usage_witness :
  config_ok sample_config = true /\
  lru_gen_addition sample_config 0%nat sample_anon_state true =
    Ok (true, added_state sample_config 0%nat sample_anon_state true) /\
  page_tier_usage sample_config
    (mem (added_state sample_config 0%nat sample_anon_state true) 0%nat) = 0.
Proof.
  assert (Hw : LRU_USAGE_WIDTH sample_config <= 30) by (cbn; lia).
  split; [reflexivity | split; [reflexivity | ]].
  exact (lru_gen_addition_usage sample_config eq_refl 0%nat sample_anon_state
           _ true Hw eq_refl).
Defined.

Lemma lru_gen_deletion_write_witness :
  config_ok sample_config = true /\
  lru_gen_deletion sample_config 0%nat sample_tracked_state =
    Ok (true, deleted_state sample_config 0%nat sample_tracked_state) /\
  page_tier_usage sample_config
    (mem (deleted_state sample_config 0%nat sample_tracked_state) 0%nat) =
  page_tier_usage sample_config (mem sample_tracked_state 0%nat) /\
  page_zonenum sample_config
    (mem (deleted_state sample_config 0%nat sample_tracked_state) 0%nat) =
  page_zonenum sample_config (mem sample_tracked_state 0%nat).
Proof.
  destruct (lru_gen_deletion_write sample_config eq_refl 0%nat sample_tracked_state
              _ eq_refl) as (_ & Hu & _ & Hz & _).
  split; [reflexivity | split; [reflexivity | split; [exact Hu | exact Hz]]].
Defined.

Lemma sid_from_seq_or_gen_index_witness :
  config_ok sample_config = true /\
  1 <= NR_STAT_GENS sample_more_config < 2 ^ 31 /\
  0 <= sid_from_seq_or_gen sample_more_config (-1) < NR_STAT_GENS sample_more_config /\
  sid_from_seq_or_gen sample_more_config 12 = lru_gen_from_seq sample_config 12.
Proof.
  assert (Hn : 1 <= NR_STAT_GENS sample_more_config < 2 ^ 31) by (cbn; lia).
  destruct (sid_from_seq_or_gen_index sample_config eq_refl sample_more_config
              (-1) Hn) as (Hr & _).
  destruct (sid_from_seq_or_gen_index sample_config eq_refl sample_more_config
              12 Hn) as (_ & _ & Hsame).
  split; [reflexivity | split; [exact Hn | split; [exact Hr | ]]].
  apply Hsame; [reflexivity | lia].
Defined.

Lemma lru_gen_is_active_window_witness :
  config_ok sample_config = true /\
  lru_gen_is_active sample_config sample_anon_state (lru_gen_from_seq sample_config 4)
  = Ok true /\
  lru_gen_is_active sample_config sample_anon_state (lru_gen_from_seq sample_config 3)
  = Ok false.
Proof.
  split; [reflexivity | split].
  - apply (lru_gen_is_active_window sample_config eq_refl sample_anon_state 4);
      cbn; lia.
  - apply (lru_gen_is_active_window sample_config eq_refl sample_anon_state 3);
      cbn; lia.
Defined.

Lemma lru_gen_update_size_between_witness :
  lru_gen_is_active sample_config sample_tracked_state 5 = Ok true /\
  lru_gen_is_active sample_config sample_tracked_state 3 = Ok false /\
  lru_gen_update_size sample_config 0%nat sample_tracked_state 5 3
  = Bug BUG_active_to_inactive /\
  exists st',
    lru_gen_update_size sample_config 0%nat sample_tracked_state 3 2 = Ok st' /\
    lru_size_log st' = lru_size_log sample_tracked_state.
Proof.
  split; [reflexivity | split; [reflexivity | split]].
  - apply (lru_gen_update_size_between sample_config 0%nat sample_tracked_state
             5 3 true false); (lia || reflexivity).
  - destruct (lru_gen_update_size_between sample_config 0%nat sample_tracked_state
                3 2 false false) as (_ & Hsame); try (lia || reflexivity).
    destruct (Hsame eq_refl) as (st' & Hrun & Hlog & _).
    exists st'. split; assumption.
Defined.

Lemma lru_gen_deletion_keeps_activity_witness :
  config_ok sample_config = true /\
  lru_gen_deletion sample_config 0%nat sample_tracked_state =
    Ok (true, deleted_state sample_config 0%nat sample_tracked_state) /\
  page_is_active sample_config (fun _ => false) (fun _ => sample_lrugen) 0%nat
    sample_tracked_state (Some (evictable sample_tracked_state)) = Done true /\
  page_is_active sample_config (fun _ => false) (fun _ => sample_lrugen) 0%nat
    (deleted_state sample_config 0%nat sample_tracked_state) None = Done true.
Proof.
  split; [reflexivity | split; [reflexivity | split; [reflexivity | ]]].
  exact (lru_gen_deletion_keeps_activity sample_config eq_refl (fun _ => false)
           (fun _ => sample_lrugen) 0%nat sample_tracked_state
           (deleted_state sample_config 0%nat sample_tracked_state) None eq_refl).
Defined.

Lemma lru_gen_addition_keeps_active_witness :
  config_ok sample_config = true /\
  page_is_active sample_config (fun _ => false) (fun _ => sample_lrugen) 0%nat
    (sample_state (BIT (PG_active sample_config))) None = Done true /\
  page_is_active sample_config (fun _ => false) (fun _ => sample_lrugen) 0%nat
    (added_state sample_config 0%nat (sample_state (BIT (PG_active sample_config))) true)
    (Some (evictable
       (added_state sample_config 0%nat
          (sample_state (BIT (PG_active sample_config))) true)))
  = Done true.
Proof.
  split; [reflexivity | split; [reflexivity | ]].
  exact (lru_gen_addition_keeps_active sample_config eq_refl (fun _ => false)
           (fun _ => sample_lrugen) 0%nat
           (sample_state (BIT (PG_active sample_config))) _ true None
           eq_refl eq_refl).
Defined.

Lemma page_inc_usage_keeps_placement_witness :
  config_ok sample_config = true /\
  page_lru sample_config sample_more_config
    (mem (snd (page_inc_usage sample_config true 0%nat sample_anon_state)) 0%nat) =
  page_lru sample_config sample_more_config (mem sample_anon_state 0%nat).
Proof.
  destruct (page_inc_usage_keeps_placement sample_config eq_refl sample_more_config
              (fun _ => false) (fun _ => sample_lrugen) true 0%nat 0%nat
              sample_anon_state None) as (_ & Hlru & _).
  split; [reflexivity | exact Hlru].
Defined.

Lemma lru_gen_deletion_charges_page_lru_witness :
  config_ok sample_config = true /\
  lru_lists_ok sample_config sample_more_config = true /\
  exists lru,
    page_lru sample_config sample_more_config
      (mem (deleted_state sample_config 0%nat sample_tracked_state) 0%nat) = Done lru /\
    lru_size_log (deleted_state sample_config 0%nat sample_tracked_state) =
    lru_size_log sample_tracked_state ++
      [(lru,
        page_zonenum sample_config
          (mem (deleted_state sample_config 0%nat sample_tracked_state) 0%nat),
        to_int (- thp_nr_pages
                    (mem (deleted_state sample_config 0%nat sample_tracked_state)
                         0%nat)))].
Proof.
  split; [reflexivity | split; [reflexivity | ]].
  exact (lru_gen_deletion_charges_page_lru sample_config eq_refl sample_more_config
           0%nat sample_tracked_state _ eq_refl eq_refl).
Defined.

Lemma clear_page_lru_flags_outcome_witness :
  config_ok sample_config = true /\
  pg_lru_ok sample_config sample_more_config = true /\
  __clear_page_lru_flags sample_config sample_more_config 0%nat sample_anon_state
  = Stop BUG_page_not_lru /\
  exists st',
    __clear_page_lru_flags sample_config sample_more_config 0%nat
      (sample_state (BIT (PG_lru sample_more_config) + BIT (PG_active sample_config)))
    = Done st' /\
    PageLRU sample_more_config (mem st' 0%nat) = false /\
    PageActive sample_config (mem st' 0%nat) = false.
Proof.
  split; [reflexivity | split; [reflexivity | split]].
  - apply (clear_page_lru_flags_outcome sample_config eq_refl sample_more_config
             0%nat sample_anon_state eq_refl). reflexivity.
  - destruct (clear_page_lru_flags_outcome sample_config eq_refl sample_more_config
                0%nat
                (sample_state (BIT (PG_lru sample_more_config)
                               + BIT (PG_active sample_config)))
                eq_refl) as (_ & Hdone).
    destruct (Hdone eq_refl) as (st' & Hrun & Hl & Ha & _).
    exists st'. split; [exact Hrun | split; [exact Hl | exact Ha]].
Defined.

Lemma add_page_to_lru_list_position_witness :
  let K := sample_config in
  let E := sample_more_config in
  let anon :=
    Lruvec (State (fun _ => Page (BIT (PG_swapbacked K)) 1)
                  (Lrugen 5 (fun _ => 3) (fun _ _ _ => 1) (fun _ _ _ => [1%nat])
                          (fun _ => true)) [])
           (fun _ => [1%nat]) in
  let unevictable :=
    Lruvec (State (fun _ => Page (BIT (PG_unevictable K)) 1)
                  (Lrugen 5 (fun _ => 3) (fun _ _ _ => 1) (fun _ _ _ => [1%nat])
                          (fun _ => true)) [])
           (fun _ => [1%nat]) in
  config_ok K = true /\
  (exists v1 v2,
      add_page_to_lru_list K E 0%nat anon = Done v1 /\
      add_page_to_lru_list_tail K E 0%nat anon = Done v2 /\
      lists (evictable (lruvec_state v1)) 4 0 0 = [0%nat; 1%nat] /\
      lists (evictable (lruvec_state v2)) 4 0 0 = [1%nat; 0%nat] /\
      lru_size_log (lruvec_state v2) = lru_size_log (lruvec_state v1)) /\
  (exists v1 v2,
      add_page_to_lru_list K E 0%nat unevictable = Done v1 /\
      add_page_to_lru_list_tail K E 0%nat unevictable = Done v2 /\
      lruvec_lists v1 4 = [0%nat; 1%nat] /\
      lruvec_lists v2 4 = [1%nat; 0%nat]) /\
  add_page_to_lru_list K E 0%nat sample_lru_page = Stop (BUG_in BUG_already_tracked) /\
  add_page_to_lru_list_tail K E 0%nat sample_lru_page
  = Stop (BUG_in BUG_already_tracked).
Proof.
  intros K E anon unevictable.
  split; [reflexivity | ].
  split; [ | split; [ | split; [reflexivity | ]]].
  - destruct (add_page_to_lru_list_position K eq_refl E 0%nat anon)
      as (_ & _ & Hpos).
    exists (added_lruvec K true 0%nat anon 0), (added_lruvec K false 0%nat anon 0).
    destruct (Hpos _ _ eq_refl eq_refl) as (_ & _ & Hlog & _ & Hlists).
    split; [reflexivity | split; [reflexivity | ]].
    destruct (Hlists 4 0 0) as [(Hsame & _) | (Hhead & Htail)];
      [discriminate Hsame | ].
    split; [exact Hhead | split; [exact Htail | exact Hlog]].
  - destruct (add_page_to_lru_list_position K eq_refl E 0%nat unevictable)
      as (_ & _ & Hpos).
    exists (added_lruvec K true 0%nat unevictable 4),
           (added_lruvec K false 0%nat unevictable 4).
    destruct (Hpos _ _ eq_refl eq_refl) as (_ & _ & _ & Hclassic & _).
    split; [reflexivity | split; [reflexivity | ]].
    destruct (Hclassic 4) as [(Hsame & _) | (Hhead & Htail)];
      [discriminate Hsame | ].
    split; [exact Hhead | exact Htail].
  - destruct (add_page_to_lru_list_position K eq_refl E 0%nat sample_lru_page)
      as (_ & Hstop & _).
    apply Hstop. reflexivity.
Defined.

Lemma add_then_del_page_witness :
  config_ok sample_config = true /\
  add_page_to_lru_list sample_config sample_more_config 0%nat
    (sample_lruvec (BIT (PG_unevictable sample_config)))
  = Done (added_lruvec sample_config true 0%nat
            (sample_lruvec (BIT (PG_unevictable sample_config))) 4) /\
  exists v2,
    del_page_from_lru_list sample_config sample_more_config 0%nat
      (added_lruvec sample_config true 0%nat
         (sample_lruvec (BIT (PG_unevictable sample_config))) 4) = Done v2 /\
    (forall k, lruvec_lists v2 k = []) /\
    page_lru_gen sample_config (mem (lruvec_state v2) 0%nat) = -1.
Proof.
  split; [reflexivity | split; [reflexivity | ]].
  destruct (add_then_del_page sample_config eq_refl sample_more_config 0%nat
              (sample_lruvec (BIT (PG_unevictable sample_config)))
              (added_lruvec sample_config true 0%nat
                 (sample_lruvec (BIT (PG_unevictable sample_config))) 4))
    as (v2 & charged & Hrun & Hclassic & _ & _ & Hgen & _).
  - reflexivity.
  - intros k Hin. exact Hin.
  - intros g t z Hin. exact Hin.
  - intros g t z. cbn. lia.
  - left. reflexivity.
  - exists v2. split; [exact Hrun | split; [exact Hclassic | exact Hgen]].
Defined.

Lemma del_then_clear_page_lru_flags_witness :
  config_ok sample_config = true /\
  pg_lru_ok sample_config sample_more_config = true /\
  del_page_from_lru_list sample_config sample_more_config 0%nat sample_lru_page
  = Done (Lruvec (deleted_state sample_config 0%nat (lruvec_state sample_lru_page))
                 (fun _ => [])) /\
  exists st2,
    __clear_page_lru_flags sample_config sample_more_config 0%nat
      (deleted_state sample_config 0%nat (lruvec_state sample_lru_page))
    = Done st2 /\
    page_lru_gen sample_config (mem st2 0%nat) = -1 /\
    PageActive sample_config (mem st2 0%nat) = false.
Proof.
  split; [reflexivity | split; [reflexivity | split; [reflexivity | ]]].
  destruct (del_then_clear_page_lru_flags sample_config eq_refl sample_more_config
              0%nat sample_lru_page
              (Lruvec (deleted_state sample_config 0%nat (lruvec_state sample_lru_page))
                      (fun _ => []))
              eq_refl eq_refl eq_refl)
    as (st2 & Hrun & Hgen & _ & Hact & _).
  exists st2. split; [exact Hrun | split; [exact Hgen | exact Hact]].
Defined.

Lemma lrugen_consistent_preserved_witness :
  config_ok sample_config = true /\
  lrugen_consistent sample_config sample_anon_state /\
  lrugen_consistent sample_config
    (added_state sample_config 0%nat sample_anon_state true).
Proof.
  assert (Hinv : lrugen_consistent sample_config sample_anon_state).
  { constructor.
    - intros g t z q Hin. destruct Hin.
    - intros g t z. constructor.
    - intros g t z. reflexivity.
    - intros q Hq. vm_compute in Hq. exfalso. apply Hq. reflexivity. }
  destruct (lrugen_consistent_preserved sample_config eq_refl) as (Hadd & _ & _).
  split; [reflexivity | split; [exact Hinv | ]].
  exact (Hadd 0%nat sample_anon_state true true _ Hinv eq_refl).
Defined.

(** * The active flag and the generation, over the whole file *)

Section Exclusion.
Variable K : config.
Hypothesis HK : config_ok K = true.

(** Clearing bits of the word cannot break the rule: a generation that is
    still there was there before, and the active bit is not set by it. *)
Lemma land_excludes_active (w m n : Z) :
  generation_excludes_active K (Page w n) ->
  generation_excludes_active K (Page (Z.land w m) n).
Proof.
  unfold generation_excludes_active, page_lru_gen, PageActive, test_bit.
  cbn [flags]. intros Hinv Hgen.
  rewrite Z.land_spec, Hinv; [reflexivity | ].
  intros Hnone. apply Hgen.
  apply Z.eqb_eq. rewrite <- (flags_gen_untracked K HK). apply Z.eqb_eq.
  apply Z.eqb_eq in Hnone. rewrite <- (flags_gen_untracked K HK) in Hnone.
  apply Z.eqb_eq in Hnone.
  rewrite <- Z.land_assoc, (Z.land_comm m), Z.land_assoc, Hnone.
  apply Z.land_0_l.
Qed.

Lemma set_flags_excludes_active (p : page_id) (st : state) (w : Z) :
  excludes_active K st ->
  generation_excludes_active K (Page w (compound_nr (mem st p))) ->
  excludes_active K (set_flags st p w).
Proof.
  intros Hinv Hp q. destruct (Nat.eq_dec q p) as [-> | Hne].
  - now rewrite mem_set_flags_same.
  - rewrite mem_set_flags_other by assumption. apply Hinv.
Qed.

Lemma excludes_active_ext (st1 st2 : state) :
  mem st2 = mem st1 -> excludes_active K st1 -> excludes_active K st2.
Proof. intros Hmem Hinv q. rewrite Hmem. apply Hinv. Qed.

Lemma clear_flag_excludes_active (nr : Z) (p : page_id) (st : state) :
  excludes_active K st -> excludes_active K (clear_flag nr p st).
Proof.
  intros Hinv. unfold clear_flag. apply set_flags_excludes_active; [assumption | ].
  apply land_excludes_active. specialize (Hinv p).
  now destruct (mem st p).
Qed.

Lemma page_added_excludes_active (p : page_id) (st : state) (front : bool) :
  page_lru_gen K (mem (added_state K p st front) p) <> -1 /\
  PageActive K (mem (added_state K p st front) p) = false.
Proof.
  pose proof (addition_gen_range K HK st (mem st p)) as Hg.
  unfold page_lru_gen, PageActive, test_bit. rewrite (page_added K). cbn [flags].
  rewrite (addition_flags_gen K HK), (addition_clears_active K HK) by assumption.
  split; [lia | reflexivity].
Qed.

Lemma page_deleted_untracked (p : page_id) (st : state) :
  page_lru_gen K (mem (deleted_state K p st) p) = -1.
Proof.
  unfold page_lru_gen. rewrite (page_deleted K). cbn [flags].
  apply (deletion_flags_gen K HK).
Qed.

Lemma added_state_excludes_active (p : page_id) (st : state) (front : bool) :
  excludes_active K st -> excludes_active K (added_state K p st front).
Proof.
  intros Hinv q. destruct (Nat.eq_dec q p) as [-> | Hne].
  - intros _. apply page_added_excludes_active.
  - rewrite (other_page_added K) by assumption. apply Hinv.
Qed.

Lemma deleted_state_excludes_active (p : page_id) (st : state) :
  excludes_active K st -> excludes_active K (deleted_state K p st).
Proof.
  intros Hinv q. destruct (Nat.eq_dec q p) as [-> | Hne].
  - intros Hgen. now rewrite page_deleted_untracked in Hgen.
  - rewrite (other_page_deleted K) by assumption. apply Hinv.
Qed.

Lemma inc_usage_excludes_active (on : bool) (p : page_id) (st : state) :
  excludes_active K st -> excludes_active K (snd (page_inc_usage K on p st)).
Proof.
  intros Hinv q. destruct (Nat.eq_dec q p) as [-> | Hne].
  - destruct on; [ | apply Hinv].
    rewrite (page_after_inc_usage K). specialize (Hinv p).
    unfold generation_excludes_active, page_lru_gen, PageActive, test_bit in *.
    cbn [flags]. now rewrite (inc_usage_keeps_gen K HK), (inc_usage_keeps_active K HK).
  - rewrite (other_page_after_inc_usage K) by assumption. apply Hinv.
Qed.

(** lru_gen_update_size writes sizes and calls update_lru_size; it writes
    no page. *)
Lemma mem_lru_gen_update_size (p : page_id) (st st' : state) (old_gen new_gen : Z) :
  lru_gen_update_size K p st old_gen new_gen = Ok st' -> mem st' = mem st.
Proof.
  unfold lru_gen_update_size, VM_BUG_ON, bind.
  repeat match goal with
         | |- context [if ?c then _ else _] => destruct c
         | |- context [match lru_gen_is_active ?a ?b ?c with _ => _ end] =>
             destruct (lru_gen_is_active a b c)
         end;
    intros Hret; inversion Hret; reflexivity.
Qed.

Lemma clear_page_lru_flags_excludes_active (E : more_config) (p : page_id)
      (st st' : state) :
  excludes_active K st -> __clear_page_lru_flags K E p st = Done st' ->
  excludes_active K st'.
Proof.
  intros Hinv. unfold __clear_page_lru_flags, VM_BUG_ON_PAGE, and_then.
  destruct (negb (PageLRU E (mem st p))); [discriminate | ].
  destruct (_ && _); intros Hret; inversion Hret;
    repeat apply clear_flag_excludes_active; assumption.
Qed.

Lemma added_lruvec_excludes_active (front : bool) (p : page_id) (v : lruvec)
      (lru : Z) :
  excludes_active K (lruvec_state v) ->
  excludes_active K (lruvec_state (added_lruvec K front p v lru)).
Proof.
  intros Hinv. unfold added_lruvec.
  destruct (_ || _); cbn [lruvec_state].
  - exact Hinv.
  - now apply added_state_excludes_active.
Qed.

Lemma add_page_excludes_active (E : more_config) (p : page_id) (v v' : lruvec) :
  excludes_active K (lruvec_state v) ->
  add_page_to_lru_list K E p v = Done v' \/
  add_page_to_lru_list_tail K E p v = Done v' ->
  excludes_active K (lruvec_state v').
Proof.
  intros Hinv [Hret | Hret].
  - apply (add_page_to_lru_list_returned K HK) in Hret.
    destruct Hret as (lru & _ & -> & _). now apply added_lruvec_excludes_active.
  - apply (add_page_to_lru_list_tail_returned K HK) in Hret.
    destruct Hret as (lru & _ & -> & _). now apply added_lruvec_excludes_active.
Qed.

Lemma del_page_excludes_active (E : more_config) (p : page_id) (v v' : lruvec) :
  excludes_active K (lruvec_state v) ->
  del_page_from_lru_list K E p v = Done v' ->
  excludes_active K (lruvec_state v') /\
  page_lru_gen K (mem (lruvec_state v') p) = -1.
Proof.
  intros Hinv Hret. apply (del_page_from_lru_list_returned K HK) in Hret.
  cbv zeta in Hret. destruct Hret as [(_ & _ & ->) | (Hgen & _ & Hmem)].
  - split; [now apply deleted_state_excludes_active | apply page_deleted_untracked].
  - split; [now apply (excludes_active_ext (lruvec_state v)) | ].
    rewrite Hmem. exact Hgen.
Qed.

(** lru_gen_activation writes nothing itself: it returns the lruvec it was
    given, or whatever activate_page makes of it, and it calls
    activate_page only for a page that is neither active nor unevictable. *)
Lemma lru_gen_activation_returned (VM_LOCKED VM_SPECIAL : Z)
      (activate_page : page_id -> lruvec -> outcome lruvec)
      (on : bool) (p : page_id) (vma : vm_area_struct) (v v' : lruvec) :
  lru_gen_activation K VM_LOCKED VM_SPECIAL activate_page on p vma v = Done v' ->
  v' = v \/
  (on = true /\
   PageActive K (mem (lruvec_state v) p) = false /\
   PageUnevictable K (mem (lruvec_state v) p) = false /\
   vma_is_dax vma = false /\
   Z.land (vm_flags vma) (Z.lor VM_LOCKED VM_SPECIAL) = 0 /\
   activate_page p v = Done v').
Proof.
  unfold lru_gen_activation. destruct on; cbn [negb].
  - destruct (PageActive K (mem (lruvec_state v) p)); cbn [orb];
      [intros Hret; inversion Hret; now left | ].
    destruct (PageUnevictable K (mem (lruvec_state v) p)); cbn [orb];
      [intros Hret; inversion Hret; now left | ].
    destruct (vma_is_dax vma); cbn [orb];
      [intros Hret; inversion Hret; now left | ].
    destruct (Z.eqb_spec (Z.land (vm_flags vma) (Z.lor VM_LOCKED VM_SPECIAL)) 0);
      cbn [negb]; [ | intros Hret; inversion Hret; now left].
    intros Hret. right. repeat split; assumption.
  - intros Hret. inversion Hret. now left.
Qed.

(** Setting the active flag of a page that carries no generation. *)
Lemma set_active_excludes_active (p : page_id) (st : state) :
  excludes_active K st -> page_lru_gen K (mem st p) = -1 ->
  excludes_active K (set_flag (PG_active K) p st).
Proof.
  intros Hinv Hgen. unfold set_flag.
  apply set_flags_excludes_active; [assumption | ].
  intros Hgen'. exfalso. apply Hgen'. rewrite <- Hgen.
  unfold page_lru_gen. cbn [flags].
  config_facts HK. pose proof (gen_width_pos K HK).
  apply (flags_gen_ext K HK). intros i Hi.
  rewrite Z.lor_spec, testbit_BIT by lia.
  rewrite (proj2 (Z.eqb_neq i (PG_active K))) by lia. apply orb_false_r.
Qed.

Lemma sample_activate_page_excludes_active (E : more_config) (p : page_id)
      (v v' : lruvec) :
  excludes_active K (lruvec_state v) ->
  sample_activate_page K E p v = Done v' ->
  excludes_active K (lruvec_state v').
Proof.
  intros Hinv. unfold sample_activate_page, and_then.
  destruct (_ && _ && _); [ | intros Hret; inversion Hret; subst; exact Hinv].
  destruct (del_page_from_lru_list K E p v) as [v1 | ] eqn:Edel; [ | discriminate].
  apply del_page_excludes_active in Edel; [ | assumption].
  destruct Edel as [Hinv1 Hgen1].
  intros Hret. eapply add_page_excludes_active; [ | left; exact Hret].
  cbn [lruvec_state]. now apply set_active_excludes_active.
Qed.

(** C10. Every function of the file that writes a page, a size or a list
    preserves, for every page, the rule that a page carrying a generation
    has its active flag clear: lru_gen_addition, lru_gen_deletion,
    page_inc_usage, lru_gen_update_size and update_lru_size,
    __clear_page_lru_flags, the three callers add_page_to_lru_list,
    add_page_to_lru_list_tail and del_page_from_lru_list, and
    lru_gen_activation.  The last one writes nothing itself: it returns the
    lruvec it was given or hands the page, neither active nor unevictable,
    to activate_page of mm/swap.c, so it preserves the rule whenever
    activate_page does on such pages.  (The remaining functions of the file
    only read.)  The word lru_gen_addition writes installs the generation
    and clears the active flag together; the word lru_gen_deletion writes,
    the only one in this file that may set the active flag, carries no
    generation. *)
Theorem generation_excludes_active_preserved :
  (forall p st front b st',
      excludes_active K st ->
      lru_gen_addition K p st front = Ok (b, st') ->
      excludes_active K st') /\
  (forall p st b st',
      excludes_active K st ->
      lru_gen_deletion K p st = Ok (b, st') ->
      excludes_active K st') /\
  (forall on p st,
      excludes_active K st ->
      excludes_active K (snd (page_inc_usage K on p st))) /\
  (forall p st old_gen new_gen st',
      excludes_active K st ->
      lru_gen_update_size K p st old_gen new_gen = Ok st' ->
      excludes_active K st') /\
  (forall st lru zid nr_pages,
      excludes_active K st ->
      excludes_active K (update_lru_size st lru zid nr_pages)) /\
  (forall E p st st',
      excludes_active K st ->
      __clear_page_lru_flags K E p st = Done st' ->
      excludes_active K st') /\
  (forall E p v v',
      excludes_active K (lruvec_state v) ->
      add_page_to_lru_list K E p v = Done v' ->
      excludes_active K (lruvec_state v')) /\
  (forall E p v v',
      excludes_active K (lruvec_state v) ->
      add_page_to_lru_list_tail K E p v = Done v' ->
      excludes_active K (lruvec_state v')) /\
  (forall E p v v',
      excludes_active K (lruvec_state v) ->
      del_page_from_lru_list K E p v = Done v' ->
      excludes_active K (lruvec_state v')) /\
  (forall VM_LOCKED VM_SPECIAL activate_page on p vma v v',
      (forall w w',
          PageActive K (mem (lruvec_state w) p) = false ->
          PageUnevictable K (mem (lruvec_state w) p) = false ->
          excludes_active K (lruvec_state w) ->
          activate_page p w = Done w' ->
          excludes_active K (lruvec_state w')) ->
      excludes_active K (lruvec_state v) ->
      lru_gen_activation K VM_LOCKED VM_SPECIAL activate_page on p vma v = Done v' ->
      excludes_active K (lruvec_state v')) /\
  (forall VM_LOCKED VM_SPECIAL activate_page on p vma v v',
      lru_gen_activation K VM_LOCKED VM_SPECIAL activate_page on p vma v = Done v' ->
      v' = v \/ activate_page p v = Done v') /\
  (forall p st front st',
      lru_gen_addition K p st front = Ok (true, st') ->
      page_lru_gen K (mem st' p) <> -1 /\ PageActive K (mem st' p) = false) /\
  (forall p st st',
      lru_gen_deletion K p st = Ok (true, st') ->
      page_lru_gen K (mem st' p) = -1).
Proof.
  repeat apply conj.
  - intros p st front b st' Hinv Hret.
    apply (lru_gen_addition_returned K HK) in Hret.
    destruct Hret as [(_ & -> & _) | (_ & -> & _)];
      [exact Hinv | now apply added_state_excludes_active].
  - intros p st b st' Hinv Hret.
    apply (lru_gen_deletion_returned K HK) in Hret.
    destruct Hret as [(_ & -> & _) | (_ & -> & _)];
      [exact Hinv | now apply deleted_state_excludes_active].
  - intros on p st. apply inc_usage_excludes_active.
  - intros p st old_gen new_gen st' Hinv Hret.
    apply mem_lru_gen_update_size in Hret.
    now apply (excludes_active_ext st).
  - intros st lru zid nr_pages Hinv. exact Hinv.
  - intros E p st st'. apply clear_page_lru_flags_excludes_active.
  - intros E p v v' Hinv Hret. eapply add_page_excludes_active; eauto.
  - intros E p v v' Hinv Hret. eapply add_page_excludes_active; eauto.
  - intros E p v v' Hinv Hret. eapply del_page_excludes_active; eauto.
  - intros VM_LOCKED VM_SPECIAL activate_page on p vma v v' Hact Hinv Hret.
    apply lru_gen_activation_returned in Hret.
    destruct Hret as [-> | (_ & Ha & Hu & _ & _ & Hrun)]; [exact Hinv | ].
    now apply (Hact v v').
  - intros VM_LOCKED VM_SPECIAL activate_page on p vma v v' Hret.
    apply lru_gen_activation_returned in Hret.
    destruct Hret as [-> | (_ & _ & _ & _ & _ & Hrun)]; [now left | now right].
  - intros p st front st' Hret.
    apply (lru_gen_addition_returned K HK) in Hret.
    destruct Hret as [(Hb & _) | (_ & -> & _)];
      [discriminate | apply page_added_excludes_active].
  - intros p st st' Hret.
    apply (lru_gen_deletion_returned K HK) in Hret.
    destruct Hret as [(Hb & _) | (_ & -> & _)];
      [discriminate | apply page_deleted_untracked].
Qed.

End Exclusion.

(** The rule at concrete inputs: an addition, a deletion, and an activation
    that moves a file page on the lru to the youngest generation. *)
Lemma generation_excludes_active_preserved_witness :
  let K := sample_config in
  let E := sample_more_config in
  let v := sample_lruvec (BIT (PG_lru E)) in
  config_ok K = true /\
  excludes_active K sample_anon_state /\
  excludes_active K (added_state K 0%nat sample_anon_state true) /\
  page_lru_gen K (mem (deleted_state K 0%nat sample_tracked_state) 0%nat) = -1 /\
  excludes_active K (lruvec_state v) /\
  exists v',
    lru_gen_activation K sample_VM_LOCKED sample_VM_SPECIAL
      (sample_activate_page K E) true 0%nat (Vma 0 false) v = Done v' /\
    page_lru_gen K (mem (lruvec_state v') 0%nat) = 5 /\
    excludes_active K (lruvec_state v').
Proof.
  intros K E v.
  destruct (generation_excludes_active_preserved K eq_refl)
    as (Hadd & _ & _ & _ & _ & _ & _ & _ & _ & Hactivation & _ & _ & Hdel).
  assert (Hanon : excludes_active K sample_anon_state)
    by (intros q _; reflexivity).
  assert (Hv : excludes_active K (lruvec_state v))
    by (intros q _; reflexivity).
  split; [reflexivity | ].
  split; [exact Hanon | ].
  split; [exact (Hadd 0%nat sample_anon_state true true _ Hanon eq_refl) | ].
  split; [exact (Hdel 0%nat sample_tracked_state _ eq_refl) | ].
  split; [exact Hv | ].
  eexists. split; [reflexivity | ]. split; [reflexivity | ].
  apply (Hactivation sample_VM_LOCKED sample_VM_SPECIAL (sample_activate_page K E)
                     true 0%nat (Vma 0 false) v); [ | exact Hv | reflexivity].
  intros w w' _ _. apply (sample_activate_page_excludes_active K eq_refl).
Defined.
